(** * madira-app: the store back end of [app.py]

    A shallow embedding of the request handlers of [app.py] and of the
    SQLAlchemy session they share, followed by the properties of the
    billing transaction, of the stock and licence updates and of the
    store-scoped queries.

    Tables are finite maps from the integer primary key to the row; the
    session is a pair of database states (what is persisted, what the
    open transaction sees); exceptions of the [try] block are an explicit
    outcome.  What the handlers take from the Python runtime (float
    arithmetic, [round], [strptime]) and from the storage engine (failing
    statements, the clock) is a parameter of the model. *)

From stdpp Require Import gmap strings list fin_maps sorting pretty.
From Stdlib Require Import ZArith Lia Ascii Floats.SpecFloat.

Open Scope Z_scope.

(** ** What the handlers take from the Python runtime *)

(** Python's [float]: the type of [Product.price], [SaleItem.price_at_sale]
    and [Sale.total_amount].  [float_of_int] is the conversion Python applies
    to the integer operand of [price * quantity]; it raises [OverflowError]
    ([None]) on an integer too large for a float.  [float_zero] is [float(0)],
    what the integer [0] of [total_amount = 0] becomes when the first line is
    added to it.  [round2 x] is [round(x, 2)] on a float. *)
Class PyFloat := {
  float : Type;
  float_zero : float;
  float_of_int : Z → option float;
  float_add : float → float → float;
  float_mul : float → float → float;
  round2 : float → float;
  overflow_msg : string
}.

(** [datetime.date] *)
Record date := Date { year : Z; month : Z; day : Z }.

(** [datetime.datetime.strptime(s, '%Y-%m-%d').date()]; [None] is the
    [ValueError] it raises on a string that does not parse. *)
Class PyStrptime := {
  strptime_ymd : string → option date;
  strptime_empty : strptime_ymd "" = None
}.

(** [str(n)] for an integer *)
Definition py_str (n : Z) : string := pretty n.

(** ** The runtime the examples run on *)

(** IEEE 754 binary64, the float of CPython, on the Standard Library's
    specification of floating-point numbers. *)
Module Binary64.

Definition of_int (z : Z) : option spec_float :=
  match binary_normalize 53 1024 z 0 false with
  | S754_infinity _ => None
  | f => Some f
  end.

(** [n / d] rounded to the nearest integer, a tie to the even one *)
Definition half_even (n d : Z) : Z :=
  let q := n / d in
  let r := n mod d in
  match 2 * r ?= d with
  | Lt => q
  | Gt => q + 1
  | Eq => if Z.even q then q else q + 1
  end.

(** [round(x, 2)]: the multiple of 1/100 nearest to the exact value of
    [x] (a tie to the even one), then the float nearest to it. *)
Definition round_2 (x : spec_float) : spec_float :=
  match x with
  | S754_finite s m e =>
      let n := if 0 <=? e then Zpos m * 100 * 2 ^ e
               else half_even (Zpos m * 100) (2 ^ (- e)) in
      match n with
      | Zpos n => SFdiv 53 1024 (S754_finite s n 0) (S754_finite false 100 0)
      | _ => S754_zero s
      end
  | _ => x
  end.

(** The float [m * 2^e] *)
Definition lit (m e : Z) : spec_float := binary_normalize 53 1024 m e false.

#[export] Instance py_float : PyFloat := {|
  float := spec_float;
  float_zero := S754_zero false;
  float_of_int := of_int;
  float_add := SFadd 53 1024;
  float_mul := SFmul 53 1024;
  round2 := round_2;
  overflow_msg := "int too large to convert to float"
|}.

End Binary64.

(** [strptime] with the format ['%Y-%m-%d'] on ASCII strings: four digits,
    a month [1[0-2]|0[1-9]|[1-9]], a day [3[01]|[12]\d|0[1-9]|[1-9]| [1-9]],
    nothing after it, and a date of the calendar from year 1 on. *)
Module AsciiStrptime.

Definition digit (c : ascii) : option Z :=
  let n := Z.of_N (N_of_ascii c) in
  if (48 <=? n) && (n <=? 57) then Some (n - 48) else None.

Definition four_digits (l : list ascii) : option (Z * list ascii) :=
  match l with
  | a :: b :: c :: d :: rest =>
      a ← digit a; b ← digit b; c ← digit c; d ← digit d;
      Some (1000 * a + 100 * b + 10 * c + d, rest)
  | _ => None
  end.

Definition one_digit (l : list ascii) : option (Z * list ascii) :=
  match l with
  | a :: rest => a ← digit a; if 1 <=? a then Some (a, rest) else None
  | [] => None
  end.

Definition month_of (l : list ascii) : option (Z * list ascii) :=
  match l with
  | a :: b :: rest =>
      match digit a, digit b with
      | Some 1, Some b => if b <=? 2 then Some (10 + b, rest) else one_digit l
      | Some 0, Some b => if 1 <=? b then Some (b, rest) else None
      | _, _ => one_digit l
      end
  | _ => one_digit l
  end.

Definition day_of (l : list ascii) : option (Z * list ascii) :=
  match l with
  | a :: b :: rest =>
      match digit a, digit b with
      | Some 3, Some b => if b <=? 1 then Some (30 + b, rest) else one_digit l
      | Some 0, Some b => if 1 <=? b then Some (b, rest) else None
      | Some a, Some b => if a <=? 2 then Some (10 * a + b, rest) else one_digit l
      | None, Some b =>
          if bool_decide (a = " "%char) && (1 <=? b) then Some (b, rest) else None
      | _, None => one_digit l
      end
  | _ => one_digit l
  end.

Definition dash (l : list ascii) : option (list ascii) :=
  match l with
  | c :: rest => if bool_decide (c = "-"%char) then Some rest else None
  | [] => None
  end.

Definition is_leap (y : Z) : bool :=
  (y mod 4 =? 0) && (negb (y mod 100 =? 0) || (y mod 400 =? 0)).

Definition days_in_month (y m : Z) : Z :=
  if m =? 2 then (if is_leap y then 29 else 28)
  else if (m =? 4) || (m =? 6) || (m =? 9) || (m =? 11) then 30
  else 31.

Definition parse (s : string) : option date :=
  '(y, l) ← four_digits (String.list_ascii_of_string s);
  l ← dash l;
  '(m, l) ← month_of l;
  l ← dash l;
  '(d, l) ← day_of l;
  match l with
  | [] => if (1 <=? y) && (d <=? days_in_month y m)
          then Some (Date y m d) else None
  | _ => None
  end.

#[export] Instance py_strptime : PyStrptime :=
  {| strptime_ymd := parse; strptime_empty := eq_refl |}.

End AsciiStrptime.

(** ** Tables *)

Section Model.
Context {py_float : PyFloat} {py_strptime : PyStrptime}.

(** Rows are stored under their primary key [id]. *)
Record Store := {
  store_name : string;
  location : option string;
  license_validity : date
}.

Record User := {
  username : string;
  role : string;
  user_store_id : option Z
}.

Record Product := {
  barcode : option string;
  name : string;
  brand : option string;
  category : option string;
  size_ml : Z;
  price : float;
  stock_quantity : Z;
  product_store_id : Z
}.

Record Sale := {
  total_amount : float;
  sale_date : Z;
  sale_store_id : Z
}.

Record SaleItem := {
  sale_id : Z;
  product_id : Z;
  quantity : Z;
  price_at_sale : float
}.

Record DB := {
  stores : gmap Z Store;
  products : gmap Z Product;
  sales : gmap Z Sale;
  sale_items : gmap Z SaleItem
}.

(** The identifier an auto-increment primary key gives the next inserted
    row: one more than the largest identifier of the table. *)
Definition next_id {A} (t : gmap Z A) : Z :=
  1 + foldr (λ kv acc, Z.max kv.1 acc) 0 (map_to_list t).

(** ** The storage engine during one request

    [now] is the clock ([datetime.utcnow], the default of [Sale.sale_date]);
    [select_fault k] is the message of the exception the [k]-th SELECT of the
    request raises, if it raises one; [commit_fault] the same for COMMIT;
    [not_null_msg] is the text of the integrity error for a NULL written to
    a NOT NULL column, [deleted_msg] that of the error for an object whose
    row is gone. *)
Record Env := {
  now : Z;
  select_fault : nat → option string;
  commit_fault : option string;
  not_null_msg : string;
  deleted_msg : string
}.

(** ** The session *)

(** [persisted] is the database as committed; [pending] is the database
    as the open transaction sees it: the rows added to the session and the
    attributes changed on loaded objects. *)
Record Session := { persisted : DB; pending : DB }.

Definition begin (db : DB) : Session := {| persisted := db; pending := db |}.

(** [db.session.rollback()] *)
Definition rollback (s : Session) : Session :=
  {| persisted := persisted s; pending := persisted s |}.

Inductive outcome (A : Type) :=
| Done (a : A)
| Raise (msg : string).
#[global] Arguments Done {A} a.
#[global] Arguments Raise {A} msg.

(** A computation of the [try] block: it reads and changes the session and
    ends normally or with an exception. *)
Definition M (A : Type) : Type := Session → outcome A * Session.

#[global] Instance M_ret : MRet M := λ A a s, (Done a, s).
#[global] Instance M_bind : MBind M := λ A B k m s,
  match m s with
  | (Done a, s') => k a s'
  | (Raise e, s') => (Raise e, s')
  end.

Definition raise {A} (msg : string) : M A := λ s, (Raise msg, s).

Definition get_pending : M DB := λ s, (Done (pending s), s).
Definition set_pending (d : DB) : M unit :=
  λ s, (Done tt, {| persisted := persisted s; pending := d |}).

(** [db.session.commit()] *)
Definition commit (env : Env) : M unit :=
  λ s, match commit_fault env with
       | Some e => (Raise e, s)
       | None => (Done tt, {| persisted := pending s; pending := pending s |})
       end.

(** [try: m except Exception as e: h e] *)
Definition try_except {A} (m : M A) (h : string → M A) : M A :=
  λ s, match m s with
       | (Done a, s') => (Done a, s')
       | (Raise e, s') => h e s'
       end.

Definition do_rollback : M unit := λ s, (Done tt, rollback s).

(** The [k]-th query of the request (the flush of the session that precedes
    it included): [q] evaluated on the rows the transaction sees. *)
Definition select {A} (env : Env) (k : nat) (q : DB → A) : M A :=
  match select_fault env k with
  | Some e => raise e
  | None => d ← get_pending; mret (q d)
  end.

(** Reading an attribute of an object the session has expired, which a
    commit and a rollback do to every object: the row is loaded again, by
    the [k]-th query of the request. *)
Definition refresh {A} (env : Env) (k : nat) (q : DB → option A) : M A :=
  r ← select env k q;
  match r with
  | Some a => mret a
  | None => raise (deleted_msg env)
  end.

(** The rows of a table that satisfy [P], as a query returns them. *)
Definition rows_where {A} (P : Z → A → bool) (t : gmap Z A) : list (Z * A) :=
  filter (λ kv, P kv.1 kv.2 = true) (map_to_list t).

(** What [filter_by(id=pid, store_id=sid).first()] finds among the products.
    A [store_id] of [None] compares with NULL and matches no row. *)
Definition find_product (pid : Z) (sid : option Z) (d : DB) : option Product :=
  match products d !! pid with
  | Some p => if decide (Some (product_store_id p) = sid) then Some p else None
  | None => None
  end.

(** [Product.query.filter_by(id=pid, store_id=sid).first()] *)
Definition query_product (env : Env) (k : nat) (pid : Z) (sid : option Z)
  : M (option Product) :=
  select env k (find_product pid sid).

Definition set_products (d : DB) (t : gmap Z Product) : DB :=
  {| stores := stores d; products := t;
     sales := sales d; sale_items := sale_items d |}.
Definition set_sales (d : DB) (t : gmap Z Sale) : DB :=
  {| stores := stores d; products := products d;
     sales := t; sale_items := sale_items d |}.
Definition set_sale_items (d : DB) (t : gmap Z SaleItem) : DB :=
  {| stores := stores d; products := products d;
     sales := sales d; sale_items := t |}.
Definition set_stores (d : DB) (t : gmap Z Store) : DB :=
  {| stores := t; products := products d;
     sales := sales d; sale_items := sale_items d |}.

Definition with_stock (p : Product) (n : Z) : Product :=
  {| barcode := barcode p; name := name p; brand := brand p;
     category := category p; size_ml := size_ml p; price := price p;
     stock_quantity := n; product_store_id := product_store_id p |}.

Definition with_total (s : Sale) (t : float) : Sale :=
  {| total_amount := t; sale_date := sale_date s;
     sale_store_id := sale_store_id s |}.

Definition with_license (s : Store) (d : date) : Store :=
  {| store_name := store_name s; location := location s;
     license_validity := d |}.

(** ** Requests and responses *)

(** One line [{'id': ..., 'quantity': ...}] of the [items] of a bill. *)
Record BillItem := { item_id : Z; item_quantity : Z }.

(** The fields of the new-product form, converted as [dashboard] converts
    them ([int] for [size_ml] and [stock_quantity], [float] for [price]). *)
Record ProductForm := {
  form_name : string;
  form_brand : string;
  form_category : string;
  form_size_ml : Z;
  form_price : float;
  form_barcode : string;
  form_stock_quantity : Z
}.

(** [Product.to_dict] *)
Record ProductDict := {
  d_id : Z;
  d_barcode : option string;
  d_name : string;
  d_brand : option string;
  d_category : option string;
  d_size_ml : Z;
  d_price : float;
  d_stock_quantity : Z
}.

Definition to_dict (id : Z) (p : Product) : ProductDict :=
  {| d_id := id; d_barcode := barcode p; d_name := name p;
     d_brand := brand p; d_category := category p; d_size_ml := size_ml p;
     d_price := price p; d_stock_quantity := stock_quantity p |}.

Inductive JsonBody :=
| BillOk (new_sale_id : Z)          (* {'success': True, 'sale_id': id} *)
| BillError (error : string)        (* {'success': False, 'error': msg} *)
| ProductList (l : list ProductDict).

Inductive Response :=
| Abort (status : Z)                                        (* abort(status) *)
| Redirect (endpoint : string)                              (* redirect(url_for(endpoint)) *)
| RenderDashboard (rows : list (Z * Product))               (* dashboard.html *)
| RenderSales (rows : list (Z * Sale)) (store : string)     (* sales.html *)
| Json (body : JsonBody) (status : Z).                      (* jsonify(body), status *)

Inductive Method := GET | POST.

(** A request runs a handler on a fresh session over the database; what
    the session did not commit is discarded when the request ends, and an
    exception no handler caught is answered with status 500. *)
Definition run (h : M Response) (db : DB) : Response * DB :=
  match h (begin db) with
  | (Done r, s) => (r, persisted s)
  | (Raise _, s) => (Abort 500, persisted s)
  end.

(** ** [update_license] *)

(** [store.license_validity = new_date] on the store loaded under [sid] *)
Definition set_license (sid : Z) (new_date : date) : M unit :=
  d ← get_pending;
  set_pending (set_stores d (alter (λ st, with_license st new_date) sid (stores d))).

(** [new_validity] is the form field, [None] when the form has none. *)
Definition update_license (env : Env) (current_user : User)
    (store_id : Z) (new_validity : option string) : M Response :=
  if decide (role current_user ≠ "superadmin") then mret (Abort 403) else
  store ← select env 0 (λ d, stores d !! store_id);
  match store with
  | None => mret (Abort 404)
  | Some _ =>
      match new_validity with
      | None | Some "" => mret tt
      | Some new_date_str =>
          match strptime_ymd new_date_str with
          | Some new_date => set_license store_id new_date;; commit env
          | None => mret tt
          end
      end;;
      mret (Redirect "superadmin_dashboard")
  end.

(** ** [dashboard] *)

(** The row [Product(...)] of the new-product form. *)
Definition new_product (form : ProductForm) (sid : Z) : Product :=
  {| barcode := Some (form_barcode form); name := form_name form;
     brand := Some (form_brand form); category := Some (form_category form);
     size_ml := form_size_ml form; price := form_price form;
     stock_quantity := form_stock_quantity form; product_store_id := sid |}.

(** [db.session.add(new_product)]: the row gets the next identifier.  A
    user without a store has no value for the NOT NULL column [store_id]. *)
Definition add_product (env : Env) (form : ProductForm) (sid : option Z) : M unit :=
  match sid with
  | None => raise (not_null_msg env)
  | Some sid =>
      d ← get_pending;
      set_pending (set_products d
        (<[next_id (products d) := new_product form sid]> (products d)))
  end.

Definition name_le (a b : Z * Product) : Prop :=
  String.leb (name a.2) (name b.2) = true.

#[global] Instance name_le_dec : RelDecision name_le :=
  λ a b, decide (String.leb (name a.2) (name b.2) = true).

Definition dashboard (env : Env) (current_user : User)
    (method : Method) (form : ProductForm) : M Response :=
  if decide (role current_user = "superadmin")
  then mret (Redirect "superadmin_dashboard") else
  match method with
  | POST =>
      if decide (role current_user ≠ "store") then mret (Abort 403) else
      add_product env form (user_store_id current_user);;
      commit env;;
      mret (Redirect "dashboard")
  | GET =>
      rows ← select env 0 (λ d,
        rows_where (λ _ p, bool_decide (Some (product_store_id p)
                                         = user_store_id current_user))
                   (products d));
      mret (RenderDashboard (merge_sort name_le rows))
  end.

(** ** [update_stock] *)

(** [product.stock_quantity = n] on the product loaded under [pid] *)
Definition set_stock (pid : Z) (n : Z) : M unit :=
  d ← get_pending;
  set_pending (set_products d (alter (λ p, with_stock p n) pid (products d))).

(** [product_id] and [quantity_to_add] are the form fields [product_id]
    and [add_stock], the latter converted by [int] before the session is
    used. *)
Definition update_stock (env : Env) (current_user : User)
    (product_id : Z) (quantity_to_add : Z) : M Response :=
  if decide (role current_user ≠ "store") then mret (Abort 403) else
  product ← query_product env 0 product_id (user_store_id current_user);
  match product with
  | None => mret (Abort 404)
  | Some product =>
      (if decide (quantity_to_add > 0)
       then set_stock product_id (stock_quantity product + quantity_to_add);;
            commit env
       else mret tt);;
      mret (Redirect "dashboard")
  end.

(** ** [sales] and [get_products] *)

Definition date_desc (a b : Z * Sale) : Prop := sale_date b.2 ≤ sale_date a.2.

#[global] Instance date_desc_dec : RelDecision date_desc :=
  λ a b, decide (sale_date b.2 ≤ sale_date a.2).

(** The handler [sales] ([sales] is also the table of the database).  The
    second query loads [current_user.store] for the name of the store. *)
Definition sales_handler (env : Env) (current_user : User) : M Response :=
  if decide (role current_user ≠ "admin") then mret (Abort 403) else
  all_sales ← select env 0 (λ d,
    rows_where (λ _ s, bool_decide (Some (sale_store_id s)
                                     = user_store_id current_user))
               (sales d));
  store ← select env 1 (λ d, sid ← user_store_id current_user; stores d !! sid);
  match store with
  | None => raise "'NoneType' object has no attribute 'name'"
  | Some st => mret (RenderSales (merge_sort date_desc all_sales) (store_name st))
  end.

Definition get_products (env : Env) (current_user : User) : M Response :=
  if decide (role current_user ≠ "store" ∧ role current_user ≠ "admin")
  then mret (Abort 403) else
  products ← select env 0 (λ d,
    rows_where (λ _ p, bool_decide (Some (product_store_id p)
                                     = user_store_id current_user)
                       && bool_decide (stock_quantity p > 0))
               (products d));
  mret (Json (ProductList (map (λ kv, to_dict kv.1 kv.2) products)) 200).

(** ** [process_bill] *)

(** [new_sale = Sale(total_amount=0, store_id=sid); db.session.add(new_sale)].
    The row is inserted by the flush that precedes the first query of the
    loop, under the next identifier of [sale]; nothing reads the session in
    between, so the row is put in the pending state here.  For a user
    without a store that flush raises: [store_id] is NOT NULL. *)
Definition add_sale (env : Env) (sid : option Z) : M Z :=
  match sid with
  | None => raise (not_null_msg env)
  | Some sid =>
      d ← get_pending;
      let new_sale := next_id (sales d) in
      set_pending (set_sales d
        (<[new_sale := {| total_amount := float_zero; sale_date := now env;
                          sale_store_id := sid |}]> (sales d)));;
      mret new_sale
  end.

(** [db.session.add(sale_item)] *)
Definition add_sale_item (it : SaleItem) : M unit :=
  d ← get_pending;
  set_pending (set_sale_items d (<[next_id (sale_items d) := it]> (sale_items d))).

(** [new_sale.total_amount = t] *)
Definition set_total (new_sale : Z) (t : float) : M unit :=
  d ← get_pending;
  set_pending (set_sales d (alter (λ s, with_total s t) new_sale (sales d))).

(** [price * quantity], a float by an integer *)
Definition mul_quantity (price : float) (quantity : Z) : M float :=
  match float_of_int quantity with
  | Some q => mret (float_mul price q)
  | None => raise overflow_msg
  end.

Definition not_enough_stock (what : string) : Response :=
  Json (BillError ("Not enough stock for " +:+ what)) 400.

(** The body of the loop for the [k]-th line: [inl] is the response the
    handler returns from inside the loop, [inr] the running total.  The
    message of a rejected line is built after the rollback: [product.name]
    is read from the row loaded again. *)
Definition bill_line (env : Env) (sid : option Z) (new_sale : Z)
    (k : nat) (item : BillItem) (total_amount : float) : M (Response + float) :=
  product ← query_product env k (item_id item) sid;
  match product with
  | None =>
      do_rollback;;
      mret (inl (not_enough_stock ("ID " +:+ py_str (item_id item))))
  | Some product =>
      if decide (stock_quantity product < item_quantity item)
      then do_rollback;;
           product_name ← refresh env (S k)
             (λ d, name <$> products d !! item_id item);
           mret (inl (not_enough_stock product_name))
      else
        set_stock (item_id item) (stock_quantity product - item_quantity item);;
        let sale_item := {| sale_id := new_sale; product_id := item_id item;
                            quantity := item_quantity item;
                            price_at_sale := price product |} in
        line_amount ← mul_quantity (price product) (item_quantity item);
        add_sale_item sale_item;;
        mret (inr (float_add total_amount line_amount))
  end.

(** [for item in bill_items: ...], from the [k]-th line on *)
Fixpoint bill_loop (env : Env) (sid : option Z) (new_sale : Z)
    (k : nat) (bill_items : list BillItem) (total_amount : float)
  : M (Response + float) :=
  match bill_items with
  | [] => mret (inr total_amount)
  | item :: rest =>
      r ← bill_line env sid new_sale k item total_amount;
      match r with
      | inl response => mret (inl response)
      | inr total_amount => bill_loop env sid new_sale (S k) rest total_amount
      end
  end.

(** The [try] block.  [new_sale.id] is read after the commit, by the query
    that follows those of the lines. *)
Definition bill_transaction (env : Env) (current_user : User)
    (bill_items : list BillItem) : M Response :=
  new_sale ← add_sale env (user_store_id current_user);
  r ← bill_loop env (user_store_id current_user) new_sale 0 bill_items float_zero;
  match r with
  | inl response => mret response
  | inr total_amount =>
      set_total new_sale (round2 total_amount);;
      commit env;;
      new_sale_id ← refresh env (length bill_items)
        (λ d, (λ _, new_sale) <$> sales d !! new_sale);
      mret (Json (BillOk new_sale_id) 200)
  end.

(** [bill_items] is [data.get('items', [])]. *)
Definition process_bill (env : Env) (current_user : User)
    (bill_items : list BillItem) : M Response :=
  if decide (role current_user ≠ "store") then mret (Abort 403) else
  match bill_items with
  | [] => mret (Json (BillError "Empty bill") 400)
  | _ =>
      try_except (bill_transaction env current_user bill_items)
        (λ e, do_rollback;; mret (Json (BillError e) 500))
  end.

(** ** The vocabulary of the properties *)

(** The quantity the lines of [items] request of product [pid], all
    lines that name it together. *)
Fixpoint requested (pid : Z) (items : list BillItem) : Z :=
  match items with
  | [] => 0
  | item :: rest =>
      (if decide (item_id item = pid) then item_quantity item else 0)
      + requested pid rest
  end.

(** The preconditions of one line, after the lines [earlier] of the same
    bill: its product is a product of store [sid], and its quantity is at
    most the stock the earlier lines have left. *)
Definition line_accepted (d : DB) (sid : Z) (earlier : list BillItem)
    (item : BillItem) : Prop :=
  ∃ p, products d !! item_id item = Some p ∧ product_store_id p = sid ∧
       item_quantity item ≤ stock_quantity p - requested (item_id item) earlier.

(** All lines satisfy the preconditions. *)
Definition bill_ok (d : DB) (sid : Z) (items : list BillItem) : Prop :=
  ∀ (k : nat) item, items !! k = Some item → line_accepted d sid (take k items) item.

(** No line has a quantity too large for a float. *)
Definition convertible (items : list BillItem) : Prop :=
  ∀ item, item ∈ items → is_Some (float_of_int (item_quantity item)).

(** The first [n] queries of the request do not fail. *)
Definition selects_ok (env : Env) (n : nat) : Prop :=
  ∀ k : nat, (k < n)%nat → select_fault env k = None.

(** The SaleItem of a line: the quantity asked and the price the product
    has in [d]. *)
Definition sale_item_of (d : DB) (new_sale : Z) (item : BillItem)
    (si : SaleItem) : Prop :=
  ∃ p, products d !! item_id item = Some p ∧
       si = {| sale_id := new_sale; product_id := item_id item;
               quantity := item_quantity item; price_at_sale := price p |}.

(** [acc] plus the sum of [price_at_sale * quantity] over sale items,
    added from the left. *)
Fixpoint sum_lines (acc : float) (l : list SaleItem) : option float :=
  match l with
  | [] => Some acc
  | si :: l =>
      q ← float_of_int (quantity si);
      sum_lines (float_add acc (float_mul (price_at_sale si) q)) l
  end.

(** The stock of product [pid] set to [n] in [d]. *)
Definition stock_set (pid n : Z) (d : DB) : DB :=
  set_products d (alter (λ p, with_stock p n) pid (products d)).

(** What the transaction sees after an accepted line on product [p]: the
    stock of [p] less the quantity, and the SaleItem of the line. *)
Definition line_effect (new_sale : Z) (item : BillItem) (p : Product) (d : DB) : DB :=
  let d1 := stock_set (item_id item) (stock_quantity p - item_quantity item) d in
  set_sale_items d1
    (<[next_id (sale_items d1) :=
         {| sale_id := new_sale; product_id := item_id item;
            quantity := item_quantity item; price_at_sale := price p |}]>
       (sale_items d1)).

(** What the message of a rejected line names: the product, or the
    identifier when no product of the store has it. *)
Definition rejected_what (d : DB) (sid : Z) (item : BillItem) : string :=
  match find_product (item_id item) (Some sid) d with
  | Some p => name p
  | None => "ID " +:+ py_str (item_id item)
  end.

(** The products the transaction sees have the names of the rows as
    persisted. *)
Definition names_kept (s : Session) : Prop :=
  ∀ pid p, products (pending s) !! pid = Some p →
           name <$> products (persisted s) !! pid = Some (name p).

(** The stock of every product is lowered by what [items] request of it. *)
Definition stock_lowered (items : list BillItem) (t t' : gmap Z Product) : Prop :=
  ∀ pid, t' !! pid =
         (λ p, with_stock p (stock_quantity p - requested pid items)) <$> t !! pid.

(** The stock of all products together, and the quantity all lines of a
    bill request together. *)
Definition total_stock (t : gmap Z Product) : Z :=
  map_fold (λ _ p acc, stock_quantity p + acc) 0 t.

Definition total_requested (items : list BillItem) : Z :=
  foldr (λ item acc, item_quantity item + acc) 0 items.

(** The rows [sis] are appended to a table, in order, under the next
    identifiers, and nothing else changes. *)
Definition rows_appended {A} (sis : list A) (t t' : gmap Z A) : Prop :=
  (∀ (i : nat) si, sis !! i = Some si → t' !! (next_id t + Z.of_nat i) = Some si) ∧
  (∀ j, ¬ (next_id t ≤ j < next_id t + Z.of_nat (length sis)) → t' !! j = t !! j).

(** The bill [items] of store [sid] is recorded in [db'] as sale
    [new_sale]: the stock is lowered, one new Sale holds the rounded total
    of the new SaleItems, one per line. *)
Definition bill_applied (env : Env) (sid : Z) (items : list BillItem)
    (db db' : DB) (new_sale : Z) : Prop :=
  stores db' = stores db ∧
  stock_lowered items (products db) (products db') ∧
  total_stock (products db) - total_stock (products db') = total_requested items ∧
  sales db !! new_sale = None ∧
  ∃ sis total,
    Forall2 (sale_item_of db new_sale) items sis ∧
    sum_lines float_zero sis = Some total ∧
    sales db' = <[new_sale := {| total_amount := round2 total;
                                 sale_date := now env;
                                 sale_store_id := sid |}]> (sales db) ∧
    rows_appended sis (sale_items db) (sale_items db').

Definition is_success (r : Response) : Prop := ∃ id, r = Json (BillOk id) 200.

(** The failures of [process_bill] *)
Definition is_failure (r : Response) : Prop :=
  r = Abort 403 ∨ ∃ e, r = Json (BillError e) 400 ∨ r = Json (BillError e) 500.

(** Every product has a stock of at least 0. *)
Definition stock_nonneg (db : DB) : Prop :=
  ∀ pid p, products db !! pid = Some p → 0 ≤ stock_quantity p.

(** [db] and [db'] have the same rows of store [b]: its products, its
    sales and their items, and the store itself. *)
Definition same_rows_of (b : Z) (db db' : DB) : Prop :=
  stores db' !! b = stores db !! b ∧
  (∀ id p, product_store_id p = b →
     products db' !! id = Some p ↔ products db !! id = Some p) ∧
  (∀ id s, sale_store_id s = b →
     sales db' !! id = Some s ↔ sales db !! id = Some s) ∧
  (∀ id si s, sale_store_id s = b →
     (sale_items db' !! id = Some si ∧ sales db' !! sale_id si = Some s) ↔
     (sale_items db !! id = Some si ∧ sales db !! sale_id si = Some s)).

End Model.

(** ** A database to run the handlers on *)

Module Example.
Import Binary64 AsciiStrptime.

(** An engine on which no statement fails *)
Definition env0 : Env :=
  {| now := 1700000000; select_fault := λ _, None; commit_fault := None;
     not_null_msg := "NOT NULL constraint failed";
     deleted_msg := "Instance has been deleted, or its row is otherwise not present." |}.

(** An engine that fails the second query of a request *)
Definition env_lost : Env :=
  {| now := 1700000000;
     select_fault := λ k, if decide (k = 1%nat) then Some "Lost connection" else None;
     commit_fault := None;
     not_null_msg := "NOT NULL constraint failed";
     deleted_msg := "Instance has been deleted, or its row is otherwise not present." |}.

Definition clerk : User :=
  {| username := "clerk"; role := "store"; user_store_id := Some 1 |}.

Definition manager : User :=
  {| username := "manager"; role := "admin"; user_store_id := Some 1 |}.

Definition root : User :=
  {| username := "root"; role := "superadmin"; user_store_id := None |}.

(** Store 1 sells whisky at 10.00 and has 5 in stock. *)
Definition whisky : Product :=
  {| barcode := None; name := "Whisky"; brand := None; category := None;
     size_ml := 750; price := lit 10 0; stock_quantity := 5;
     product_store_id := 1 |}.

(** A product of store 2 *)
Definition rum : Product :=
  {| barcode := None; name := "Rum"; brand := None; category := None;
     size_ml := 750; price := lit 8 0; stock_quantity := 4;
     product_store_id := 2 |}.

(** A product of store 1 that is sold out and is called like an
    identifier. *)
Definition decoy : Product :=
  {| barcode := None; name := "ID 7"; brand := None; category := None;
     size_ml := 180; price := lit 3 0; stock_quantity := 0;
     product_store_id := 1 |}.

Definition shop (n : string) : Store :=
  {| store_name := n; location := None; license_validity := Date 2030 1 1 |}.

Definition db0 : DB :=
  {| stores := {[ 1 := shop "North"; 2 := shop "South" ]};
     products := {[ 1 := whisky; 2 := rum; 3 := decoy ]};
     sales := ∅; sale_items := ∅ |}.

Definition line (id q : Z) : BillItem := {| item_id := id; item_quantity := q |}.

Definition form0 (stock : Z) : ProductForm :=
  {| form_name := "Gin"; form_brand := "Juniper"; form_category := "Spirits";
     form_size_ml := 700; form_price := lit 12 0; form_barcode := "4006381333931";
     form_stock_quantity := stock |}.

End Example.


(** * More of the Python runtime *)

(** [werkzeug.security]: [generate_password_hash] draws a salt, here its
    first argument; a hash it made checks against the password it was made
    from. *)
Class Werkzeug := {
  generate_password_hash : string → string → string;
  check_password_hash : string → string → bool;
  check_generate salt password :
    check_password_hash (generate_password_hash salt password) password = true
}.

(** [int(s)] on a string, [None] being the [ValueError] it raises;
    [int(str(n))] is [n]. *)
Class PyInt := {
  py_int : string → option Z;
  py_int_str n : py_int (py_str n) = Some n
}.

(** A hash that keeps the password in the clear, after the salt. *)
Module ClearHash.

Definition generate (salt password : string) : string :=
  "clear$" +:+ password.

Definition check (pwhash password : string) : bool :=
  bool_decide (pwhash = "clear$" +:+ password).

#[export] Instance werkzeug : Werkzeug :=
  {| generate_password_hash := generate; check_password_hash := check;
     check_generate := λ _ password, bool_decide_eq_true_2 _ eq_refl |}.

End ClearHash.

(** [int] on the decimal strings [str] writes: digits, after a [-] for a
    negative number. *)
Module DecimalInt.

Definition decimal_digit (c : ascii) : option N :=
  let n := N_of_ascii c in
  if (48 <=? n)%N && (n <=? 57)%N then Some (n - 48)%N else None.

Fixpoint digits (s : string) (acc : N) : option N :=
  match s with
  | EmptyString => Some acc
  | String c s => d ← decimal_digit c; digits s (acc * 10 + d)%N
  end.

Definition natural (s : string) : option N :=
  match s with
  | EmptyString => None
  | _ => digits s 0
  end.

Definition parse_int (s : string) : option Z :=
  match s with
  | String "-" s => (λ n, - Z.of_N n) <$> natural s
  | _ => Z.of_N <$> natural s
  end.

Lemma decimal_digit_char x : (x < 10)%N → decimal_digit (pretty_N_char x) = Some x.
Proof.
  intros Hx.
  assert (x = 0 ∨ x = 1 ∨ x = 2 ∨ x = 3 ∨ x = 4 ∨ x = 5 ∨ x = 6
          ∨ x = 7 ∨ x = 8 ∨ x = 9)%N as Hcases by lia.
  repeat (destruct Hcases as [->|Hcases]; [reflexivity|]). by subst.
Qed.

Lemma digits_go x : ∀ s acc,
  ∃ k : N, digits (pretty_N_go x s) acc = digits s (acc * 10 ^ k + x)%N.
Proof.
  induction (N.lt_wf_0 x) as [x _ IH]; intros s acc.
  assert (x = 0 ∨ 0 < x)%N as [->|Hx] by lia.
  - exists 0%N. rewrite pretty_N_go_0. f_equal. lia.
  - rewrite pretty_N_go_step by done.
    destruct (IH (x `div` 10)%N (N.div_lt x 10 Hx eq_refl)
                (String (pretty_N_char (x `mod` 10)) s) acc) as [k ->].
    exists (k + 1)%N. simpl.
    rewrite decimal_digit_char by (by apply N.mod_lt). simpl. f_equal.
    rewrite N.pow_add_r, N.pow_1_r.
    pose proof (N.div_mod x 10). lia.
Qed.

Lemma go_not_empty x c s : pretty_N_go x (String c s) ≠ EmptyString.
Proof.
  revert c s. induction (N.lt_wf_0 x) as [x _ IH]; intros c s.
  assert (x = 0 ∨ 0 < x)%N as [->|Hx] by lia.
  - by rewrite pretty_N_go_0.
  - rewrite pretty_N_go_step by done. apply IH. by apply N.div_lt.
Qed.

Lemma natural_pretty p : natural (pretty_N_go (N.pos p) "") = Some (N.pos p).
Proof.
  unfold natural.
  destruct (pretty_N_go (N.pos p) "") eqn:Hs.
  - rewrite pretty_N_go_step in Hs by done. by apply go_not_empty in Hs.
  - rewrite <- Hs. destruct (digits_go (N.pos p) "" 0%N) as [k ->]. done.
Qed.

Lemma parse_str n : parse_int (py_str n) = Some n.
Proof.
  destruct n as [|p|p]; [done|..]; unfold py_str, pretty, pretty_Z; simpl.
  - unfold pretty, pretty_positive, pretty, pretty_N.
    rewrite decide_False by done.
    pose proof (natural_pretty p) as Hnat.
    unfold parse_int.
    destruct (pretty_N_go (N.pos p) "") as [|c s] eqn:Hs; [done|].
    destruct (decide (c = "-"%char)) as [->|Hc].
    + by destruct (pretty_N_go_ne_dash (N.pos p) "" s).
    + by repeat case_match; simplify_eq; rewrite ?Hnat.
  - unfold pretty, pretty_positive, pretty, pretty_N.
    rewrite decide_False by done. cbn [String.append parse_int].
    change ("" +:+ pretty_N_go (N.pos p) "") with (pretty_N_go (N.pos p) "").
    by rewrite natural_pretty.
Qed.

#[export] Instance py_int : PyInt := {| py_int := parse_int; py_int_str := parse_str |}.

End DecimalInt.
(** * The rest of the application: sign-in, pages, commands *)

Section Application.
Context {py_float : PyFloat} {py_strptime : PyStrptime}
        {werkzeug : Werkzeug} {py_integer : PyInt}.

(** ** Users and the client *)

(** A row of the table [user]: what the handlers read of the current
    user, and the hash of the password. *)
Record Account := { account_user : User; password_hash : string }.

(** The database with the table [user], and the [_user_id] of the session
    of the client, which Flask-Login sets when a user signs in. *)
Record App := {
  database : DB;
  users : gmap Z Account;
  session_user_id : option string
}.

Definition with_database (app : App) (d : DB) : App :=
  {| database := d; users := users app; session_user_id := session_user_id app |}.
Definition with_users (app : App) (t : gmap Z Account) : App :=
  {| database := database app; users := t; session_user_id := session_user_id app |}.

(** The machine the application runs on: the storage engine for the
    handlers above; [load_fault] and [lookup_fault], the exception of the
    query of [load_user] and of the query of [login], if they raise one;
    the date of the day; the salt of the next password hash; the text of
    the [ValueError] of [strptime] on a string and of the integrity error of
    a unique column. *)
Record Host := {
  host_env : Env;
  load_fault : option string;
  lookup_fault : option string;
  today : date;
  salt : string;
  value_error : string → string;
  unique_msg : string
}.

(** [User.query.filter_by(username=uname).first()] *)
Definition find_user (uname : string) (t : gmap Z Account) : option (Z * Account) :=
  head (rows_where (λ _ a, bool_decide (username (account_user a) = uname)) t).

(** [load_user(user_id)]: [User.query.get(int(user_id))] *)
Definition load_user (host : Host) (t : gmap Z Account) (user_id : string)
  : outcome (option (Z * Account)) :=
  match py_int user_id with
  | None => Raise "invalid literal for int() with base 10"
  | Some id =>
      match load_fault host with
      | Some e => Raise e
      | None => Done ((λ a, (id, a)) <$> t !! id)
      end
  end.

(** [current_user]: the user [load_user] finds for the [_user_id] of the
    session, the anonymous user ([None]) without one. *)
Definition current_user (host : Host) (app : App) : outcome (option (Z * Account)) :=
  match session_user_id app with
  | None => Done None
  | Some user_id => load_user host (users app) user_id
  end.

(** [login_user(user)] keeps [str(user.id)] in the session. *)
Definition login_user (id : Z) (app : App) : App :=
  {| database := database app; users := users app;
     session_user_id := Some (py_str id) |}.

(** [logout_user()] *)
Definition logout_user (app : App) : App :=
  {| database := database app; users := users app; session_user_id := None |}.

(** ** Pages *)

Definition date_le (a b : date) : Prop :=
  year a < year b ∨
  (year a = year b ∧ (month a < month b ∨ (month a = month b ∧ day a ≤ day b))).

#[global] Instance date_le_dec : RelDecision date_le.
Proof. intros a b. unfold date_le. apply _. Defined.

Definition license_order (a b : Z * Store) : Prop :=
  date_le (license_validity a.2) (license_validity b.2).

#[global] Instance license_order_dec : RelDecision license_order :=
  λ a b, decide (date_le (license_validity a.2) (license_validity b.2)).

Inductive Page :=
| Answer (r : Response)                                    (* a response of the handlers above *)
| LoginPage (error : option string)                        (* login.html *)
| BillingPage                                              (* billing.html *)
| SuperadminPage (rows : list (Z * Store)) (day : date).   (* superadmin_dashboard.html *)

(** A handler that answers a page, run as [run] runs the others. *)
Definition run_page (h : M Page) (db : DB) : Page * DB :=
  match h (begin db) with
  | (Done p, s) => (p, persisted s)
  | (Raise _, s) => (Answer (Abort 500), persisted s)
  end.

Definition answer (h : M Response) : M Page := r ← h; mret (Answer r).

(** [superadmin_dashboard] *)
Definition superadmin_dashboard (host : Host) (current_user : User) : M Page :=
  if decide (role current_user ≠ "superadmin") then mret (Answer (Abort 403)) else
  all_stores ← select (host_env host) 0
    (λ d, merge_sort license_order (map_to_list (stores d)));
  mret (SuperadminPage all_stores (today host)).

(** [billing] *)
Definition billing (current_user : User) : M Page :=
  if decide (role current_user ≠ "store") then mret (Answer (Abort 403))
  else mret BillingPage.

(** ** Signing in and out *)

(** Where [login] sends a user of role [r]. *)
Definition landing (r : string) : Response :=
  if decide (r = "superadmin") then Redirect "superadmin_dashboard"
  else if decide (r = "admin") then Redirect "sales"
  else Redirect "billing".

(** [login]: [uname] and [password] are the fields of the form. *)
Definition login (host : Host) (method : Method) (uname password : string)
    (app : App) : Page * App :=
  match current_user host app with
  | Raise _ => (Answer (Abort 500), app)
  | Done (Some (_, a)) => (Answer (landing (role (account_user a))), app)
  | Done None =>
      match method with
      | POST =>
          match lookup_fault host with
          | Some _ => (Answer (Abort 500), app)
          | None =>
              match find_user uname (users app) with
              | Some (id, a) =>
                  if check_password_hash (password_hash a) password
                  then (Answer (landing (role (account_user a))), login_user id app)
                  else (LoginPage (Some "Invalid username or password."), app)
              | None => (LoginPage (Some "Invalid username or password."), app)
              end
          end
      | GET => (LoginPage None, app)
      end
  end.

(** [@login_required]: the view runs for a user who is signed in; the
    anonymous user is sent to [login_manager.login_view]. *)
Definition login_required (host : Host) (app : App)
    (view : User → Page * App) : Page * App :=
  match current_user host app with
  | Raise _ => (Answer (Abort 500), app)
  | Done None => (Answer (Redirect "login"), app)
  | Done (Some (_, a)) => view (account_user a)
  end.

(** [logout] *)
Definition logout (app : App) : Page * App :=
  (Answer (Redirect "login"), logout_user app).

(** ** The routes *)

Inductive Request :=
| Login (method : Method) (uname password : string)          (* /login *)
| Logout                                                     (* /logout *)
| SuperadminDashboard                                        (* /superadmin *)
| UpdateLicense (store_id : Z) (new_validity : option string)
| Dashboard (method : Method) (form : ProductForm)           (* /dashboard *)
| UpdateStock (product_id quantity_to_add : Z)               (* /update_stock *)
| Billing                                                    (* /billing *)
| Sales                                                      (* /sales *)
| GetProducts                                                (* /api/products *)
| ProcessBill (bill_items : list BillItem).                  (* /api/process_bill *)

(** A view on the database: the page, and the database it leaves. *)
Definition on_database (app : App) (h : M Page) : Page * App :=
  let r := run_page h (database app) in (r.1, with_database app r.2).

(** One request of the client: the route and its view.  All views but
    [login] require a login. *)
Definition serve (host : Host) (req : Request) (app : App) : Page * App :=
  let env := host_env host in
  let required (h : User → M Page) :=
    login_required host app (λ u, on_database app (h u)) in
  match req with
  | Login method uname password => login host method uname password app
  | Logout => login_required host app (λ _, logout app)
  | SuperadminDashboard => required (superadmin_dashboard host)
  | UpdateLicense store_id new_validity =>
      required (λ u, answer (update_license env u store_id new_validity))
  | Dashboard method form => required (λ u, answer (dashboard env u method form))
  | UpdateStock product_id quantity_to_add =>
      required (λ u, answer (update_stock env u product_id quantity_to_add))
  | Billing => required billing
  | Sales => required (λ u, answer (sales_handler env u))
  | GetProducts => required (λ u, answer (get_products env u))
  | ProcessBill bill_items => required (λ u, answer (process_bill env u bill_items))
  end.

(** The request a client makes when it follows a redirect of [login]. *)
Definition follow (endpoint : string) : option Request :=
  if decide (endpoint = "superadmin_dashboard") then Some SuperadminDashboard
  else if decide (endpoint = "sales") then Some Sales
  else if decide (endpoint = "billing") then Some Billing
  else None.

(** ** Commands *)

(** What a command leaves on the terminal: the line it prints, or the
    traceback of an exception nothing caught. *)
Inductive Printed :=
| Print (line : string)
| Traceback (e : string).

Definition run_command (h : M string) (db : DB) : Printed * DB :=
  match h (begin db) with
  | (Done line, s) => (Print line, persisted s)
  | (Raise e, s) => (Traceback e, persisted s)
  end.

(** The store of the table that has the name, if there is one. *)
Definition store_named (n : string) (t : gmap Z Store) : option (Z * Store) :=
  head (rows_where (λ _ st, bool_decide (store_name st = n)) t).

(** [db.session.add(new_store)] *)
Definition add_store (st : Store) : M Z :=
  d ← get_pending;
  let id := next_id (stores d) in
  set_pending (set_stores d (<[id := st]> (stores d)));;
  mret id.

(** [create_store].  [Store.name] is unique: the INSERT of the commit
    raises when the table has a store of that name.  [new_store.id] is read
    after the commit. *)
Definition create_store (host : Host) (name_ location_ validity : string) : M string :=
  try_except
    (match strptime_ymd validity with
     | None => raise (value_error host validity)
     | Some validity_date =>
         d ← get_pending;
         let taken := store_named name_ (stores d) in
         new_store ← add_store {| store_name := name_; location := Some location_;
                                  license_validity := validity_date |};
         match taken with
         | Some _ => raise (unique_msg host)
         | None =>
             commit (host_env host);;
             id ← refresh (host_env host) 0 (λ d, (λ _, new_store) <$> stores d !! new_store);
             mret ("✅ Store '" +:+ name_ +:+ "' created with ID: " +:+ py_str id)
         end
     end)
    (λ e, mret ("❌ Error creating store: " +:+ e)).

(** [create_user]: [store_id] is the integer argument, 0 when there is
    none.  [User.username] is unique, and no handler catches the error of
    the commit. *)
Definition create_user (host : Host) (uname password role_ : string) (store_id : Z)
    (t : gmap Z Account) : Printed * gmap Z Account :=
  if decide (role_ ≠ "superadmin" ∧ role_ ≠ "admin" ∧ role_ ≠ "store")
  then (Print "❌ Error: Role must be 'superadmin', 'admin', or 'store'.", t) else
  let user_store_id := if decide (store_id ≠ 0) then Some store_id else None in
  if decide ((role_ = "admin" ∨ role_ = "store") ∧ user_store_id = None)
  then (Print "❌ Error: A store_id must be provided for admin and store roles.", t) else
  if decide (role_ = "superadmin" ∧ user_store_id ≠ None)
  then (Print "❌ Error: Superadmin cannot be assigned to a store.", t) else
  let new_user :=
    {| account_user := {| username := uname; role := role_;
                          user_store_id := user_store_id |};
       password_hash := generate_password_hash (salt host) password |} in
  match find_user uname t with
  | Some _ => (Traceback (unique_msg host), t)
  | None =>
      match commit_fault (host_env host) with
      | Some e => (Traceback e, t)
      | None =>
          (Print ("✅ User '" +:+ uname +:+ "' with role '" +:+ role_
                  +:+ "' created successfully."),
           <[next_id t := new_user]> t)
      end
  end.

(** A command of the command line, on the application. *)
Inductive Command :=
| CreateStore (name_ location_ validity : string)
| CreateUser (uname password role_ : string) (store_id : Z).

Definition execute (host : Host) (c : Command) (app : App) : Printed * App :=
  match c with
  | CreateStore name_ location_ validity =>
      let r := run_command (create_store host name_ location_ validity) (database app) in
      (r.1, with_database app r.2)
  | CreateUser uname password role_ store_id =>
      let r := create_user host uname password role_ store_id (users app) in
      (r.1, with_users app r.2)
  end.

(** ** Runs *)

(** What happens to the application: a request of a client, or a command
    of the operator, each on the machine as it is at that time. *)
Inductive Event :=
| Web (req : Request)
| Cli (c : Command).

Definition step (he : Host * Event) (app : App) : App :=
  match he.2 with
  | Web req => (serve he.1 req app).2
  | Cli c => (execute he.1 c app).2
  end.

Definition steps (l : list (Host * Event)) (app : App) : App :=
  foldl (λ a he, step he a) app l.

(** ** The vocabulary of the further properties *)

(** What one request of user [u] does to the database: nothing; or it
    adds to the stock of a product of the store of [u]; or it adds a product
    to that store; or it sets the licence date of a store; or it records a
    bill of that store. *)
Inductive effect (u : User) (db db' : DB) : Prop :=
| effect_none :
    db' = db → effect u db db'
| effect_stock pid p n :
    role u = "store" → user_store_id u = Some (product_store_id p) →
    products db !! pid = Some p → 0 < n →
    db' = set_products db (<[pid := with_stock p (stock_quantity p + n)]> (products db)) →
    effect u db db'
| effect_product form sid :
    role u = "store" → user_store_id u = Some sid →
    db' = set_products db
            (<[next_id (products db) := new_product form sid]> (products db)) →
    effect u db db'
| effect_license sid st new_date :
    role u = "superadmin" → stores db !! sid = Some st →
    db' = set_stores db (<[sid := with_license st new_date]> (stores db)) →
    effect u db db'
| effect_bill env sid items new_sale :
    role u = "store" → user_store_id u = Some sid → items ≠ [] →
    bill_ok db sid items → bill_applied env sid items db db' new_sale →
    effect u db db'.

(** [p'] is [p] but for the stock. *)
Definition same_but_stock (p p' : Product) : Prop :=
  p' = with_stock p (stock_quantity p').

(** Every product is still there, the same but for the stock. *)
Definition catalog_kept (db db' : DB) : Prop :=
  ∀ id p, products db !! id = Some p →
          ∃ p', products db' !! id = Some p' ∧ same_but_stock p p'.

(** Every Sale and every SaleItem is still there, as it was. *)
Definition ledger_kept (db db' : DB) : Prop :=
  (∀ id s, sales db !! id = Some s → sales db' !! id = Some s) ∧
  (∀ id si, sale_items db !! id = Some si → sale_items db' !! id = Some si).

(** The same stores, with their names and locations. *)
Definition stores_kept (db db' : DB) : Prop :=
  ∀ id, (λ st, (store_name st, location st)) <$> stores db' !! id
        = (λ st, (store_name st, location st)) <$> stores db !! id.

(** Every store is still there, with its name and location. *)
Definition stores_grow (db db' : DB) : Prop :=
  ∀ id st, stores db !! id = Some st →
    ∃ st', stores db' !! id = Some st' ∧
           store_name st' = store_name st ∧ location st' = location st.

(** Nothing is deleted: every row of [db] is in [db'], changed at most in
    the stock of a product and the licence date of a store. *)
Definition nothing_lost (db db' : DB) : Prop :=
  catalog_kept db db' ∧ ledger_kept db db' ∧ stores_grow db db'.

(** The session and the application with the stores [t] in the place of
    their stores. *)
Definition session_with_stores (s : Session) (t : gmap Z Store) : Session :=
  {| persisted := set_stores (persisted s) t; pending := set_stores (pending s) t |}.

Definition with_stores (app : App) (t : gmap Z Store) : App :=
  with_database app (set_stores (database app) t).

(** Every SaleItem belongs to a Sale and names a Product of the store of
    that Sale, at the price of the product. *)
Definition ledger_wf (db : DB) : Prop :=
  ∀ id si, sale_items db !! id = Some si →
    ∃ s p, sales db !! sale_id si = Some s ∧
           products db !! product_id si = Some p ∧
           product_store_id p = sale_store_id s ∧
           price_at_sale si = price p.

(** Every Sale has a SaleItem. *)
Definition sales_have_items (db : DB) : Prop :=
  ∀ id s, sales db !! id = Some s →
    ∃ j si, sale_items db !! j = Some si ∧ sale_id si = id.

(** The quantity of product [pid] the sale items have sold. *)
Definition sold (pid : Z) (t : gmap Z SaleItem) : Z :=
  map_fold (λ _ si acc, (if decide (product_id si = pid) then quantity si else 0) + acc) 0 t.

(** The roles and the stores of the users: a role of the three, and a
    store for all but the superadmin. *)
Definition accounts_wf (t : gmap Z Account) : Prop :=
  ∀ id a, t !! id = Some a →
    (role (account_user a) = "superadmin" ∧ user_store_id (account_user a) = None) ∨
    ((role (account_user a) = "admin" ∨ role (account_user a) = "store") ∧
     ∃ sid, user_store_id (account_user a) = Some sid ∧ sid ≠ 0).

Definition usernames_unique (t : gmap Z Account) : Prop :=
  ∀ i j a b, t !! i = Some a → t !! j = Some b →
             username (account_user a) = username (account_user b) → i = j.

Definition store_names_unique (t : gmap Z Store) : Prop :=
  ∀ i j a b, t !! i = Some a → t !! j = Some b → store_name a = store_name b → i = j.

End Application.

(** ** An application to run the requests on *)

Module ExampleApp.
Import Binary64 AsciiStrptime ClearHash DecimalInt Example.

Definition host0 : Host :=
  {| host_env := env0; load_fault := None; lookup_fault := None;
     today := Date 2026 11 3; salt := "pepper";
     value_error := λ s, "time data does not match format: " +:+ s;
     unique_msg := "UNIQUE constraint failed" |}.

Definition acct (u : User) (password : string) : Account :=
  {| account_user := u; password_hash := generate_password_hash "pepper" password |}.

(** The users of the example: [clerk] and [manager] of store 1, [root]. *)
Definition app0 : App :=
  {| database := db0;
     users := {[ 1 := acct clerk "till"; 2 := acct manager "ledger"; 3 := acct root "toor" ]};
     session_user_id := None |}.

End ExampleApp.

(** * Properties *)

Section Properties.
Context {py_float : PyFloat} {py_strptime : PyStrptime}.

Section NextId.
Context {A : Type}.
Implicit Types t : gmap Z A.

Lemma max_key_perm (l1 l2 : list (Z * A)) :
  l1 ≡ₚ l2 →
  foldr (λ kv acc, Z.max kv.1 acc) 0 l1 = foldr (λ kv acc, Z.max kv.1 acc) 0 l2.
Proof.
  induction 1; simpl; try congruence; lia.
Qed.

Lemma max_key_above (l : list (Z * A)) kv :
  kv ∈ l → kv.1 ≤ foldr (λ kv acc, Z.max kv.1 acc) 0 l.
Proof.
  induction 1; simpl; lia.
Qed.

Lemma next_id_above t k : is_Some (t !! k) → k < next_id t.
Proof.
  intros [x Hx]. apply elem_of_map_to_list in Hx.
  apply max_key_above in Hx. unfold next_id. simpl in Hx. lia.
Qed.

Lemma next_id_fresh t : t !! next_id t = None.
Proof.
  destruct (t !! next_id t) eqn:E; [|done].
  assert (next_id t < next_id t) by (apply next_id_above; eauto). lia.
Qed.

Lemma next_id_pos t : 0 < next_id t.
Proof. unfold next_id. generalize (map_to_list t). induction l; simpl; lia. Qed.

Lemma next_id_insert t x : next_id (<[next_id t := x]> t) = next_id t + 1.
Proof.
  unfold next_id at 1.
  rewrite (max_key_perm _ _ (map_to_list_insert t (next_id t) x (next_id_fresh t))).
  simpl. unfold next_id. lia.
Qed.

End NextId.


Lemma total_stock_insert t i p :
  t !! i = None → total_stock (<[i:=p]> t) = stock_quantity p + total_stock t.
Proof.
  intros Hi. unfold total_stock.
  rewrite map_fold_insert_L; [done| |done]. intros; lia.
Qed.

Lemma total_stock_alter t i p n :
  t !! i = Some p →
  total_stock (alter (λ p', with_stock p' n) i t)
  = total_stock t - stock_quantity p + n.
Proof.
  intros Hi.
  rewrite <- (insert_delete_id t i p) at 2 by done.
  replace (alter (λ p', with_stock p' n) i t)
    with (<[i := with_stock p n]> (delete i t)).
  - rewrite !total_stock_insert by apply lookup_delete_eq. simpl. lia.
  - apply map_eq. intros j. rewrite lookup_alter, lookup_insert.
    destruct (decide (i = j)) as [->|]; [by rewrite Hi|].
    by rewrite lookup_delete_ne.
Qed.

Lemma bill_line_eq env sid new_sale k item total s :
  bill_line env (Some sid) new_sale k item total s =
  match select_fault env k with
  | Some e => (Raise e, s)
  | None =>
      match find_product (item_id item) (Some sid) (pending s) with
      | None =>
          (Done (inl (not_enough_stock ("ID " +:+ py_str (item_id item)))),
           rollback s)
      | Some p =>
          if decide (stock_quantity p < item_quantity item)
          then
            match select_fault env (S k) with
            | Some e => (Raise e, rollback s)
            | None =>
                match name <$> products (persisted s) !! item_id item with
                | Some n => (Done (inl (not_enough_stock n)), rollback s)
                | None => (Raise (deleted_msg env), rollback s)
                end
            end
          else
            match float_of_int (item_quantity item) with
            | None =>
                (Raise overflow_msg,
                 {| persisted := persisted s;
                    pending := stock_set (item_id item)
                                 (stock_quantity p - item_quantity item) (pending s) |})
            | Some q =>
                (Done (inr (float_add total (float_mul (price p) q))),
                 {| persisted := persisted s;
                    pending := line_effect new_sale item p (pending s) |})
            end
      end
  end.
Proof.
  unfold bill_line, query_product, select.
  destruct (select_fault env k); [done|].
  unfold mbind at 1 2, M_bind at 1 2, mret, M_ret, get_pending; simpl.
  destruct (find_product _ _ _) as [p|]; [|done].
  destruct (decide _).
  - unfold refresh, select, do_rollback, mbind, M_bind. simpl.
    destruct (select_fault env (S k)); [done|]. simpl.
    by destruct (products (persisted s) !! item_id item).
  - unfold mul_quantity, set_stock, mbind, M_bind, get_pending, set_pending, raise; simpl.
    destruct (float_of_int _); done.
Qed.

Lemma find_product_Some pid sid d p :
  find_product pid (Some sid) d = Some p ↔
  products d !! pid = Some p ∧ product_store_id p = sid.
Proof.
  unfold find_product. destruct (products d !! pid) as [p'|].
  - destruct (decide (Some (product_store_id p') = Some sid)) as [E|E].
    + injection E as E. split; [by intros [= <-]|by intros [[= <-] _]].
    + split; [done|]. intros [[= <-] <-]. by destruct E.
  - split; [done|by intros [? _]].
Qed.

Lemma find_product_None pid sid d :
  find_product pid (Some sid) d = None ↔
  ∀ p, products d !! pid = Some p → product_store_id p ≠ sid.
Proof.
  unfold find_product. destruct (products d !! pid) as [p'|].
  - destruct (decide (Some (product_store_id p') = Some sid)) as [E|E].
    + injection E as E. split; [done|]. intros Hne. by destruct (Hne p').
    + split; [|done]. intros _ p [= <-] <-. by destruct E.
  - split; [by intros _ p|done].
Qed.

Lemma find_product_lookup pid sid d p :
  find_product pid sid d = Some p → products d !! pid = Some p.
Proof.
  unfold find_product. destruct (products d !! pid) as [p'|]; [|done].
  by destruct (decide _).
Qed.

Lemma with_stock_same p : with_stock p (stock_quantity p) = p.
Proof. by destruct p. Qed.

Lemma requested_app pid l1 l2 :
  requested pid (l1 ++ l2) = requested pid l1 + requested pid l2.
Proof. induction l1; simpl; lia. Qed.

Lemma stock_lowered_nil t : stock_lowered [] t t.
Proof.
  intros pid. simpl. destruct (t !! pid) as [p|]; simpl; [|done].
  by rewrite Z.sub_0_r, with_stock_same.
Qed.

Lemma rows_appended_nil {A} (t : gmap Z A) : rows_appended [] t t.
Proof. split; [intros i si Hi; by destruct i | done]. Qed.

Lemma line_effect_products new_sale item p d pid :
  products (line_effect new_sale item p d) !! pid =
  if decide (item_id item = pid)
  then (λ p', with_stock p' (stock_quantity p - item_quantity item)) <$> products d !! pid
  else products d !! pid.
Proof.
  unfold line_effect, stock_set; simpl. rewrite lookup_alter.
  by destruct (decide _) as [->|].
Qed.

Lemma line_effect_sale_items new_sale item p d :
  sale_items (line_effect new_sale item p d) =
  <[next_id (sale_items d) :=
      {| sale_id := new_sale; product_id := item_id item;
         quantity := item_quantity item; price_at_sale := price p |}]>
    (sale_items d).
Proof. done. Qed.

Lemma bill_loop_spec env sid new_sale items : ∀ k total s,
  match bill_loop env (Some sid) new_sale k items total s with
  | (Done (inr total'), s') =>
      persisted s' = persisted s ∧
      bill_ok (pending s) sid items ∧
      stores (pending s') = stores (pending s) ∧
      sales (pending s') = sales (pending s) ∧
      convertible items ∧
      (∀ j : nat, (j < length items)%nat → select_fault env (k + j) = None) ∧
      stock_lowered items (products (pending s)) (products (pending s')) ∧
      total_stock (products (pending s')) =
        total_stock (products (pending s)) - total_requested items ∧
      ∃ sis, Forall2 (sale_item_of (pending s) new_sale) items sis ∧
             sum_lines total sis = Some total' ∧
             rows_appended sis (sale_items (pending s)) (sale_items (pending s'))
  | (Done (inl r), s') =>
      persisted s' = persisted s ∧ pending s' = persisted s ∧
      ∃ what, r = not_enough_stock what
  | (Raise e, s') => persisted s' = persisted s
  end.
Proof.
  induction items as [|item rest IH]; intros k total s.
  - simpl. split_and!; auto using stock_lowered_nil.
    + intros i it Hi. by destruct i.
    + intros it Hit. by apply elem_of_nil in Hit.
    + intros j Hj. simpl in Hj. lia.
    + lia.
    + exists []. auto using rows_appended_nil.
  - simpl. unfold mbind, M_bind. rewrite bill_line_eq.
    destruct (select_fault env k) eqn:Hk; [done|].
    destruct (find_product _ _ _) as [p|] eqn:Hp; [|simpl; split_and!; eauto].
    destruct (decide _) as [Hlt|Hge].
    { destruct (select_fault env (S k)); [done|].
      destruct (products (persisted s) !! item_id item); simpl;
        [split_and!; eauto|done]. }
    destruct (float_of_int (item_quantity item)) as [q|] eqn:Hq; [|done].
    apply find_product_Some in Hp as [Hp Hsid].
    set (s1 := {| persisted := persisted s; pending := _ |}).
    specialize (IH (S k) (float_add total (float_mul (price p) q)) s1).
    destruct (bill_loop _ _ _ _ _ _ s1) as [[[r|total']|e] s']; [done| |done].
    destruct IH as (Hpers & Hok & Hst & Hsa & Hconv & Hsel & Hlow & Htot
                    & sis & Hsis & Hsum & Hnew & Hold).
    subst s1; cbn [persisted pending] in *.
    split; [done|]. split; [|split; [done|split; [done|split; [|split; [|split; [|split]]]]]].
    + intros [|i] it Hi; simpl in Hi.
      * injection Hi as <-. exists p. simpl. split_and!; [done..|lia].
      * destruct (Hok i it Hi) as (p' & Hp' & Hs' & Hq').
        rewrite line_effect_products in Hp'. simpl.
        destruct (decide (item_id item = item_id it)) as [E|E].
        -- rewrite <- E in Hp'. rewrite Hp in Hp'. injection Hp' as <-.
           exists p. rewrite <- E. split_and!; [done..|].
           rewrite <- E in Hq'. simpl in Hq' |- *. rewrite decide_True by done. lia.
        -- exists p'. split_and!; [done..|]. simpl. rewrite decide_False by done. lia.
    + intros it Hit. apply elem_of_cons in Hit as [->|Hit]; [by rewrite Hq|by apply Hconv].
    + intros [|j] Hj; [by rewrite Nat.add_0_r|].
      replace (k + S j)%nat with (S k + j)%nat by lia. apply Hsel. simpl in Hj. lia.
    + intros pid. rewrite Hlow, line_effect_products. simpl.
      destruct (decide (item_id item = pid)) as [E|E].
      * rewrite <- E, Hp. simpl. f_equal. unfold with_stock; simpl. f_equal. lia.
      * destruct (products (pending s) !! pid); simpl; [|done]. do 2 f_equal; lia.
    + rewrite Htot. unfold line_effect, stock_set. simpl.
      rewrite (total_stock_alter _ _ p) by done. lia.
    + exists ({| sale_id := new_sale; product_id := item_id item;
                 quantity := item_quantity item; price_at_sale := price p |} :: sis).
      split; [|split; [|split]].
      * constructor; [by exists p|].
        eapply Forall2_impl; [exact Hsis|].
        intros it si (p' & Hp' & ->). rewrite line_effect_products in Hp'.
        destruct (decide _) as [E|E]; [|by exists p'].
        destruct (products (pending s) !! item_id it) as [p0|] eqn:E0; [|done].
        injection Hp' as <-. by exists p0.
      * simpl. by rewrite Hq.
      * intros [|i] si Hi; simpl in Hi.
        -- injection Hi as <-. rewrite Hold.
           ++ rewrite line_effect_sale_items, Z.add_0_r. apply lookup_insert_eq.
           ++ rewrite line_effect_sale_items, next_id_insert. lia.
        -- rewrite line_effect_sale_items, next_id_insert in Hnew.
           rewrite <- (Hnew i si Hi). f_equal. lia.
      * intros j Hj. simpl in Hj. rewrite Hold.
        -- rewrite line_effect_sale_items. apply lookup_insert_ne. lia.
        -- rewrite line_effect_sale_items, next_id_insert. lia.
Qed.


Lemma line_accepted_step new_sale item0 p d sid pre item :
  products d !! item_id item0 = Some p →
  line_accepted (line_effect new_sale item0 p d) sid pre item ↔
  line_accepted d sid (item0 :: pre) item.
Proof.
  intros Hp. unfold line_accepted. cbn [requested].
  destruct (decide (item_id item0 = item_id item)) as [E|E].
  - rewrite <- E.
    split; intros (p' & Hp' & Hs & Hq).
    + rewrite line_effect_products, decide_True, Hp in Hp' by done.
      injection Hp' as <-. exists p. simpl in *. split_and!; [done..|lia].
    + rewrite Hp in Hp'. injection Hp' as <-.
      exists (with_stock p (stock_quantity p - item_quantity item0)).
      rewrite line_effect_products, decide_True, Hp by done.
      simpl. split_and!; [done..|lia].
  - split; intros (p' & Hp' & Hs & Hq); exists p'.
    + rewrite line_effect_products, decide_False in Hp' by done.
      split_and!; [done..|lia].
    + rewrite line_effect_products, decide_False by done.
      split_and!; [done..|lia].
Qed.

Lemma bill_ok_cons new_sale d sid item rest :
  bill_ok d sid (item :: rest) ↔
  ∃ p, products d !! item_id item = Some p ∧ product_store_id p = sid ∧
       item_quantity item ≤ stock_quantity p ∧
       bill_ok (line_effect new_sale item p d) sid rest.
Proof.
  split.
  - intros Hok. destruct (Hok 0%nat item eq_refl) as (p & Hp & Hs & Hq).
    simpl in Hq. exists p. split_and!; [done..|lia|].
    intros k it Hk. apply line_accepted_step; [done|]. by apply (Hok (S k)).
  - intros (p & Hp & Hs & Hq & Hok) [|k] it Hk; simpl in Hk.
    + injection Hk as <-. exists p. simpl. split_and!; [done..|lia].
    + simpl. eapply line_accepted_step; [done|]. by apply Hok.
Qed.

Lemma convertible_cons item rest :
  convertible (item :: rest) ↔
  is_Some (float_of_int (item_quantity item)) ∧ convertible rest.
Proof.
  unfold convertible. split.
  - intros Hall. split; [apply Hall; left|]. intros it Hit. apply Hall. by right.
  - intros [Hhd Htl] it Hit. apply elem_of_cons in Hit as [->|Hit]; auto.
Qed.

Lemma rejected_what_step new_sale item0 p d sid item :
  products d !! item_id item0 = Some p →
  rejected_what (line_effect new_sale item0 p d) sid item = rejected_what d sid item.
Proof.
  intros Hp. unfold rejected_what, find_product.
  rewrite line_effect_products.
  destruct (decide _) as [E|E]; [|done].
  rewrite <- E, Hp. simpl. by destruct (decide _).
Qed.

(** A bill whose lines satisfy the preconditions runs through the loop. *)
Lemma bill_loop_ok env sid new_sale items : ∀ k total s,
  bill_ok (pending s) sid items → convertible items →
  (∀ j : nat, (j < length items)%nat → select_fault env (k + j) = None) →
  ∃ total' s', bill_loop env (Some sid) new_sale k items total s
               = (Done (inr total'), s').
Proof.
  induction items as [|item rest IH]; intros k total s Hok Hconv Hsel.
  - simpl. eauto.
  - apply (bill_ok_cons new_sale) in Hok as (p & Hp & Hs & Hq & Hok).
    apply convertible_cons in Hconv as [[q Hfq] Hconv].
    simpl. unfold mbind, M_bind. rewrite bill_line_eq.
    assert (Hk : select_fault env k = None)
      by (rewrite <- (Nat.add_0_r k); apply Hsel; simpl; lia).
    rewrite Hk.
    rewrite (proj2 (find_product_Some _ _ _ _) (conj Hp Hs)).
    rewrite decide_False by lia. rewrite Hfq.
    apply IH; [done..|].
    intros j Hj. replace (S k + j)%nat with (k + S j)%nat by lia.
    apply Hsel. simpl. lia.
Qed.

Lemma names_kept_step new_sale item p s :
  products (pending s) !! item_id item = Some p →
  names_kept s →
  names_kept {| persisted := persisted s;
                pending := line_effect new_sale item p (pending s) |}.
Proof.
  intros Hp Hnames pid p'. cbn [persisted pending].
  rewrite line_effect_products.
  destruct (decide (item_id item = pid)) as [<-|]; [|apply Hnames].
  rewrite Hp. simpl. intros [= <-]. simpl. by apply Hnames.
Qed.

Lemma find_product_step new_sale item0 p d sid pid :
  products d !! item_id item0 = Some p →
  find_product pid (Some sid) (line_effect new_sale item0 p d) = None ↔
  find_product pid (Some sid) d = None.
Proof.
  intros Hp. unfold find_product. rewrite line_effect_products.
  destruct (decide (item_id item0 = pid)) as [<-|]; [|done].
  rewrite Hp. simpl. by destruct (decide _).
Qed.

(** The first line that does not satisfy its precondition ends the loop
    with the message that names it.  When the line has a product, its name
    is read by one more query. *)
Lemma bill_loop_rejects env sid new_sale pre item post : ∀ k total s,
  names_kept s →
  bill_ok (pending s) sid pre → convertible pre →
  (∀ j : nat, (j ≤ length pre)%nat → select_fault env (k + j) = None) →
  (find_product (item_id item) (Some sid) (pending s) = None ∨
   select_fault env (k + S (length pre)) = None) →
  ¬ line_accepted (pending s) sid pre item →
  ∃ s', bill_loop env (Some sid) new_sale k (pre ++ item :: post) total s
        = (Done (inl (not_enough_stock (rejected_what (pending s) sid item))), s').
Proof.
  induction pre as [|item0 pre IH]; intros k total s Hnames Hok Hconv Hsel Hlast Hrej.
  - simpl. unfold mbind, M_bind. rewrite bill_line_eq.
    assert (Hk : select_fault env k = None)
      by (rewrite <- (Nat.add_0_r k); apply Hsel; simpl; lia).
    rewrite Hk. unfold rejected_what.
    destruct (find_product _ _ _) as [p|] eqn:Hp; [|eauto].
    destruct Hlast as [|Hk1]; [done|]. simpl in Hk1. rewrite Nat.add_1_r in Hk1.
    apply find_product_Some in Hp as [Hp Hs].
    destruct (decide _) as [Hlt|Hge].
    + rewrite Hk1, (Hnames _ _ Hp). eauto.
    + destruct Hrej. exists p. simpl. split_and!; [done..|lia].
  - apply (bill_ok_cons new_sale) in Hok as (p & Hp & Hs & Hq & Hok).
    apply convertible_cons in Hconv as [[q Hfq] Hconv].
    simpl. unfold mbind, M_bind. rewrite bill_line_eq.
    assert (Hk : select_fault env k = None)
      by (rewrite <- (Nat.add_0_r k); apply Hsel; simpl; lia).
    rewrite Hk.
    rewrite (proj2 (find_product_Some _ _ _ _) (conj Hp Hs)).
    rewrite decide_False by lia. rewrite Hfq.
    rewrite <- (rejected_what_step new_sale item0 p) by done.
    apply (IH (S k)); [by apply names_kept_step|done..| | |].
    + intros j Hj. replace (S k + j)%nat with (k + S j)%nat by lia.
      apply Hsel. simpl. lia.
    + cbn [pending]. rewrite find_product_step by done.
      destruct Hlast as [Hnone|Hk1]; [by left|right].
      rewrite <- Hk1. f_equal. simpl. lia.
    + intros Hacc. apply Hrej. eapply line_accepted_step; [done|]. exact Hacc.
Qed.

Lemma bill_ok_ext d d' sid items :
  products d = products d' → bill_ok d sid items → bill_ok d' sid items.
Proof.
  intros E Hok k it Hk. destruct (Hok k it Hk) as (p & Hp & Hrest).
  exists p. by rewrite <- E.
Qed.

Lemma line_accepted_ext d d' sid pre item :
  products d = products d' → line_accepted d sid pre item → line_accepted d' sid pre item.
Proof. intros E (p & Hp & Hrest). exists p. by rewrite <- E. Qed.

Lemma rejected_what_ext d d' sid item :
  products d = products d' → rejected_what d sid item = rejected_what d' sid item.
Proof. intros E. unfold rejected_what, find_product. by rewrite E. Qed.

(** The session the loop starts on: the new sale is pending. *)
Lemma bill_transaction_eq env u sid items s :
  user_store_id u = Some sid →
  bill_transaction env u items s =
  let new_sale := next_id (sales (pending s)) in
  let s0 := {| persisted := persisted s;
               pending := set_sales (pending s)
                 (<[new_sale := {| total_amount := float_zero; sale_date := now env;
                                   sale_store_id := sid |}]> (sales (pending s))) |} in
  match bill_loop env (Some sid) new_sale 0 items float_zero s0 with
  | (Done (inl r), s') => (Done r, s')
  | (Done (inr total), s') =>
      let d := set_sales (pending s')
                 (alter (λ sa, with_total sa (round2 total)) new_sale (sales (pending s'))) in
      match commit_fault env with
      | Some e => (Raise e, {| persisted := persisted s'; pending := d |})
      | None =>
          match select_fault env (length items) with
          | Some e => (Raise e, {| persisted := d; pending := d |})
          | None =>
              match sales d !! new_sale with
              | Some _ => (Done (Json (BillOk new_sale) 200), {| persisted := d; pending := d |})
              | None => (Raise (deleted_msg env), {| persisted := d; pending := d |})
              end
          end
      end
  | (Raise e, s') => (Raise e, s')
  end.
Proof.
  intros Hu. unfold bill_transaction, add_sale. rewrite Hu.
  unfold mbind at 1 2 3, M_bind at 1 2 3, mret at 1, M_ret at 1, get_pending, set_pending.
  simpl.
  destruct (bill_loop _ _ _ _ _ _ _) as [[[r|total]|e] s']; [done| |done].
  unfold set_total, commit, refresh, select, mbind, M_bind, get_pending, set_pending.
  simpl.
  destruct (commit_fault env); [done|]. simpl.
  destruct (select_fault env (length items)); [done|]. simpl.
  by destruct (alter _ _ _ !! _).
Qed.

(** A request to [process_bill] by a store user, read off the loop. *)
Lemma process_bill_run env u sid items db :
  role u = "store" → user_store_id u = Some sid → items ≠ [] →
  run (process_bill env u items) db =
  let new_sale := next_id (sales db) in
  let s0 := {| persisted := db;
               pending := set_sales db
                 (<[new_sale := {| total_amount := float_zero; sale_date := now env;
                                   sale_store_id := sid |}]> (sales db)) |} in
  match bill_loop env (Some sid) new_sale 0 items float_zero s0 with
  | (Done (inl r), s') => (r, persisted s')
  | (Done (inr total), s') =>
      let d := set_sales (pending s')
                 (alter (λ sa, with_total sa (round2 total)) new_sale (sales (pending s'))) in
      match commit_fault env with
      | Some e => (Json (BillError e) 500, persisted s')
      | None =>
          (match select_fault env (length items) with
           | Some e => Json (BillError e) 500
           | None =>
               match sales d !! new_sale with
               | Some _ => Json (BillOk new_sale) 200
               | None => Json (BillError (deleted_msg env)) 500
               end
           end, d)
      end
  | (Raise e, s') => (Json (BillError e) 500, persisted s')
  end.
Proof.
  intros Hr Hu Hne. unfold process_bill, run.
  rewrite decide_False by (by intros []).
  destruct items as [|item rest]; [done|].
  unfold try_except. rewrite (bill_transaction_eq env u sid) by done.
  cbn zeta. cbn [begin persisted pending].
  destruct (bill_loop _ _ _ _ _ _ _) as [[[r|total]|e] s']; [done| |done].
  destruct (commit_fault env); [done|].
  destruct (select_fault env (length (item :: rest))); [done|].
  by destruct (sales _ !! _).
Qed.

Lemma process_bill_not_store env u items db :
  role u ≠ "store" ∨ user_store_id u = None ∨ items = [] →
  is_failure (run (process_bill env u items) db).1 ∧
  (run (process_bill env u items) db).2 = db.
Proof.
  intros Hcase. unfold process_bill, run.
  destruct (decide (role u ≠ "store")) as [Hr|Hr]; [simpl; split; [by left|done]|].
  destruct items as [|item rest]; [simpl; split; [right; eauto|done]|].
  destruct Hcase as [Hcase|[Hcase|Hcase]]; [done| |done].
  unfold try_except, bill_transaction, add_sale. rewrite Hcase. simpl.
  split; [right; eauto|done].
Qed.

(** What a request to [process_bill] answers and leaves in the database.
    Either the bill is recorded whole, and the answer is the new sale
    unless the query that reads its identifier after the commit fails; or
    the answer is a failure and the database is the one before. *)
Lemma process_bill_outcome env u items db :
  (∃ sid new_sale,
     role u = "store" ∧ user_store_id u = Some sid ∧ items ≠ [] ∧
     new_sale = next_id (sales db) ∧
     bill_ok db sid items ∧ convertible items ∧
     selects_ok env (length items) ∧ commit_fault env = None ∧
     bill_applied env sid items db (run (process_bill env u items) db).2 new_sale ∧
     (run (process_bill env u items) db).1
     = match select_fault env (length items) with
       | Some e => Json (BillError e) 500
       | None => Json (BillOk new_sale) 200
       end) ∨
  (is_failure (run (process_bill env u items) db).1 ∧
   (run (process_bill env u items) db).2 = db).
Proof.
  destruct (decide (role u = "store")) as [Hr|Hr];
    [|right; apply process_bill_not_store; by left].
  destruct (user_store_id u) as [sid|] eqn:Hu;
    [|right; apply process_bill_not_store; by right; left].
  destruct (decide (items = [])) as [Hne|Hne];
    [right; apply process_bill_not_store; by right; right|].
  rewrite (process_bill_run env u sid) by done. cbn zeta.
  set (new_sale := next_id (sales db)).
  set (s0 := {| persisted := db; pending := _ |}).
  pose proof (bill_loop_spec env sid new_sale items 0 float_zero s0) as Hloop.
  destruct (bill_loop _ _ _ _ _ _ s0) as [[[r|total]|e] s'].
  - right. destruct Hloop as (Hpers & _ & what & ->). simpl.
    split; [right; exists ("Not enough stock for " +:+ what); by left|done].
  - destruct Hloop as (Hpers & Hok & Hst & Hsa & Hconv & Hsel & Hlow & Htot
                       & sis & Hsis & Hsum & Hrows).
    destruct (commit_fault env) as [e|].
    { right. simpl. split; [right; eauto|done]. }
    left. exists sid, new_sale. cbn [fst snd]. do 4 (split; [done|]).
    split; [by eapply bill_ok_ext; [|exact Hok]|].
    do 3 (split; [done|]). split.
    + split; [done|]. split; [done|]. split; [simpl in Htot |- *; lia|].
      split; [apply next_id_fresh|].
      exists sis, total. split; [done|]. split; [done|]. split; [|done].
      simpl. rewrite Hsa. simpl. by rewrite alter_insert_eq.
    + destruct (select_fault env (length items)); [done|].
      simpl. rewrite Hsa. simpl. by rewrite alter_insert_eq, lookup_insert_eq.
  - right. simpl. split; [right; eauto|done].
Qed.

Lemma not_failure_success new_sale : ¬ is_failure (Json (BillOk new_sale) 200).
Proof. intros [?|[e [?|?]]]; discriminate. Qed.

(** A bill whose lines all satisfy the preconditions is recorded. *)
Lemma process_bill_valid env u sid items db :
  role u = "store" → user_store_id u = Some sid → items ≠ [] →
  bill_ok db sid items → convertible items →
  selects_ok env (S (length items)) → commit_fault env = None →
  ∃ db', run (process_bill env u items) db
           = (Json (BillOk (next_id (sales db))) 200, db') ∧
         bill_applied env sid items db db' (next_id (sales db)).
Proof.
  intros Hr Hu Hne Hok Hconv Hsel Hcommit.
  pose proof (process_bill_run env u sid items db Hr Hu Hne) as Hrun.
  cbn zeta in Hrun. set (s0 := {| persisted := db; pending := _ |}) in Hrun.
  destruct (bill_loop_ok env sid (next_id (sales db)) items 0 float_zero s0)
    as (total & s' & Hloop); [| exact Hconv | |].
  { eapply bill_ok_ext; [|exact Hok]. done. }
  { intros j Hj. apply Hsel. simpl. lia. }
  rewrite Hloop, Hcommit, (Hsel (length items)) in Hrun by lia.
  pose proof (bill_loop_spec env sid (next_id (sales db)) items 0 float_zero s0) as Hspec.
  rewrite Hloop in Hspec. destruct Hspec as (_ & _ & _ & Hsa & _).
  rewrite Hsa in Hrun. simpl in Hrun.
  rewrite alter_insert_eq, lookup_insert_eq in Hrun.
  eexists. split; [exact Hrun|].
  destruct (process_bill_outcome env u items db)
    as [(sid' & new_sale & _ & Hu' & _ & -> & _ & _ & _ & _ & Happ & _)|[Hfail _]].
  - rewrite Hu in Hu'. injection Hu' as <-. by rewrite Hrun in Happ.
  - rewrite Hrun in Hfail. by apply not_failure_success in Hfail.
Qed.

(** The first line that does not satisfy its precondition is the one the
    answer names; nothing is recorded. *)
Lemma process_bill_rejects env u sid pre item post db :
  role u = "store" → user_store_id u = Some sid →
  bill_ok db sid pre → convertible pre →
  selects_ok env (S (length pre)) →
  (find_product (item_id item) (Some sid) db = None ∨
   select_fault env (S (length pre)) = None) →
  ¬ line_accepted db sid pre item →
  run (process_bill env u (pre ++ item :: post)) db
  = (not_enough_stock (rejected_what db sid item), db).
Proof.
  intros Hr Hu Hok Hconv Hsel Hlast Hrej.
  assert (Hne : pre ++ item :: post ≠ []) by (by destruct pre).
  pose proof (process_bill_run env u sid _ db Hr Hu Hne) as Hrun.
  cbn zeta in Hrun. set (s0 := {| persisted := db; pending := _ |}) in Hrun.
  destruct (bill_loop_rejects env sid (next_id (sales db)) pre item post 0 float_zero s0)
    as (s' & Hloop); [| | exact Hconv | | | | ].
  - intros pid p Hp. simpl in *. by rewrite Hp.
  - eapply bill_ok_ext; [|exact Hok]. done.
  - intros j Hj. apply Hsel. lia.
  - exact Hlast.
  - intros Hacc. apply Hrej. eapply line_accepted_ext; [|exact Hacc]. done.
  - rewrite Hloop in Hrun.
    erewrite rejected_what_ext in Hrun by (simpl; reflexivity).
    rewrite Hrun. f_equal.
    pose proof (bill_loop_spec env sid (next_id (sales db)) (pre ++ item :: post)
                  0 float_zero s0) as Hspec.
    rewrite Hloop in Hspec. by destruct Hspec as (-> & _).
Qed.

Lemma bill_ok_single d sid item p :
  products d !! item_id item = Some p → product_store_id p = sid →
  item_quantity item ≤ stock_quantity p → bill_ok d sid [item].
Proof.
  intros Hp Hs Hq [|k] it Hk; [|by destruct k].
  injection Hk as <-. exists p. simpl. split_and!; [done..|lia].
Qed.

Lemma bill_ok_snoc d sid items item :
  bill_ok d sid (items ++ [item]) ↔
  bill_ok d sid items ∧ line_accepted d sid items item.
Proof.
  split.
  - intros Hok. split.
    + intros k it Hk.
      rewrite <- (take_app_le items [item]) by (apply lookup_lt_Some in Hk; lia).
      apply Hok. by apply lookup_app_l_Some.
    + rewrite <- (take_app_length items [item]) at 1. apply Hok.
      by rewrite lookup_app_r, Nat.sub_diag.
  - intros [Hok Hacc] k it Hk. apply lookup_app_Some in Hk as [Hk|[Hlen Hk]].
    + rewrite take_app_le by (apply lookup_lt_Some in Hk; lia). by apply Hok.
    + apply list_lookup_singleton_Some in Hk as [Hk ->].
      replace k with (length items) by lia. by rewrite take_app_length.
Qed.

Lemma requested_unnamed pid items :
  (∀ item, item ∈ items → item_id item ≠ pid) → requested pid items = 0.
Proof.
  induction items as [|item rest IH]; intros Hno; [done|]. simpl.
  rewrite decide_False by (apply Hno; left).
  rewrite IH; [done|]. intros it Hit. apply Hno. by right.
Qed.

(** The lines that pass leave no product with less than nothing: what a
    bill that satisfies the preconditions requests of a product it names is
    at most its stock. *)
Lemma requested_bound d sid items pid p :
  bill_ok d sid items → products d !! pid = Some p →
  (∃ item, item ∈ items ∧ item_id item = pid) →
  requested pid items ≤ stock_quantity p.
Proof.
  induction items as [|item items IH] using rev_ind; intros Hok Hp (it & Hit & Hid).
  - by apply elem_of_nil in Hit.
  - apply bill_ok_snoc in Hok as [Hok (p' & Hp' & _ & Hq)].
    rewrite requested_app. simpl.
    destruct (decide (item_id item = pid)) as [E|E].
    + rewrite E, Hp in Hp'. injection Hp' as <-. rewrite E in Hq. lia.
    + rewrite Z.add_0_r. apply IH; [done..|].
      exists it. split; [|done].
      apply elem_of_app in Hit as [Hit|Hit]; [done|].
      apply list_elem_of_singleton in Hit as ->. done.
Qed.

Lemma bill_ok_resolves d sid items item :
  bill_ok d sid items → item ∈ items →
  ∃ p, find_product (item_id item) (Some sid) d = Some p.
Proof.
  intros Hok Hit. apply list_elem_of_lookup in Hit as [k Hk].
  destruct (Hok k item Hk) as (p & Hp & Hs & _).
  exists p. by apply find_product_Some.
Qed.

Lemma is_success_not_failure r : is_success r → ¬ is_failure r.
Proof. intros [id ->]. apply not_failure_success. Qed.

(** ** The other handlers, request by request *)

Lemma alter_lookup_insert {A} (f : A → A) (t : gmap Z A) i x :
  t !! i = Some x → alter f i t = <[i := f x]> t.
Proof.
  intros Hi. apply map_eq. intros j. rewrite lookup_alter, lookup_insert.
  destruct (decide (i = j)) as [<-|]; [by rewrite Hi|done].
Qed.

Lemma stock_set_insert pid n d p :
  products d !! pid = Some p →
  stock_set pid n d = set_products d (<[pid := with_stock p n]> (products d)).
Proof.
  intros Hp. unfold stock_set. by rewrite (alter_lookup_insert _ _ _ p).
Qed.

Lemma update_stock_run env u pid n db :
  run (update_stock env u pid n) db =
  if decide (role u ≠ "store") then (Abort 403, db) else
  match select_fault env 0 with
  | Some _ => (Abort 500, db)
  | None =>
      match find_product pid (user_store_id u) db with
      | None => (Abort 404, db)
      | Some p =>
          if decide (n > 0) then
            match commit_fault env with
            | Some _ => (Abort 500, db)
            | None => (Redirect "dashboard", stock_set pid (stock_quantity p + n) db)
            end
          else (Redirect "dashboard", db)
      end
  end.
Proof.
  unfold run, update_stock, query_product, select.
  destruct (decide (role u ≠ "store")); [done|].
  destruct (select_fault env 0); [done|].
  unfold mbind, M_bind, mret, M_ret, get_pending. simpl.
  destruct (find_product pid (user_store_id u) db) as [p|]; [|done].
  destruct (decide (n > 0)); [|done].
  unfold set_stock, commit, mbind, M_bind, get_pending, set_pending. simpl.
  by destruct (commit_fault env).
Qed.

Lemma update_license_run env u sid v db :
  run (update_license env u sid v) db =
  if decide (role u ≠ "superadmin") then (Abort 403, db) else
  match select_fault env 0 with
  | Some _ => (Abort 500, db)
  | None =>
      match stores db !! sid with
      | None => (Abort 404, db)
      | Some st =>
          match v ≫= strptime_ymd with
          | Some new_date =>
              match commit_fault env with
              | Some _ => (Abort 500, db)
              | None => (Redirect "superadmin_dashboard",
                         set_stores db (<[sid := with_license st new_date]> (stores db)))
              end
          | None => (Redirect "superadmin_dashboard", db)
          end
      end
  end.
Proof.
  unfold run, update_license, select.
  destruct (decide (role u ≠ "superadmin")); [done|].
  destruct (select_fault env 0); [done|].
  unfold mbind at 1 2, M_bind, mret, M_ret, get_pending. simpl.
  destruct (stores db !! sid) as [st|] eqn:Hst; [|done].
  destruct v as [str|]; [|done]. simpl.
  destruct str as [|c str]; [by rewrite strptime_empty|].
  destruct (strptime_ymd (String c str)) as [new_date|]; [|done].
  unfold set_license, commit, mbind, M_bind, get_pending, set_pending. simpl.
  destruct (commit_fault env); [done|]. simpl.
  by rewrite (alter_lookup_insert _ _ _ st).
Qed.

Lemma dashboard_post_run env u form db :
  role u = "store" →
  run (dashboard env u POST form) db =
  match user_store_id u with
  | None => (Abort 500, db)
  | Some sid =>
      match commit_fault env with
      | Some _ => (Abort 500, db)
      | None => (Redirect "dashboard",
                 set_products db (<[next_id (products db) := new_product form sid]>
                                    (products db)))
      end
  end.
Proof.
  intros Hr. unfold run, dashboard. rewrite Hr.
  rewrite decide_False by done. rewrite decide_False by (by intros []).
  unfold add_product.
  destruct (user_store_id u) as [sid|]; [|done].
  unfold commit, mbind, M_bind, get_pending, set_pending. simpl.
  by destruct (commit_fault env).
Qed.

Lemma dashboard_unchanged env u m form db :
  role u ≠ "store" → (run (dashboard env u m form) db).2 = db.
Proof.
  intros Hr. unfold run, dashboard.
  destruct (decide (role u = "superadmin")); [done|].
  destruct m.
  - unfold select. destruct (select_fault env 0); [done|]. done.
  - by rewrite decide_True by done.
Qed.

Lemma dashboard_get_run env u form db :
  ∃ r, run (dashboard env u GET form) db = (r, db) ∧
       ∀ rows, r = RenderDashboard rows →
         ∀ id p, (id, p) ∈ rows →
           products db !! id = Some p ∧ Some (product_store_id p) = user_store_id u.
Proof.
  unfold run, dashboard.
  destruct (decide (role u = "superadmin")); [by eexists|].
  unfold select. destruct (select_fault env 0); [by eexists|].
  unfold mbind, M_bind, mret, M_ret, get_pending. simpl.
  eexists. split; [done|]. intros rows [= <-] id p Hin.
  rewrite merge_sort_Permutation in Hin.
  apply list_elem_of_filter in Hin as [HP Hin]. simpl in HP.
  apply bool_decide_eq_true in HP. by apply elem_of_map_to_list in Hin.
Qed.

Lemma rows_where_elem {A} (P : Z → A → bool) (t : gmap Z A) id x :
  (id, x) ∈ rows_where P t ↔ t !! id = Some x ∧ P id x = true.
Proof.
  unfold rows_where. rewrite list_elem_of_filter, elem_of_map_to_list. simpl.
  tauto.
Qed.

Lemma get_products_run env u db :
  ∃ r, run (get_products env u) db = (r, db) ∧
       ∀ l, r = Json (ProductList l) 200 →
         ∀ d, d ∈ l →
           ∃ p, products db !! d_id d = Some p ∧ d = to_dict (d_id d) p ∧
                Some (product_store_id p) = user_store_id u ∧ 0 < stock_quantity p.
Proof.
  unfold run, get_products.
  destruct (decide _); [by eexists|].
  unfold select. destruct (select_fault env 0); [by eexists|].
  unfold mbind, M_bind, mret, M_ret, get_pending. simpl.
  eexists. split; [done|]. intros l [= <-] d Hd.
  apply list_elem_of_fmap in Hd as ([id p] & -> & Hin).
  apply rows_where_elem in Hin as [Hp HP]. simpl in *.
  apply andb_true_iff in HP as [Hs Hq].
  apply bool_decide_eq_true in Hs, Hq.
  exists p. split_and!; [done..|lia].
Qed.

Lemma sales_run env u db :
  ∃ r, run (sales_handler env u) db = (r, db) ∧
       ∀ rows nm, r = RenderSales rows nm →
         ∀ id s, (id, s) ∈ rows →
           sales db !! id = Some s ∧ Some (sale_store_id s) = user_store_id u.
Proof.
  unfold run, sales_handler.
  destruct (decide _); [by eexists|].
  unfold select. destruct (select_fault env 0); [by eexists|].
  unfold mbind at 1, M_bind at 1, mret, M_ret, get_pending. simpl.
  destruct (select_fault env 1); [by eexists|].
  unfold mbind at 1, M_bind at 1. simpl.
  destruct (user_store_id u ≫= _) as [st|]; [|by eexists].
  eexists. split; [done|]. intros rows nm [= <- _] id s Hin.
  rewrite merge_sort_Permutation in Hin.
  apply rows_where_elem in Hin as [Hs HP]. simpl in HP.
  by apply bool_decide_eq_true in HP.
Qed.

(** ** Rows of another store *)

Lemma same_rows_refl b db : same_rows_of b db db.
Proof. by split_and!. Qed.

Lemma stock_set_same_rows b pid n db p :
  products db !! pid = Some p → product_store_id p ≠ b →
  same_rows_of b db (stock_set pid n db).
Proof.
  intros Hp Hb. split_and!; try done.
  intros id p' Hp'. unfold stock_set. simpl. rewrite lookup_alter.
  destruct (decide (pid = id)) as [<-|]; [|done].
  rewrite Hp. simpl. split; intros [= <-]; by destruct Hb.
Qed.

Lemma requested_cases pid (items : list BillItem) :
  (∀ item, item ∈ items → item_id item ≠ pid) ∨
  (∃ item, item ∈ items ∧ item_id item = pid).
Proof.
  induction items as [|item rest [IH|(it & Hit & Hid)]].
  - left. intros it Hit. by apply elem_of_nil in Hit.
  - destruct (decide (item_id item = pid)) as [E|E].
    + right. exists item. split; [left|done].
    + left. intros it Hit. apply elem_of_cons in Hit as [->|Hit]; auto.
  - right. exists it. split; [by right|done].
Qed.

(** A product that no line names keeps its row. *)
Lemma stock_lowered_unnamed items t t' pid :
  stock_lowered items t t' →
  (∀ item, item ∈ items → item_id item ≠ pid) →
  t' !! pid = t !! pid.
Proof.
  intros Hlow Hno. rewrite Hlow, requested_unnamed by done.
  destruct (t !! pid) as [p|]; [|done]. simpl.
  by rewrite Z.sub_0_r, with_stock_same.
Qed.

Lemma bill_applied_same_rows env a b items db db' new_sale :
  a ≠ b → bill_ok db a items →
  bill_applied env a items db db' new_sale →
  same_rows_of b db db'.
Proof.
  intros Hab Hok (Hst & Hlow & _ & Hfresh & sis & total & Hsis & _ & Hsales & Hnew & Hold).
  assert (Hsale : ∀ id s, sale_store_id s = b →
            sales db' !! id = Some s ↔ sales db !! id = Some s).
  { intros id s Hs. rewrite Hsales, lookup_insert.
    destruct (decide (new_sale = id)) as [<-|]; [|done].
    rewrite Hfresh. split; [|done]. intros [= <-]. by destruct Hab. }
  split_and!.
  - by rewrite Hst.
  - intros id p Hb.
    destruct (requested_cases id items) as [Hno|(it & Hit & Hid)].
    { by rewrite (stock_lowered_unnamed items _ _ id Hlow Hno). }
    apply list_elem_of_lookup in Hit as [k Hk].
    destruct (Hok k it Hk) as (p0 & Hp0 & Hs0 & _). rewrite Hid in Hp0.
    rewrite Hlow, Hp0. simpl.
    split; intros [= <-]; simpl in *; congruence.
  - done.
  - intros id si s Hs.
    destruct (decide (next_id (sale_items db) ≤ id
                      < next_id (sale_items db) + Z.of_nat (length sis))) as [Hin|Hout].
    + split.
      * intros [Hsi Hsa].
        destruct (lookup_lt_is_Some_2 sis (Z.to_nat (id - next_id (sale_items db))))
          as [si' Hsi']; [lia|].
        pose proof (Hnew _ _ Hsi') as Hat.
        replace (next_id (sale_items db) + Z.of_nat (Z.to_nat (id - next_id (sale_items db))))
          with id in Hat by lia.
        rewrite Hat in Hsi. injection Hsi as ->.
        destruct (Forall2_lookup_r _ _ _ _ _ Hsis Hsi') as (it & _ & p & _ & ->).
        simpl in Hsa. rewrite Hsales, lookup_insert_eq in Hsa.
        injection Hsa as <-. by destruct Hab.
      * intros [Hsi _].
        assert (id < next_id (sale_items db)) by (apply next_id_above; eauto). lia.
    + rewrite (Hold id Hout). by rewrite Hsale.
Qed.

(** ** The billing transaction *)

(** C1: bill processing is all-or-nothing.  Whatever the request, either
    the database holds the whole bill (the stock of every line lowered, the
    Sale, one SaleItem per line), which happens only when every line
    satisfied its precondition and neither a query of the loop nor the
    commit failed, or the answer is a failure and the database is exactly
    the one before: no stock changed, no Sale and no SaleItem was created.
    A recorded bill is answered with the new sale, unless the query that
    reads [new_sale.id] after the commit fails. *)
Theorem process_bill_all_or_nothing env u items db :
  let '(r, db') := run (process_bill env u items) db in
  (∃ sid new_sale,
     user_store_id u = Some sid ∧
     bill_applied env sid items db db' new_sale ∧
     bill_ok db sid items ∧ convertible items ∧
     selects_ok env (length items) ∧ commit_fault env = None ∧
     (r = Json (BillOk new_sale) 200 ∨
      ∃ e, select_fault env (length items) = Some e ∧ r = Json (BillError e) 500)) ∨
  (is_failure r ∧ db' = db).
Proof.
  destruct (process_bill_outcome env u items db)
    as [(sid & new_sale & _ & Hu & _ & _ & Hok & Hconv & Hsel & Hc & Happ & Hans)|Hfail].
  - destruct (run _ db) as [r db']. simpl in *. left.
    exists sid, new_sale. split_and!; try done.
    destruct (select_fault env (length items)) as [e|]; [right; eauto|by left].
  - destruct (run _ db) as [r db']. by right.
Qed.

(** C2: a bill whose lines all satisfy the preconditions lowers the stock
    of each product by what the bill requests of it (in total by the sum
    of the quantities), adds one SaleItem per line with the quantity and
    the price of the product, adds one Sale whose total is the sum of
    [price_at_sale * quantity] rounded to 2 places, and answers with the
    identifier of that Sale. *)
Theorem process_bill_records_sale env u sid items db :
  role u = "store" → user_store_id u = Some sid → items ≠ [] →
  bill_ok db sid items → convertible items →
  selects_ok env (S (length items)) → commit_fault env = None →
  ∃ db' new_sale sis total,
    run (process_bill env u items) db = (Json (BillOk new_sale) 200, db') ∧
    stock_lowered items (products db) (products db') ∧
    total_stock (products db) - total_stock (products db') = total_requested items ∧
    Forall2 (sale_item_of db new_sale) items sis ∧
    rows_appended sis (sale_items db) (sale_items db') ∧
    sum_lines float_zero sis = Some total ∧
    sales db !! new_sale = None ∧
    sales db' = <[new_sale := {| total_amount := round2 total; sale_date := now env;
                                 sale_store_id := sid |}]> (sales db).
Proof.
  intros Hr Hu Hne Hok Hconv Hsel Hc.
  destruct (process_bill_valid env u sid items db) as (db' & Hrun & Happ); [done..|].
  destruct Happ as (_ & Hlow & Htot & Hfresh & sis & total & Hsis & Hsum & Hsales & Hrows).
  exists db', (next_id (sales db)), sis, total. by split_and!.
Qed.

(** C7: an empty item list is answered with status 400 and the error
    [Empty bill] before the session is touched: the session is left as it
    was, and so is the database. *)
Theorem process_bill_empty env u :
  role u = "store" →
  (∀ s, process_bill env u [] s = (Done (Json (BillError "Empty bill") 400), s)) ∧
  (∀ db, run (process_bill env u []) db = (Json (BillError "Empty bill") 400, db)).
Proof.
  intros Hr. unfold run, process_bill.
  rewrite decide_False by (by intros []). done.
Qed.


(** C6: the lines are taken in the order of the bill and each one is
    checked against the stock the earlier lines of the same bill have left:
    without a failing statement, the bill succeeds exactly when every line
    asks at most the initial stock of its product less what the earlier
    lines asked of it, and the first line that does not is the one the
    answer names.  So a bill that names a product and asks, all its lines
    together, more than the stock of that product, fails and leaves the
    database as it was. *)
Theorem process_bill_running_stock env u sid items db :
  role u = "store" → user_store_id u = Some sid → items ≠ [] →
  (convertible items → selects_ok env (S (length items)) → commit_fault env = None →
   (is_success (run (process_bill env u items) db).1 ↔ bill_ok db sid items)) ∧
  (∀ pre item post,
     items = pre ++ item :: post →
     bill_ok db sid pre → convertible pre → selects_ok env (S (S (length pre))) →
     ¬ line_accepted db sid pre item →
     run (process_bill env u items) db
     = (not_enough_stock (rejected_what db sid item), db)) ∧
  (∀ pid p,
     products db !! pid = Some p →
     (∃ item, item ∈ items ∧ item_id item = pid) →
     stock_quantity p < requested pid items →
     is_failure (run (process_bill env u items) db).1 ∧
     (run (process_bill env u items) db).2 = db).
Proof.
  intros Hr Hu Hne. split; [|split].
  - intros Hconv Hsel Hc. split.
    + intros Hsucc.
      destruct (process_bill_outcome env u items db)
        as [(sid' & new_sale & _ & Hu' & _ & _ & Hok & _)|[Hfail _]].
      * rewrite Hu in Hu'. by injection Hu' as <-.
      * by apply is_success_not_failure in Hsucc.
    + intros Hok.
      destruct (process_bill_valid env u sid items db) as (db' & -> & _); [done..|].
      by eexists.
  - intros pre item post -> Hok Hconv Hsel Hrej.
    apply process_bill_rejects; try done.
    + intros k Hk. apply Hsel. lia.
    + right. apply Hsel. lia.
  - intros pid p Hp Hnamed Hmore.
    destruct (process_bill_outcome env u items db)
      as [(sid' & new_sale & _ & Hu' & _ & _ & Hok & _)|Hfail]; [|done].
    pose proof (requested_bound db sid' items pid p Hok Hp Hnamed). lia.
Qed.

(** C3, as the code has it: a bill with a line whose [product_id] is not
    a product of the caller's store fails and changes nothing; when that
    line is the first one that does not pass (and no statement failed
    before), the answer has status 400 and the error [Not enough stock for
    ID <id>] with the identifier of the line.  This is the error of a line
    that asks more than the stock, which names the product instead: the
    two are one kind of error, with no separate answer for a product that
    is not found. *)
Theorem process_bill_unresolved env u sid db :
  role u = "store" → user_store_id u = Some sid →
  (∀ items item,
     item ∈ items → find_product (item_id item) (Some sid) db = None →
     is_failure (run (process_bill env u items) db).1 ∧
     (run (process_bill env u items) db).2 = db) ∧
  (∀ pre item post,
     bill_ok db sid pre → convertible pre → selects_ok env (S (length pre)) →
     find_product (item_id item) (Some sid) db = None →
     run (process_bill env u (pre ++ item :: post)) db
     = (Json (BillError ("Not enough stock for ID " +:+ py_str (item_id item))) 400, db)) ∧
  (∀ pre item post p,
     bill_ok db sid pre → convertible pre → selects_ok env (S (S (length pre))) →
     find_product (item_id item) (Some sid) db = Some p →
     stock_quantity p - requested (item_id item) pre < item_quantity item →
     run (process_bill env u (pre ++ item :: post)) db
     = (Json (BillError ("Not enough stock for " +:+ name p)) 400, db)).
Proof.
  intros Hr Hu. split; [|split].
  - intros items item Hit Hnone.
    destruct (process_bill_outcome env u items db)
      as [(sid' & new_sale & _ & Hu' & _ & _ & Hok & _)|Hfail]; [|done].
    rewrite Hu in Hu'. injection Hu' as <-.
    destruct (bill_ok_resolves db sid items item Hok Hit) as [p Hp]. congruence.
  - intros pre item post Hok Hconv Hsel Hnone.
    rewrite (process_bill_rejects env u sid pre item post db); try done.
    + unfold rejected_what. by rewrite Hnone.
    + by left.
    + intros (p & Hp & Hs & _).
      assert (find_product (item_id item) (Some sid) db = Some p)
        by (by apply find_product_Some). congruence.
  - intros pre item post p Hok Hconv Hsel Hsome Hless.
    rewrite (process_bill_rejects env u sid pre item post db); try done.
    + unfold rejected_what. by rewrite Hsome.
    + intros j Hj. apply Hsel. lia.
    + right. apply Hsel. lia.
    + intros (p' & Hp' & Hs & Hq).
      apply find_product_Some in Hsome as [Hp _].
      rewrite Hp in Hp'. injection Hp' as <-. lia.
Qed.

(** ** Stock and licence updates *)

(** C9: a store user who adds [n] to the stock of a product of their own
    store raises its stock by exactly [n] when [n] is positive; when [n] is
    zero or negative nothing changes, and the answer is the same redirect
    to the dashboard, with no error. *)
Theorem update_stock_adds env u sid pid p n db :
  role u = "store" → user_store_id u = Some sid →
  products db !! pid = Some p → product_store_id p = sid →
  select_fault env 0 = None →
  (0 < n → commit_fault env = None →
   run (update_stock env u pid n) db
   = (Redirect "dashboard",
      set_products db (<[pid := with_stock p (stock_quantity p + n)]> (products db))) ∧
   (∃ p', products (run (update_stock env u pid n) db).2 !! pid = Some p' ∧
          stock_quantity p' = stock_quantity p + n ∧
          barcode p' = barcode p ∧ name p' = name p ∧ brand p' = brand p ∧
          category p' = category p ∧ size_ml p' = size_ml p ∧ price p' = price p ∧
          product_store_id p' = product_store_id p) ∧
   (∀ j, j ≠ pid →
      products (run (update_stock env u pid n) db).2 !! j = products db !! j) ∧
   stores (run (update_stock env u pid n) db).2 = stores db ∧
   sales (run (update_stock env u pid n) db).2 = sales db ∧
   sale_items (run (update_stock env u pid n) db).2 = sale_items db) ∧
  (n ≤ 0 → run (update_stock env u pid n) db = (Redirect "dashboard", db)).
Proof.
  intros Hr Hu Hp Hs Hsel. rewrite update_stock_run.
  rewrite decide_False by (by intros []). rewrite Hsel, Hu.
  rewrite (proj2 (find_product_Some _ _ _ _) (conj Hp Hs)).
  split.
  - intros Hn Hc. rewrite decide_True by lia. rewrite Hc.
    rewrite (stock_set_insert _ _ _ p) by done.
    split_and!; try done.
    + eexists. split; [apply lookup_insert_eq|]. by split_and!.
    + intros j Hj. simpl. by rewrite lookup_insert_ne.
  - intros Hn. by rewrite decide_False by lia.
Qed.

(** C8: a licence update by the superadmin for an existing store sets
    [license_validity] to the date the submitted string parses to; when the
    string does not parse, nothing changes and the answer is the same
    redirect, with no error. *)
Theorem update_license_sets env u sid st str db :
  role u = "superadmin" → stores db !! sid = Some st →
  select_fault env 0 = None →
  (∀ new_date, strptime_ymd str = Some new_date → commit_fault env = None →
     run (update_license env u sid (Some str)) db
     = (Redirect "superadmin_dashboard",
        set_stores db (<[sid := with_license st new_date]> (stores db))) ∧
     (∃ st', stores (run (update_license env u sid (Some str)) db).2 !! sid = Some st' ∧
             license_validity st' = new_date ∧
             store_name st' = store_name st ∧ location st' = location st) ∧
     (∀ j, j ≠ sid →
        stores (run (update_license env u sid (Some str)) db).2 !! j = stores db !! j) ∧
     products (run (update_license env u sid (Some str)) db).2 = products db ∧
     sales (run (update_license env u sid (Some str)) db).2 = sales db ∧
     sale_items (run (update_license env u sid (Some str)) db).2 = sale_items db) ∧
  (strptime_ymd str = None →
     run (update_license env u sid (Some str)) db
     = (Redirect "superadmin_dashboard", db)).
Proof.
  intros Hr Hst Hsel. rewrite update_license_run.
  rewrite decide_False by (by intros []). rewrite Hsel, Hst. simpl.
  split.
  - intros new_date -> Hc. rewrite Hc. split_and!; try done.
    + eexists. split; [apply lookup_insert_eq|]. by split_and!.
    + intros j Hj. simpl. by rewrite lookup_insert_ne.
  - by intros ->.
Qed.

(** C4, as the code has it: a stock update, a bill and a licence update
    keep every [stock_quantity] at 0 or more, and so does the creation of a
    product when the submitted [stock_quantity] is 0 or more; the creation
    stores the submitted number as it is. *)
Theorem stock_nonneg_preserved env u db :
  stock_nonneg db →
  (∀ pid n, stock_nonneg (run (update_stock env u pid n) db).2) ∧
  (∀ items, stock_nonneg (run (process_bill env u items) db).2) ∧
  (∀ sid v, stock_nonneg (run (update_license env u sid v) db).2) ∧
  (∀ m form, 0 ≤ form_stock_quantity form →
             stock_nonneg (run (dashboard env u m form) db).2) ∧
  (∀ form sid, role u = "store" → user_store_id u = Some sid →
               commit_fault env = None →
               products (run (dashboard env u POST form) db).2
                 !! next_id (products db)
               = Some (new_product form sid)).
Proof.
  intros Hdb. split_and!.
  - intros pid n. rewrite update_stock_run.
    repeat (case_match; try done).
    intros id p'. unfold stock_set. simpl. rewrite lookup_alter.
    destruct (decide (pid = id)) as [<-|]; [|apply Hdb].
    destruct (products db !! pid) as [p0|] eqn:Hp0; [|done].
    intros [= <-]. simpl.
    match goal with H : find_product _ _ _ = Some _ |- _ =>
      apply find_product_lookup in H; rewrite Hp0 in H; injection H as -> end.
    specialize (Hdb pid p Hp0). lia.
  - intros items.
    destruct (process_bill_outcome env u items db)
      as [(sid & new_sale & _ & _ & _ & _ & Hok & _ & _ & _ & Happ & _)|[_ ->]]; [|done].
    destruct Happ as (_ & Hlow & _).
    intros pid p'. rewrite Hlow.
    destruct (products db !! pid) as [p0|] eqn:Hp0; [|done].
    intros [= <-]. simpl. specialize (Hdb pid p0 Hp0).
    destruct (requested_cases pid items) as [Hno|Hnamed].
    + rewrite requested_unnamed by done. lia.
    + pose proof (requested_bound db sid items pid p0 Hok Hp0 Hnamed). lia.
  - intros sid v. rewrite update_license_run.
    repeat (case_match; try done).
  - intros m form Hform.
    destruct (decide (role u = "store")) as [Hr|Hr];
      [|by rewrite dashboard_unchanged].
    destruct m.
    + by destruct (dashboard_get_run env u form db) as (r & -> & _).
    + rewrite dashboard_post_run by done.
      repeat (case_match; try done).
      intros id p'. simpl. rewrite lookup_insert.
      destruct (decide _); [|apply Hdb]. by intros [= <-].
  - intros form sid Hr Hu Hc. rewrite dashboard_post_run by done.
    rewrite Hu, Hc. simpl. apply lookup_insert_eq.
Qed.

(** ** Store by store *)

(** C5: what a user of store [a] reads is rows of store [a], and what
    such a user writes leaves the rows of every other store [b] as they
    were.  The product list, the sales list and the dashboard return rows
    of [a] only and change nothing; a stock update, a new product and a
    bill leave the products, the sales with their items, and the store
    record of [b] untouched. *)
Theorem store_isolation env u a b db :
  user_store_id u = Some a → a ≠ b →
  (∃ r, run (get_products env u) db = (r, db) ∧
        ∀ l d, r = Json (ProductList l) 200 → d ∈ l →
          ∃ p, products db !! d_id d = Some p ∧ d = to_dict (d_id d) p ∧
               product_store_id p = a) ∧
  (∃ r, run (sales_handler env u) db = (r, db) ∧
        ∀ rows nm id s, r = RenderSales rows nm → (id, s) ∈ rows →
          sales db !! id = Some s ∧ sale_store_id s = a) ∧
  (∀ form, ∃ r, run (dashboard env u GET form) db = (r, db) ∧
        ∀ rows id p, r = RenderDashboard rows → (id, p) ∈ rows →
          products db !! id = Some p ∧ product_store_id p = a) ∧
  (∀ form, same_rows_of b db (run (dashboard env u POST form) db).2) ∧
  (∀ pid n, same_rows_of b db (run (update_stock env u pid n) db).2) ∧
  (∀ items, same_rows_of b db (run (process_bill env u items) db).2).
Proof.
  intros Hu Hab. split_and!.
  - destruct (get_products_run env u db) as (r & Hrun & Hrows).
    exists r. split; [done|]. intros l d Hl Hd.
    destruct (Hrows l Hl d Hd) as (p & Hp & Hdict & Hs & _).
    exists p. rewrite Hu in Hs. by injection Hs as ->.
  - destruct (sales_run env u db) as (r & Hrun & Hrows).
    exists r. split; [done|]. intros rows nm id s Hr Hin.
    destruct (Hrows rows nm Hr id s Hin) as [Hs Hst].
    rewrite Hu in Hst. by injection Hst as ->.
  - intros form. destruct (dashboard_get_run env u form db) as (r & Hrun & Hrows).
    exists r. split; [done|]. intros rows id p Hr Hin.
    destruct (Hrows rows Hr id p Hin) as [Hp Hs].
    rewrite Hu in Hs. by injection Hs as ->.
  - intros form.
    destruct (decide (role u = "store")) as [Hr|Hr];
      [|rewrite dashboard_unchanged by done; apply same_rows_refl].
    rewrite dashboard_post_run, Hu by done.
    destruct (commit_fault env); [apply same_rows_refl|].
    split_and!; try done. intros id p Hp. simpl. rewrite lookup_insert.
    destruct (decide _) as [<-|]; [|done].
    rewrite next_id_fresh. split; [|done]. intros [= <-]. by destruct Hab.
  - intros pid n. rewrite update_stock_run.
    repeat (case_match; try apply same_rows_refl).
    match goal with H : find_product _ _ _ = Some _ |- _ =>
      rewrite Hu in H; apply find_product_Some in H as [Hp Hs] end.
    eapply stock_set_same_rows; [done|]. by rewrite Hs.
  - intros items.
    destruct (process_bill_outcome env u items db)
      as [(sid & new_sale & _ & Hu' & _ & _ & Hok & _ & _ & _ & Happ & _)|[_ ->]];
      [|apply same_rows_refl].
    rewrite Hu in Hu'. injection Hu' as <-.
    by eapply bill_applied_same_rows.
Qed.

(** ** Quantities of any sign *)

(** C10: the loop has no check that a quantity is positive.  A line on
    a product of the store is accepted whenever its quantity is at most the
    stock the transaction sees, zero and negative quantities included: the
    stock becomes the stock less the quantity, the SaleItem records the
    quantity, and [price * quantity] is added to the total.  So a bill of
    one line with a negative quantity [q] succeeds, raises the stock by
    [|q|], records a SaleItem of quantity [q], and its Sale has the total
    [round(0 + price * q, 2)]. *)
Theorem process_bill_any_sign env sid item p q :
  float_of_int (item_quantity item) = Some q →
  (∀ new_sale k total s,
     select_fault env k = None →
     find_product (item_id item) (Some sid) (pending s) = Some p →
     item_quantity item ≤ stock_quantity p →
     bill_line env (Some sid) new_sale k item total s
     = (Done (inr (float_add total (float_mul (price p) q))),
        {| persisted := persisted s;
           pending := line_effect new_sale item p (pending s) |}) ∧
     stock_quantity
       <$> products (pending (bill_line env (Some sid) new_sale k item total s).2)
           !! item_id item
     = Some (stock_quantity p - item_quantity item) ∧
     sale_items (pending (bill_line env (Some sid) new_sale k item total s).2)
       !! next_id (sale_items (pending s))
     = Some {| sale_id := new_sale; product_id := item_id item;
               quantity := item_quantity item; price_at_sale := price p |}) ∧
  (∀ u db,
     role u = "store" → user_store_id u = Some sid →
     selects_ok env 2 → commit_fault env = None →
     products db !! item_id item = Some p → product_store_id p = sid →
     item_quantity item ≤ stock_quantity p → item_quantity item < 0 →
     ∃ db',
       run (process_bill env u [item]) db
       = (Json (BillOk (next_id (sales db))) 200, db') ∧
       products db' !! item_id item
       = Some (with_stock p (stock_quantity p + Z.abs (item_quantity item))) ∧
       (∃ p', products db' !! item_id item = Some p' ∧
              stock_quantity p' = stock_quantity p + Z.abs (item_quantity item) ∧
              stock_quantity p < stock_quantity p' ∧
              barcode p' = barcode p ∧ name p' = name p ∧ brand p' = brand p ∧
              category p' = category p ∧ size_ml p' = size_ml p ∧
              price p' = price p ∧ product_store_id p' = product_store_id p) ∧
       sale_items db' !! next_id (sale_items db)
       = Some {| sale_id := next_id (sales db); product_id := item_id item;
                 quantity := item_quantity item; price_at_sale := price p |} ∧
       sales db' !! next_id (sales db)
       = Some {| total_amount := round2 (float_add float_zero (float_mul (price p) q));
                 sale_date := now env; sale_store_id := sid |}).
Proof.
  intros Hq. split.
  - intros new_sale k total s Hsel Hp Hle.
    rewrite bill_line_eq, Hsel, Hp, Hq. rewrite decide_False by lia.
    split_and!; [done|..]; cbn [snd pending].
    + rewrite line_effect_products, decide_True by done.
      by rewrite (find_product_lookup _ _ _ _ Hp).
    + rewrite line_effect_sale_items. apply lookup_insert_eq.
  - intros u db Hr Hu Hsel Hc Hp Hs Hle Hneg.
    destruct (process_bill_valid env u sid [item] db) as (db' & Hrun & Happ); try done.
    { by eapply bill_ok_single. }
    { intros it Hit. apply list_elem_of_singleton in Hit as ->. by rewrite Hq. }
    exists db'. split; [done|].
    destruct Happ as (_ & Hlow & _ & _ & sis & total & Hsis & Hsum & Hsales & Hnew & _).
    apply Forall2_cons_inv_l in Hsis as (si & sis' & (p' & Hp' & ->) & Hnil & ->).
    apply Forall2_nil_inv_l in Hnil as ->.
    rewrite Hp in Hp'. injection Hp' as <-.
    simpl in Hsum. rewrite Hq in Hsum. injection Hsum as <-.
    assert (Hrow : products db' !! item_id item
                   = Some (with_stock p (stock_quantity p + Z.abs (item_quantity item)))).
    { rewrite Hlow, Hp. simpl. rewrite decide_True by done. do 2 f_equal. lia. }
    split_and!.
    + done.
    + eexists. split; [exact Hrow|]. simpl. split_and!; try done. lia.
    + specialize (Hnew 0%nat _ eq_refl). by rewrite Z.add_0_r in Hnew.
    + rewrite Hsales. apply lookup_insert_eq.
Qed.

End Properties.

(** * Properties of the rest of the application *)

Section More.
Context {py_float : PyFloat} {py_strptime : PyStrptime}
        {werkzeug : Werkzeug} {py_integer : PyInt}.

(** ** What a request does to the database *)

Lemma run_page_answer (h : M Response) db :
  run_page (answer h) db = (Answer (run h db).1, (run h db).2).
Proof.
  unfold run_page, run, answer, mbind, M_bind.
  by destruct (h (begin db)) as [[r|e] s].
Qed.

Lemma update_stock_effect env u pid n db :
  effect u db (run (update_stock env u pid n) db).2.
Proof.
  rewrite update_stock_run.
  destruct (decide (role u ≠ "store")) as [|Hr]; [by apply effect_none|].
  apply dec_stable in Hr.
  destruct (select_fault env 0); [by apply effect_none|].
  destruct (find_product pid (user_store_id u) db) as [p|] eqn:Hp;
    [|by apply effect_none].
  destruct (decide (n > 0)); [|by apply effect_none].
  destruct (commit_fault env); [by apply effect_none|].
  pose proof (find_product_lookup _ _ _ _ Hp) as Hlook.
  apply (effect_stock u db _ pid p n); try done; [|lia|by apply stock_set_insert].
  unfold find_product in Hp. rewrite Hlook in Hp. by destruct (decide _).
Qed.

Lemma update_license_effect env u sid v db :
  effect u db (run (update_license env u sid v) db).2.
Proof.
  rewrite update_license_run.
  destruct (decide (role u ≠ "superadmin")) as [|Hr]; [by apply effect_none|].
  apply dec_stable in Hr.
  destruct (select_fault env 0); [by apply effect_none|].
  destruct (stores db !! sid) as [st|] eqn:Hst; [|by apply effect_none].
  destruct (v ≫= strptime_ymd) as [d|]; [|by apply effect_none].
  destruct (commit_fault env); [by apply effect_none|].
  by apply (effect_license u db _ sid st d).
Qed.

Lemma dashboard_effect env u m form db :
  effect u db (run (dashboard env u m form) db).2.
Proof.
  destruct (decide (role u = "store")) as [Hr|Hr];
    [|apply effect_none; by apply dashboard_unchanged].
  destruct m.
  - destruct (dashboard_get_run env u form db) as (r & -> & _). by apply effect_none.
  - rewrite dashboard_post_run by done.
    destruct (user_store_id u) as [sid|] eqn:Hu; [|by apply effect_none].
    destruct (commit_fault env); [by apply effect_none|].
    by apply (effect_product u db _ form sid).
Qed.

Lemma process_bill_effect env u items db :
  effect u db (run (process_bill env u items) db).2.
Proof.
  destruct (process_bill_outcome env u items db)
    as [(sid & new_sale & Hr & Hu & Hne & _ & Hok & _ & _ & _ & Happ & _)|[_ Hdb]];
    [|by apply effect_none].
  by apply (effect_bill u db _ env sid items new_sale).
Qed.

Lemma get_products_unchanged env u db : (run (get_products env u) db).2 = db.
Proof. by destruct (get_products_run env u db) as (r & -> & _). Qed.

Lemma sales_unchanged env u db : (run (sales_handler env u) db).2 = db.
Proof. by destruct (sales_run env u db) as (r & -> & _). Qed.

Lemma superadmin_dashboard_unchanged host u db :
  (run_page (superadmin_dashboard host u) db).2 = db.
Proof.
  unfold run_page, superadmin_dashboard, select.
  destruct (decide _); [done|].
  by destruct (select_fault (host_env host) 0).
Qed.

Lemma billing_run u db :
  run_page (billing u) db
  = (if decide (role u ≠ "store") then Answer (Abort 403) else BillingPage, db).
Proof. unfold run_page, billing. by destruct (decide _). Qed.

(** A request changes nothing but the database and the session; what it
    does to the database, it does for the user who is signed in. *)
Lemma serve_effect host req app :
  users (serve host req app).2 = users app ∧
  (database (serve host req app).2 = database app ∨
   ∃ id a, current_user host app = Done (Some (id, a)) ∧
           session_user_id (serve host req app).2 = session_user_id app ∧
           effect (account_user a) (database app) (database (serve host req app).2)).
Proof.
  destruct req; unfold serve, login, login_required, logout;
    destruct (current_user host app) as [[[id a]|]|e] eqn:Hcur;
    try (split; [done|by left]).
  - repeat case_match; (split; [done|by left]).
  - split; [done|]. left. apply superadmin_dashboard_unchanged.
  - split; [done|]. right. exists id, a. split; [done|]. split; [done|].
    unfold on_database. rewrite run_page_answer. apply update_license_effect.
  - split; [done|]. right. exists id, a. split; [done|]. split; [done|].
    unfold on_database. rewrite run_page_answer. apply dashboard_effect.
  - split; [done|]. right. exists id, a. split; [done|]. split; [done|].
    unfold on_database. rewrite run_page_answer. apply update_stock_effect.
  - split; [done|]. left. unfold on_database. by rewrite billing_run.
  - split; [done|]. left. unfold on_database. rewrite run_page_answer.
    apply sales_unchanged.
  - split; [done|]. left. unfold on_database. rewrite run_page_answer.
    apply get_products_unchanged.
  - split; [done|]. right. exists id, a. split; [done|]. split; [done|].
    unfold on_database. rewrite run_page_answer. apply process_bill_effect.
Qed.


(** ** What the effects keep *)

Lemma bill_applied_new_item env sid items db db' new_sale :
  bill_ok db sid items → bill_applied env sid items db db' new_sale →
  ∀ id si, sale_items db' !! id = Some si →
    sale_items db !! id = Some si ∨
    (sale_items db !! id = None ∧ sale_id si = new_sale ∧
     ∃ p, products db !! product_id si = Some p ∧ product_store_id p = sid ∧
          price_at_sale si = price p).
Proof.
  intros Hok (_ & _ & _ & _ & sis & total & Hsis & _ & _ & Hnew & Hold) id si Hsi.
  destruct (decide (next_id (sale_items db) ≤ id
                    < next_id (sale_items db) + Z.of_nat (length sis))) as [Hin|Hout];
    [|left; by rewrite <- (Hold id Hout)].
  right.
  destruct (lookup_lt_is_Some_2 sis (Z.to_nat (id - next_id (sale_items db))))
    as [si' Hsi']; [lia|].
  pose proof (Hnew _ _ Hsi') as Hat.
  replace (next_id (sale_items db) + Z.of_nat (Z.to_nat (id - next_id (sale_items db))))
    with id in Hat by lia.
  rewrite Hat in Hsi. injection Hsi as ->.
  destruct (Forall2_lookup_r _ _ _ _ _ Hsis Hsi') as (it & Hit & p & Hp & ->).
  destruct (Hok _ _ Hit) as (p0 & Hp0 & Hs0 & _).
  rewrite Hp in Hp0. injection Hp0 as <-.
  split_and!; [|done|by exists p].
  destruct (sale_items db !! id) eqn:E; [|done].
  assert (id < next_id (sale_items db)) by (apply next_id_above; eauto). lia.
Qed.

Lemma effect_ledger_kept u db db' : effect u db db' → ledger_kept db db'.
Proof.
  intros [->| pid p n _ _ _ _ -> | form sid _ _ -> | sid st d _ _ ->
         | env sid items new_sale _ _ _ _ Happ]; try done.
  destruct Happ as (_ & _ & _ & Hfresh & sis & total & _ & _ & Hsales & _ & Hold).
  split.
  - intros id s Hs. rewrite Hsales, lookup_insert_ne; [done|]. congruence.
  - intros id si Hsi. rewrite Hold; [done|].
    assert (id < next_id (sale_items db)) by (apply next_id_above; eauto). lia.
Qed.

Lemma effect_catalog_kept u db db' : effect u db db' → catalog_kept db db'.
Proof.
  intros [->| pid p n _ _ Hp _ -> | form sid _ _ -> | sid st d _ _ ->
         | env sid items new_sale _ _ _ _ Happ] id p0 Hp0; simpl.
  - exists p0. split; [done|]. unfold same_but_stock. by rewrite with_stock_same.
  - rewrite lookup_insert. destruct (decide (pid = id)) as [->|].
    + rewrite Hp in Hp0. injection Hp0 as <-. by eexists.
    + exists p0. split; [done|]. unfold same_but_stock. by rewrite with_stock_same.
  - rewrite lookup_insert_ne; [|intros <-; by rewrite next_id_fresh in Hp0].
    exists p0. split; [done|]. unfold same_but_stock. by rewrite with_stock_same.
  - exists p0. split; [done|]. unfold same_but_stock. by rewrite with_stock_same.
  - destruct Happ as (_ & Hlow & _). rewrite Hlow, Hp0. simpl. by eexists.
Qed.

Lemma effect_stores_kept u db db' : effect u db db' → stores_kept db db'.
Proof.
  intros [->| pid p n _ _ _ _ -> | form sid _ _ -> | sid st d _ Hst ->
         | env sid items new_sale _ _ _ _ Happ] id; simpl; try done.
  - rewrite lookup_insert. destruct (decide (sid = id)) as [<-|]; [|done].
    by rewrite Hst.
  - destruct Happ as (-> & _). done.
Qed.

Lemma catalog_kept_reference db db' pid p :
  catalog_kept db db' → products db !! pid = Some p →
  ∃ p', products db' !! pid = Some p' ∧
        product_store_id p' = product_store_id p ∧ price p' = price p.
Proof.
  intros Hkept Hp. destruct (Hkept pid p Hp) as (p' & Hp' & Hsame).
  exists p'. split; [done|]. rewrite Hsame. done.
Qed.

Lemma effect_ledger_wf u db db' : ledger_wf db → effect u db db' → ledger_wf db'.
Proof.
  intros Hwf Heff id si Hsi.
  pose proof (effect_ledger_kept u db db' Heff) as [Hsales _].
  pose proof (effect_catalog_kept u db db' Heff) as Hcat.
  assert (Hold : sale_items db !! id = Some si →
    ∃ s p, sales db' !! sale_id si = Some s ∧ products db' !! product_id si = Some p ∧
           product_store_id p = sale_store_id s ∧ price_at_sale si = price p).
  { intros Hsi0. destruct (Hwf id si Hsi0) as (s & p & Hs & Hp & Hst & Hpr).
    destruct (catalog_kept_reference db db' _ p Hcat Hp) as (p' & Hp' & Hst' & Hpr').
    exists s, p'. split_and!; [by apply Hsales|done|congruence|congruence]. }
  destruct Heff as [->| pid p n _ _ _ _ -> | form sid _ _ -> | sid st d _ _ ->
         | env sid items new_sale _ _ _ Hok Happ]; try (by apply Hold).
  destruct (bill_applied_new_item env sid items db db' new_sale Hok Happ id si Hsi)
    as [Hsi0|(_ & Hnew & p & Hp & Hst & Hpr)]; [by apply Hold|].
  destruct (catalog_kept_reference db db' _ p Hcat Hp) as (p' & Hp' & Hst' & Hpr').
  destruct Happ as (_ & _ & _ & _ & sis & total & _ & _ & Hsa & _).
  eexists _, p'. split_and!; [by rewrite Hnew, Hsa, lookup_insert_eq|done|..].
  - simpl. congruence.
  - congruence.
Qed.

Lemma effect_sales_have_items u db db' :
  sales_have_items db → effect u db db' → sales_have_items db'.
Proof.
  intros Hhave Heff id s Hs.
  pose proof (effect_ledger_kept u db db' Heff) as [_ Hitems].
  assert (Hold : sales db !! id = Some s →
            ∃ j si, sale_items db' !! j = Some si ∧ sale_id si = id).
  { intros Hs0. destruct (Hhave id s Hs0) as (j & si & Hsi & Hid).
    exists j, si. split; [by apply Hitems|done]. }
  destruct Heff as [->| pid p n _ _ _ _ -> | form sid _ _ -> | sid st d _ _ ->
         | env sid items new_sale _ _ Hne _ Happ]; try (by apply Hold).
  destruct Happ as (_ & _ & _ & Hfresh & sis & total & Hsis & _ & Hsa & Hnew & _).
  rewrite Hsa, lookup_insert in Hs.
  destruct (decide (new_sale = id)) as [<-|]; [|by apply Hold].
  destruct items as [|item items]; [done|].
  apply Forall2_cons_inv_l in Hsis as (si & sis' & (p & _ & ->) & _ & ->).
  eexists _, _. split; [apply (Hnew 0%nat); done|done].
Qed.

(** ** What a command does *)

Lemma create_store_run host n l v db :
  run_command (create_store host n l v) db =
  match strptime_ymd v with
  | None => (Print ("❌ Error creating store: " +:+ value_error host v), db)
  | Some d =>
      match store_named n (stores db) with
      | Some _ => (Print ("❌ Error creating store: " +:+ unique_msg host), db)
      | None =>
          match commit_fault (host_env host) with
          | Some e => (Print ("❌ Error creating store: " +:+ e), db)
          | None =>
              (Print match select_fault (host_env host) 0 with
                     | Some e => "❌ Error creating store: " +:+ e
                     | None => "✅ Store '" +:+ n +:+ "' created with ID: "
                               +:+ py_str (next_id (stores db))
                     end,
               set_stores db
                 (<[next_id (stores db) :=
                      {| store_name := n; location := Some l; license_validity := d |}]>
                    (stores db)))
          end
      end
  end.
Proof.
  unfold run_command, create_store, try_except.
  destruct (strptime_ymd v) as [d|]; [|done].
  unfold mbind, M_bind, get_pending, add_store, set_pending, mret, M_ret, begin. simpl.
  destruct (store_named n (stores db)); [done|].
  unfold commit. destruct (commit_fault (host_env host)); [done|]. simpl.
  unfold refresh, select, mbind, M_bind, raise.
  destruct (select_fault (host_env host) 0); [done|].
  unfold get_pending, mret, M_ret. simpl. by rewrite lookup_insert_eq.
Qed.

Lemma rows_where_head_None {A} (P : Z → A → bool) (t : gmap Z A) :
  head (rows_where P t) = None → ∀ id x, t !! id = Some x → P id x = false.
Proof.
  intros Hhead id x Hx. destruct (P id x) eqn:E; [|done].
  assert (Hin : (id, x) ∈ rows_where P t) by by apply rows_where_elem.
  destruct (rows_where P t); [by apply elem_of_nil in Hin|done].
Qed.

Lemma rows_where_head_Some {A} (P : Z → A → bool) (t : gmap Z A) id x :
  head (rows_where P t) = Some (id, x) → t !! id = Some x ∧ P id x = true.
Proof.
  intros Hhead. apply rows_where_elem.
  destruct (rows_where P t) as [|kv l]; [done|].
  injection Hhead as ->. apply elem_of_cons. by left.
Qed.

Lemma store_named_None n t :
  store_named n t = None → ∀ id st, t !! id = Some st → store_name st ≠ n.
Proof.
  intros Hnone id st Hst Hn.
  pose proof (rows_where_head_None _ _ Hnone id st Hst) as Hb.
  simpl in Hb. by rewrite bool_decide_eq_false in Hb.
Qed.

Lemma find_user_None uname t :
  find_user uname t = None →
  ∀ id a, t !! id = Some a → username (account_user a) ≠ uname.
Proof.
  intros Hnone id a Ha Hn.
  pose proof (rows_where_head_None _ _ Hnone id a Ha) as Hb.
  simpl in Hb. by rewrite bool_decide_eq_false in Hb.
Qed.

Lemma find_user_Some uname t id a :
  find_user uname t = Some (id, a) →
  t !! id = Some a ∧ username (account_user a) = uname.
Proof.
  intros Hsome. destruct (rows_where_head_Some _ _ _ _ Hsome) as [Ha Hb].
  split; [done|]. simpl in Hb. by rewrite bool_decide_eq_true in Hb.
Qed.

Lemma find_user_unique t id a :
  usernames_unique t → t !! id = Some a →
  find_user (username (account_user a)) t = Some (id, a).
Proof.
  intros Huniq Ha.
  destruct (find_user (username (account_user a)) t) as [[j b]|] eqn:E.
  - destruct (find_user_Some _ _ _ _ E) as [Hb Hn].
    assert (j = id) as -> by (by apply (Huniq j id b a)).
    congruence.
  - by destruct (find_user_None _ _ E id a Ha).
Qed.

(** The account [create_user] makes of its arguments. *)
Lemma create_user_cases host uname password role_ store_id t :
  (create_user host uname password role_ store_id t).2 = t ∨
  (find_user uname t = None ∧
   ((role_ = "superadmin" ∧ store_id = 0) ∨
    ((role_ = "admin" ∨ role_ = "store") ∧ store_id ≠ 0)) ∧
   create_user host uname password role_ store_id t =
   (Print ("✅ User '" +:+ uname +:+ "' with role '" +:+ role_
           +:+ "' created successfully."),
    <[next_id t :=
        {| account_user :=
             {| username := uname; role := role_;
                user_store_id := if decide (store_id ≠ 0) then Some store_id else None |};
           password_hash := generate_password_hash (salt host) password |}]> t)).
Proof.
  unfold create_user.
  destruct (decide (role_ ≠ "superadmin" ∧ role_ ≠ "admin" ∧ role_ ≠ "store"))
    as [|Hrole]; [by left|].
  destruct (decide ((role_ = "admin" ∨ role_ = "store") ∧ _)) as [|Hneed]; [by left|].
  destruct (decide (role_ = "superadmin" ∧ _)) as [|Hroot]; [by left|].
  destruct (find_user uname t) eqn:Hfind; [by left|].
  destruct (commit_fault (host_env host)); [by left|].
  right. split; [done|]. split; [|done].
  destruct (decide (store_id ≠ 0)) as [Hs|Hs].
  - right. split; [|done].
    destruct (decide (role_ = "admin")); [by left|].
    destruct (decide (role_ = "store")); [by right|].
    destruct (decide (role_ = "superadmin")); [|tauto].
    destruct Hroot. by split.
  - apply dec_stable in Hs. left. split; [|done].
    destruct (decide (role_ = "superadmin")); [done|].
    destruct Hneed. split; [|done].
    destruct (decide (role_ = "admin")); [by left|].
    destruct (decide (role_ = "store")); [by right|]. tauto.
Qed.

(** ** Runs *)

Lemma step_users he app :
  users (step he app) = users app ∨
  ∃ host uname password role_ store_id,
    he.2 = Cli (CreateUser uname password role_ store_id) ∧ he.1 = host ∧
    find_user uname (users app) = None ∧
    ((role_ = "superadmin" ∧ store_id = 0) ∨
     ((role_ = "admin" ∨ role_ = "store") ∧ store_id ≠ 0)) ∧
    users (step he app) =
    <[next_id (users app) :=
        {| account_user :=
             {| username := uname; role := role_;
                user_store_id := if decide (store_id ≠ 0) then Some store_id else None |};
           password_hash := generate_password_hash (salt host) password |}]> (users app).
Proof.
  destruct he as [host [req|[n l v|uname password role_ store_id]]]; unfold step; simpl.
  - left. apply serve_effect.
  - by left.
  - destruct (create_user_cases host uname password role_ store_id (users app))
      as [Hsame|(Hfind & Hrole & Heq)]; [by left|].
    right. exists host, uname, password, role_, store_id.
    split_and!; try done. by rewrite Heq.
Qed.

Lemma step_database he app :
  database (step he app) = database app ∨
  (∃ u, effect u (database app) (database (step he app))) ∨
  (∃ n l d, store_named n (stores (database app)) = None ∧
     database (step he app) =
     set_stores (database app)
       (<[next_id (stores (database app)) :=
            {| store_name := n; location := Some l; license_validity := d |}]>
          (stores (database app)))).
Proof.
  destruct he as [host [req|[n l v|uname password role_ store_id]]]; unfold step; simpl.
  - destruct (serve_effect host req app) as [_ [Hsame|(id & a & _ & _ & Heff)]];
      [by left|]. right. left. by exists (account_user a).
  - rewrite create_store_run.
    destruct (strptime_ymd v) as [d|]; [|by left].
    destruct (store_named n _) eqn:Hn; [by left|].
    destruct (commit_fault _); [by left|].
    right. right. by exists n, l, d.
  - by left.
Qed.

Lemma steps_snoc l he app : steps (l ++ [he]) app = step he (steps l app).
Proof. unfold steps. by rewrite foldl_app. Qed.

Lemma steps_invariant (I : App → Prop) :
  (∀ he app, I app → I (step he app)) →
  ∀ l app, I app → I (steps l app).
Proof.
  intros Hstep l. induction l as [|he l IH]; intros app Happ; [done|].
  simpl. apply IH. by apply Hstep.
Qed.

(** ** Signing in and out *)

Lemma serve_anonymous host req app :
  current_user host app = Done None →
  (∀ m uname password, req ≠ Login m uname password) →
  serve host req app = (Answer (Redirect "login"), app).
Proof.
  intros Hcur Hreq.
  destruct req; unfold serve, login_required; rewrite ?Hcur; try done.
  by destruct (Hreq method uname password).
Qed.

Lemma load_user_str host t id :
  load_fault host = None →
  load_user host t (py_str id) = Done ((λ a, (id, a)) <$> t !! id).
Proof. intros Hload. unfold load_user. by rewrite py_int_str, Hload. Qed.

Lemma login_run host uname password app id a :
  current_user host app = Done None → lookup_fault host = None →
  find_user uname (users app) = Some (id, a) →
  check_password_hash (password_hash a) password = true →
  serve host (Login POST uname password) app
  = (Answer (landing (role (account_user a))), login_user id app).
Proof.
  intros Hcur Hlook Hfind Hcheck. unfold serve, login.
  by rewrite Hcur, Hlook, Hfind, Hcheck.
Qed.

(** X1: a client that is not signed in gets nothing but the login page:
    every request other than [login] is answered with a redirect to [login]
    and changes nothing. *)
Theorem anonymous_sent_to_login host req app :
  current_user host app = Done None →
  (∀ m uname password, req ≠ Login m uname password) →
  serve host req app = (Answer (Redirect "login"), app).
Proof.
  intros Hanon Hreq.
  destruct req as [m uname password| | | | | | | | |];
    [by destruct (Hreq m uname password)|..];
    unfold serve, login_required; by rewrite Hanon.
Qed.

(** X2: [login] changes nothing, or it is a POST of a client that is not
    signed in, with the username of an account and a password that the hash
    of that account accepts, and it signs that account in. *)
Theorem login_needs_credentials host m uname password app :
  (serve host (Login m uname password) app).2 = app ∨
  ∃ id a, m = POST ∧ current_user host app = Done None ∧
          users app !! id = Some a ∧ username (account_user a) = uname ∧
          check_password_hash (password_hash a) password = true ∧
          serve host (Login m uname password) app
          = (Answer (landing (role (account_user a))), login_user id app).
Proof.
  unfold serve, login.
  destruct (current_user host app) as [[[id a]|]|e] eqn:Hcur; [by left| |by left].
  destruct m; [by left|].
  destruct (lookup_fault host); [by left|].
  destruct (find_user uname (users app)) as [[id a]|] eqn:Hfind; [|by left].
  destruct (check_password_hash (password_hash a) password) eqn:Hcheck; [|by left].
  destruct (find_user_Some _ _ _ _ Hfind) as [Ha Hn].
  right. by exists id, a.
Qed.

(** X3: with the password of an account, a client that is not signed in
    is signed in by [login] and sent to the page of the role; from then on
    the current user is that account. *)
Theorem login_signs_in host id a password app :
  usernames_unique (users app) → users app !! id = Some a →
  check_password_hash (password_hash a) password = true →
  session_user_id app = None →
  lookup_fault host = None → load_fault host = None →
  serve host (Login POST (username (account_user a)) password) app
  = (Answer (landing (role (account_user a))), login_user id app) ∧
  current_user host (login_user id app) = Done (Some (id, a)).
Proof.
  intros Huniq Ha Hcheck Hanon Hlook Hload. split.
  - apply login_run; try done.
    + unfold current_user. by rewrite Hanon.
    + by apply find_user_unique.
  - unfold current_user, login_user. simpl. rewrite load_user_str by done.
    by rewrite Ha.
Qed.

(** X4: [logout] ends the session of the user who is signed in: it
    answers with a redirect to [login], and afterwards every request other
    than [login] is sent to the login page and changes nothing. *)
Theorem logout_ends_session host app id a :
  current_user host app = Done (Some (id, a)) →
  serve host Logout app = (Answer (Redirect "login"), logout_user app) ∧
  database (logout_user app) = database app ∧
  users (logout_user app) = users app ∧
  ∀ host' req, (∀ m uname password, req ≠ Login m uname password) →
    serve host' req (logout_user app) = (Answer (Redirect "login"), logout_user app).
Proof.
  intros Hcur. split_and!; try done.
  - unfold serve, login_required. by rewrite Hcur.
  - intros host' req Hreq. by apply serve_anonymous.
Qed.

(** X5: the page [login] sends a user to is a page of the application,
    and its view refuses the user (403) exactly when the role is none of
    superadmin, admin and store. *)
Theorem landing_page_accepts host app id a :
  current_user host app = Done (Some (id, a)) →
  ∃ endpoint req,
    landing (role (account_user a)) = Redirect endpoint ∧
    follow endpoint = Some req ∧
    ((serve host req app).1 = Answer (Abort 403) ↔
     role (account_user a) ≠ "superadmin" ∧ role (account_user a) ≠ "admin" ∧
     role (account_user a) ≠ "store").
Proof.
  intros Hcur. unfold landing.
  destruct (decide (role (account_user a) = "superadmin")) as [Hr|Hr].
  { exists "superadmin_dashboard", SuperadminDashboard. split_and!; try done.
    unfold serve, login_required, on_database. rewrite Hcur.
    unfold run_page, superadmin_dashboard, select.
    destruct (decide _) as [|_]; [done|].
    split; [|tauto].
    by destruct (select_fault (host_env host) 0). }
  destruct (decide (role (account_user a) = "admin")) as [Hr'|Hr'].
  { exists "sales", Sales. split_and!; try done.
    unfold serve, login_required, on_database. rewrite Hcur, run_page_answer.
    split; [|tauto]. simpl. unfold run, sales_handler, select.
    destruct (decide _) as [|_]; [done|].
    destruct (select_fault (host_env host) 0); [done|].
    unfold mbind, M_bind, get_pending, mret, M_ret. simpl.
    destruct (select_fault (host_env host) 1); [done|]. simpl.
    by destruct (option_bind _ _ _ _). }
  exists "billing", Billing. split_and!; try done.
  unfold serve, login_required, on_database. rewrite Hcur, billing_run. simpl.
  destruct (decide (role (account_user a) ≠ "store")) as [|Hs]; [done|].
  apply dec_stable in Hs. split; [done|tauto].
Qed.

(** ** Users and stores *)

Lemma step_accounts_wf he app :
  accounts_wf (users app) → accounts_wf (users (step he app)).
Proof.
  intros Hwf.
  destruct (step_users he app)
    as [->|(host & uname & pw & r & sid & _ & _ & _ & Hrole & ->)]; [done|].
  intros id a. rewrite lookup_insert.
  destruct (decide (next_id (users app) = id)) as [_|_]; [|by apply Hwf].
  intros [= <-]. simpl.
  destruct Hrole as [[-> ->]|[Hr Hs]]; [by left|].
  right. split; [done|]. exists sid. by rewrite decide_True.
Qed.

Lemma step_usernames_unique he app :
  usernames_unique (users app) → usernames_unique (users (step he app)).
Proof.
  intros Huniq.
  destruct (step_users he app)
    as [->|(host & uname & pw & r & sid & _ & _ & Hfree & _ & ->)]; [done|].
  pose proof (find_user_None _ _ Hfree) as Hnone.
  intros i j a b. rewrite !lookup_insert.
  destruct (decide (next_id (users app) = i)) as [<-|Hi],
           (decide (next_id (users app) = j)) as [<-|Hj]; try done.
  - intros [= <-] Hb Hn. simpl in Hn. by destruct (Hnone j b Hb).
  - intros Ha [= <-] Hn. simpl in Hn. by destruct (Hnone i a Ha).
  - apply Huniq.
Qed.

Lemma step_store_names_unique he app :
  store_names_unique (stores (database app)) →
  store_names_unique (stores (database (step he app))).
Proof.
  intros Huniq.
  destruct (step_database he app) as [->|[[u Heff]|(n & l & d & Hfree & ->)]]; [done|..].
  - pose proof (effect_stores_kept _ _ _ Heff) as Hkept.
    intros i j a b Ha Hb Hn.
    pose proof (Hkept i) as Hi. pose proof (Hkept j) as Hj.
    rewrite Ha in Hi. rewrite Hb in Hj. simpl in Hi, Hj.
    destruct (stores (database app) !! i) as [a0|] eqn:Ha0; [|done].
    destruct (stores (database app) !! j) as [b0|] eqn:Hb0; [|done].
    simpl in Hi, Hj. apply (Huniq i j a0 b0); [done..|]. congruence.
  - pose proof (store_named_None _ _ Hfree) as Hnone.
    intros i j a b. simpl. rewrite !lookup_insert.
    destruct (decide (next_id (stores (database app)) = i)) as [<-|Hi],
             (decide (next_id (stores (database app)) = j)) as [<-|Hj]; try done.
    + intros [= <-] Hb Hn. simpl in Hn. by destruct (Hnone j b Hb).
    + intros Ha [= <-] Hn. simpl in Hn. by destruct (Hnone i a Ha).
    + apply Huniq.
Qed.

Lemma steps_users_kept l app :
  Forall (λ he, ∀ uname password role_ store_id,
                  he.2 ≠ Cli (CreateUser uname password role_ store_id)) l →
  users (steps l app) = users app.
Proof.
  intros Hl. revert app. induction Hl as [|he l Hhe _ IH]; intros app; [done|].
  simpl. rewrite IH.
  destruct (step_users he app)
    as [Hsame|(host & uname & pw & r & sid & Hcmd & _)]; [done|].
  by destruct (Hhe uname pw r sid).
Qed.

(** X6: the accounts stay well formed on every run of requests and
    commands: every account has one of the three roles, a superadmin has no
    store, an admin and a store user have one, and no two accounts have
    the same username.  Only [create_user] changes the table of users: a
    run without that command leaves the table as it was, and at every point
    of a run a step leaves the table as it is or is a [create_user] that
    adds one account, under the next identifier, with the username, the
    role and the store given and a hash of the password given. *)
Theorem accounts_stay_well_formed l app :
  accounts_wf (users app) → usernames_unique (users app) →
  accounts_wf (users (steps l app)) ∧ usernames_unique (users (steps l app)) ∧
  (Forall (λ he, ∀ uname password role_ store_id,
                   he.2 ≠ Cli (CreateUser uname password role_ store_id)) l →
   users (steps l app) = users app) ∧
  ∀ he,
    users (step he (steps l app)) = users (steps l app) ∨
    ∃ uname password role_ store_id,
      he.2 = Cli (CreateUser uname password role_ store_id) ∧
      users (steps l app) !! next_id (users (steps l app)) = None ∧
      (∀ id a, users (steps l app) !! id = Some a →
               username (account_user a) ≠ uname) ∧
      users (step he (steps l app)) =
      <[next_id (users (steps l app)) :=
          {| account_user :=
               {| username := uname; role := role_;
                  user_store_id :=
                    if decide (store_id ≠ 0) then Some store_id else None |};
             password_hash := generate_password_hash (salt he.1) password |}]>
        (users (steps l app)).
Proof.
  intros Hwf Huniq.
  assert (Hinv : accounts_wf (users (steps l app)) ∧
                 usernames_unique (users (steps l app))).
  { apply (steps_invariant
             (λ app, accounts_wf (users app) ∧ usernames_unique (users app)));
      [|done].
    intros he app' [Hwf' Huniq']. split.
    - by apply step_accounts_wf.
    - by apply step_usernames_unique. }
  destruct Hinv as [Hwf' Huniq']. split_and!; [done|done|apply steps_users_kept|].
  intros he.
  destruct (step_users he (steps l app))
    as [Hsame|(host & uname & pw & r & sid & Hcmd & Hhost & Hfree & _ & Heq)];
    [by left|].
  right. exists uname, pw, r, sid. split_and!; [done|apply next_id_fresh| |].
  - by apply find_user_None.
  - by rewrite Hhost.
Qed.

(** X7: a user that [create_user] has added can sign in with the
    password given to the command. *)
Theorem created_user_signs_in host host' uname password role_ store_id app :
  users (execute host (CreateUser uname password role_ store_id) app).2 ≠ users app →
  session_user_id app = None → lookup_fault host' = None →
  let app' := (execute host (CreateUser uname password role_ store_id) app).2 in
  serve host' (Login POST uname password) app'
  = (Answer (landing role_), login_user (next_id (users app)) app').
Proof.
  intros Hnew Hanon Hlook app'. subst app'. simpl in *.
  destruct (create_user_cases host uname password role_ store_id (users app))
    as [Hsame|(Hfree & _ & Heq)]; [done|].
  rewrite Heq. simpl.
  set (a := {| account_user := _; password_hash := _ |}).
  change (Answer (landing role_)) with (Answer (landing (role (account_user a)))).
  apply login_run; try done.
  - unfold current_user. simpl. by rewrite Hanon.
  - simpl.
    destruct (find_user uname (<[next_id (users app) := a]> (users app)))
      as [[j b]|] eqn:E.
    + destruct (find_user_Some _ _ _ _ E) as [Hb Hn].
      rewrite lookup_insert in Hb.
      destruct (decide (next_id (users app) = j)) as [<-|]; [congruence|].
      by destruct (find_user_None _ _ Hfree j b Hb).
    + destruct (find_user_None _ _ E (next_id (users app)) a); [|done].
      by rewrite lookup_insert_eq.
  - apply check_generate.
Qed.

(** X8: [create_store] ends with a printed line, never with a
    traceback, and touches nothing but the table of stores.  It leaves the
    database as it was and prints an error, or the validity is a date, no
    store has the name, and exactly one store is added, under the next
    identifier, with the name, the location and that date. *)
Theorem create_store_adds_one_store host name_ location_ validity app :
  let r := execute host (CreateStore name_ location_ validity) app in
  users r.2 = users app ∧ session_user_id r.2 = session_user_id app ∧
  ((∃ e, r.1 = Print ("❌ Error creating store: " +:+ e) ∧ r.2 = app) ∨
   (∃ d line,
      strptime_ymd validity = Some d ∧
      store_named name_ (stores (database app)) = None ∧
      r.1 = Print line ∧
      database r.2 =
      set_stores (database app)
        (<[next_id (stores (database app)) :=
             {| store_name := name_; location := Some location_;
                license_validity := d |}]> (stores (database app))))).
Proof.
  intros r. subst r. unfold execute. rewrite create_store_run.
  assert (Hid : with_database app (database app) = app) by by destruct app.
  destruct (strptime_ymd validity) as [d|]; cbn [fst snd];
    [|split_and!; try done; left; eexists; by rewrite Hid].
  destruct (store_named name_ _) eqn:Hn; cbn [fst snd];
    [split_and!; try done; left; eexists; by rewrite Hid|].
  destruct (commit_fault _); cbn [fst snd];
    [split_and!; try done; left; eexists; by rewrite Hid|].
  split_and!; try done. right. by eexists d, _.
Qed.

(** X9: no two stores have the same name, on every run of requests and
    commands. *)
Theorem store_names_stay_unique l app :
  store_names_unique (stores (database app)) →
  store_names_unique (stores (database (steps l app))).
Proof.
  apply (steps_invariant (λ app, store_names_unique (stores (database app)))).
  apply step_store_names_unique.
Qed.

(** ** The listings *)

Lemma rows_where_NoDup {A} (P : Z → A → bool) (t : gmap Z A) :
  NoDup (rows_where P t).*1.
Proof.
  unfold rows_where.
  apply (sublist_NoDup _ (map_to_list t).*1); [apply NoDup_fst_map_to_list|].
  apply fmap_sublist, sublist_filter.
Qed.

Lemma name_le_total : Total name_le.
Proof. intros a b. apply String.leb_total. Qed.

Lemma date_desc_total : Total date_desc.
Proof. intros a b. unfold date_desc. lia. Qed.

Lemma date_desc_trans : Transitive date_desc.
Proof. intros a b c. unfold date_desc. lia. Qed.

Lemma license_order_total : Total license_order.
Proof. intros a b. unfold license_order, date_le. lia. Qed.

Lemma license_order_trans : Transitive license_order.
Proof. intros a b c. unfold license_order, date_le. lia. Qed.

(** X10: the superadmin page lists every store exactly once, in the
    order of the licence dates, earliest first, with the date of the day,
    and changes nothing. *)
Theorem superadmin_page_lists_stores host u db :
  role u = "superadmin" → select_fault (host_env host) 0 = None →
  ∃ rows,
    run_page (superadmin_dashboard host u) db = (SuperadminPage rows (today host), db) ∧
    StronglySorted license_order rows ∧ NoDup rows.*1 ∧
    ∀ id st, (id, st) ∈ rows ↔ stores db !! id = Some st.
Proof.
  intros Hr Hsel. eexists. split_and!.
  - unfold run_page, superadmin_dashboard, select.
    rewrite decide_False by (intros H; by apply H). by rewrite Hsel.
  - pose proof license_order_total. pose proof license_order_trans.
    apply StronglySorted_merge_sort; apply _.
  - rewrite merge_sort_Permutation. apply NoDup_fst_map_to_list.
  - intros id st. rewrite merge_sort_Permutation. apply elem_of_map_to_list.
Qed.

(** X11: for a store user and an admin, [get_products] answers with the
    products of their store that have a stock above 0, each exactly once, as
    [to_dict] renders them, and nothing else. *)
Theorem get_products_lists_stock env u db :
  role u = "store" ∨ role u = "admin" → select_fault env 0 = None →
  ∃ l,
    run (get_products env u) db = (Json (ProductList l) 200, db) ∧
    NoDup (d_id <$> l) ∧
    ∀ d, d ∈ l ↔
      ∃ p, products db !! d_id d = Some p ∧ d = to_dict (d_id d) p ∧
           Some (product_store_id p) = user_store_id u ∧ 0 < stock_quantity p.
Proof.
  intros Hr Hsel. eexists. split_and!.
  - unfold run, get_products, select.
    rewrite decide_False by (intros [? ?]; by destruct Hr). by rewrite Hsel.
  - rewrite <- list_fmap_compose.
    erewrite (list_fmap_ext _ fst); [apply rows_where_NoDup|]. by intros ? [id p] ?.
  - intros d. rewrite list_elem_of_fmap. split.
    + intros ([id p] & -> & Hin). apply rows_where_elem in Hin as [Hp Hb].
      apply andb_true_iff in Hb as [Hs Hq].
      rewrite bool_decide_eq_true in Hs. rewrite bool_decide_eq_true in Hq.
      exists p. simpl. split_and!; [done..|lia].
    + intros (p & Hp & Hd & Hs & Hq). exists (d_id d, p). split; [done|].
      apply rows_where_elem. split; [done|].
      apply andb_true_iff. rewrite !bool_decide_eq_true. split; [done|lia].
Qed.

(** X12: for the admin of a store, [sales] shows the sales of that store,
    each exactly once, newest first, under the name of the store, and changes
    nothing. *)
Theorem sales_lists_store_sales env u db sid st :
  role u = "admin" → user_store_id u = Some sid → stores db !! sid = Some st →
  selects_ok env 2 →
  ∃ rows,
    run (sales_handler env u) db = (RenderSales rows (store_name st), db) ∧
    StronglySorted date_desc rows ∧ NoDup rows.*1 ∧
    ∀ id s, (id, s) ∈ rows ↔ sales db !! id = Some s ∧ sale_store_id s = sid.
Proof.
  intros Hr Hu Hst Hsel.
  exists (merge_sort date_desc
            (rows_where (λ _ s, bool_decide (Some (sale_store_id s) = user_store_id u))
                        (sales db))).
  split_and!.
  - unfold run, sales_handler, select.
    rewrite decide_False by (intros H; by apply H).
    rewrite (Hsel 0%nat), (Hsel 1%nat) by lia.
    unfold mbind, M_bind, get_pending, mret, M_ret. simpl.
    rewrite Hu. simpl. by rewrite Hst.
  - pose proof date_desc_total. pose proof date_desc_trans.
    apply StronglySorted_merge_sort; apply _.
  - rewrite merge_sort_Permutation. apply rows_where_NoDup.
  - intros id s. rewrite merge_sort_Permutation, rows_where_elem.
    rewrite bool_decide_eq_true, Hu. split; intros [? ?]; split; congruence.
Qed.

(** X13: for a store user and an admin, the dashboard shows the products
    of their store, in stock or not, each exactly once, in the order of the
    names, and changes nothing. *)
Theorem dashboard_lists_products env u form db :
  role u ≠ "superadmin" → select_fault env 0 = None →
  ∃ rows,
    run (dashboard env u GET form) db = (RenderDashboard rows, db) ∧
    Sorted name_le rows ∧ NoDup rows.*1 ∧
    ∀ id p, (id, p) ∈ rows ↔
      products db !! id = Some p ∧ Some (product_store_id p) = user_store_id u.
Proof.
  intros Hr Hsel. eexists. split_and!.
  - unfold run, dashboard, select. rewrite decide_False by done. by rewrite Hsel.
  - pose proof name_le_total. apply Sorted_merge_sort; apply _.
  - rewrite merge_sort_Permutation. apply rows_where_NoDup.
  - intros id p. rewrite merge_sort_Permutation, rows_where_elem.
    by rewrite bool_decide_eq_true.
Qed.

(** ** What every run keeps *)

Lemma same_but_stock_refl p : same_but_stock p p.
Proof. unfold same_but_stock. by rewrite with_stock_same. Qed.

Lemma same_but_stock_trans p q r :
  same_but_stock p q → same_but_stock q r → same_but_stock p r.
Proof. unfold same_but_stock. intros -> ->. done. Qed.

Lemma nothing_lost_refl db : nothing_lost db db.
Proof.
  split_and!.
  - intros id p Hp. exists p. split; [done|apply same_but_stock_refl].
  - done.
  - intros id st Hst. by exists st.
Qed.

Lemma nothing_lost_trans db1 db2 db3 :
  nothing_lost db1 db2 → nothing_lost db2 db3 → nothing_lost db1 db3.
Proof.
  intros (Hc1 & [Hs1 Hi1] & Hg1) (Hc2 & [Hs2 Hi2] & Hg2). split_and!.
  - intros id p Hp. destruct (Hc1 id p Hp) as (q & Hq & Hpq).
    destruct (Hc2 id q Hq) as (r & Hr & Hqr).
    exists r. split; [done|]. by apply (same_but_stock_trans p q r).
  - split; [intros id s Hs; by apply Hs2, Hs1|intros id si Hsi; by apply Hi2, Hi1].
  - intros id st Hst. destruct (Hg1 id st Hst) as (st2 & Hst2 & Hn2 & Hl2).
    destruct (Hg2 id st2 Hst2) as (st3 & Hst3 & Hn3 & Hl3).
    exists st3. split_and!; [done|congruence..].
Qed.

Lemma step_nothing_lost he app : nothing_lost (database app) (database (step he app)).
Proof.
  destruct (step_database he app) as [->|[[u Heff]|(n & l & d & Hfree & ->)]].
  - apply nothing_lost_refl.
  - split_and!.
    + by apply (effect_catalog_kept u).
    + by apply (effect_ledger_kept u).
    + pose proof (effect_stores_kept _ _ _ Heff) as Hkept.
      intros id st Hst. pose proof (Hkept id) as Hid. rewrite Hst in Hid.
      destruct (stores (database (step he app)) !! id) as [st'|]; [|done].
      exists st'. simpl in Hid. split; [done|]. split; congruence.
  - split_and!.
    + intros id p Hp. exists p. split; [done|apply same_but_stock_refl].
    + done.
    + intros id st Hst. exists st. split; [|done]. simpl.
      rewrite lookup_insert_ne; [done|]. intros <-. by rewrite next_id_fresh in Hst.
Qed.

(** X14: no run of requests and commands deletes anything: every
    product is still there with its name, price and store, changed at most in
    its stock; every Sale and every SaleItem is still there as it was
    recorded; every store is still there with its name and location. *)
Theorem nothing_is_deleted l app :
  nothing_lost (database app) (database (steps l app)).
Proof.
  revert app. induction l as [|he l IH]; intros app; [apply nothing_lost_refl|].
  simpl. eapply nothing_lost_trans; [apply (step_nothing_lost he)|apply IH].
Qed.

Lemma step_ledger_wf he app :
  ledger_wf (database app) → ledger_wf (database (step he app)).
Proof.
  intros Hwf.
  destruct (step_database he app) as [->|[[u Heff]|(n & l & d & Hfree & ->)]];
    [done| |done].
  by apply (effect_ledger_wf u (database app)).
Qed.

Lemma step_sales_have_items he app :
  sales_have_items (database app) → sales_have_items (database (step he app)).
Proof.
  intros Hhave.
  destruct (step_database he app) as [->|[[u Heff]|(n & l & d & Hfree & ->)]];
    [done| |done].
  by apply (effect_sales_have_items u (database app)).
Qed.

(** X15: the ledger stays consistent on every run of requests and
    commands: every SaleItem belongs to a Sale and names a product of the
    store of that Sale, at the price the product has; and every Sale has a
    SaleItem. *)
Theorem ledger_stays_consistent l app :
  ledger_wf (database app) → sales_have_items (database app) →
  ledger_wf (database (steps l app)) ∧ sales_have_items (database (steps l app)).
Proof.
  intros Hwf Hhave.
  apply (steps_invariant
           (λ app, ledger_wf (database app) ∧ sales_have_items (database app)));
    [|done].
  intros he app' [Hwf' Hhave']. split.
  - by apply step_ledger_wf.
  - by apply step_sales_have_items.
Qed.

(** ** Stock and sold units *)

Lemma rows_appended_nil_inv {A} (t t' : gmap Z A) : rows_appended [] t t' → t' = t.
Proof.
  intros [_ Hold]. apply map_eq. intros j. apply Hold. simpl. lia.
Qed.

Lemma rows_appended_cons_inv {A} (x : A) l (t t' : gmap Z A) :
  rows_appended (x :: l) t t' → rows_appended l (<[next_id t := x]> t) t'.
Proof.
  intros [Hnew Hold]. unfold rows_appended. rewrite next_id_insert. split.
  - intros i y Hy. replace (next_id t + 1 + Z.of_nat i) with (next_id t + Z.of_nat (S i))
      by lia. by apply Hnew.
  - intros j Hj. rewrite lookup_insert.
    destruct (decide (next_id t = j)) as [<-|Hne].
    + replace (next_id t) with (next_id t + Z.of_nat 0) at 1 by lia. by apply Hnew.
    + apply Hold. simpl. lia.
Qed.

Lemma sold_insert pid t i si :
  t !! i = None →
  sold pid (<[i := si]> t)
  = (if decide (product_id si = pid) then quantity si else 0) + sold pid t.
Proof.
  intros Hi. unfold sold. rewrite map_fold_insert_L; [done| |done]. intros; lia.
Qed.

Lemma sold_appended pid sis t t' :
  rows_appended sis t t' →
  sold pid t'
  = sold pid t
    + foldr (λ si acc, (if decide (product_id si = pid) then quantity si else 0) + acc)
            0 sis.
Proof.
  revert t. induction sis as [|si sis IH]; intros t Happ.
  - apply rows_appended_nil_inv in Happ as ->. simpl. lia.
  - apply rows_appended_cons_inv in Happ. rewrite (IH _ Happ).
    rewrite sold_insert by apply next_id_fresh. simpl. lia.
Qed.

Lemma sold_requested db new_sale pid items sis :
  Forall2 (sale_item_of db new_sale) items sis →
  foldr (λ si acc, (if decide (product_id si = pid) then quantity si else 0) + acc) 0 sis
  = requested pid items.
Proof.
  induction 1 as [|item si items sis (p & _ & ->) _ IH]; [done|].
  simpl. by rewrite IH.
Qed.

Lemma bill_applied_conserves env sid items db db' new_sale pid p :
  bill_applied env sid items db db' new_sale → products db !! pid = Some p →
  ∃ p', products db' !! pid = Some p' ∧
        stock_quantity p' + sold pid (sale_items db')
        = stock_quantity p + sold pid (sale_items db).
Proof.
  intros (_ & Hlow & _ & _ & sis & total & Hsis & _ & _ & Happ) Hp.
  eexists. split; [by rewrite Hlow, Hp|].
  rewrite (sold_appended pid sis _ _ Happ), (sold_requested _ _ _ _ _ Hsis). simpl. lia.
Qed.

(** X16: billing conserves the units of every product: whatever the
    bill and whatever the outcome of [process_bill], the stock of a product
    and the quantity the SaleItems have sold of it add up to what they added
    up to before. *)
Theorem billing_conserves_units env u items db pid p :
  products db !! pid = Some p →
  ∃ p', products (run (process_bill env u items) db).2 !! pid = Some p' ∧
        stock_quantity p' + sold pid (sale_items (run (process_bill env u items) db).2)
        = stock_quantity p + sold pid (sale_items db).
Proof.
  intros Hp.
  destruct (process_bill_outcome env u items db)
    as [(sid & new_sale & _ & _ & _ & _ & _ & _ & _ & _ & Happ & _)|[_ ->]];
    [|by exists p].
  by apply (bill_applied_conserves env sid items db _ new_sale).
Qed.

(** X17: adding to the stock what a bill has sold undoes the bill on the
    products: after a bill of one line for [q] units of a product of the
    store and an [update_stock] of [q] for that product, the table of
    products is what it was before the bill. *)
Theorem restock_undoes_bill env u sid pid q p db :
  role u = "store" → user_store_id u = Some sid →
  products db !! pid = Some p → product_store_id p = sid →
  0 < q ≤ stock_quantity p → is_Some (float_of_int q) →
  selects_ok env 2 → commit_fault env = None →
  let bill := [{| item_id := pid; item_quantity := q |}] in
  (run (process_bill env u bill) db).1 = Json (BillOk (next_id (sales db))) 200 ∧
  (run (update_stock env u pid q) (run (process_bill env u bill) db).2).1
  = Redirect "dashboard" ∧
  products (run (update_stock env u pid q) (run (process_bill env u bill) db).2).2
  = products db.
Proof.
  intros Hr Hu Hp Hs Hq Hconv Hsel Hcommit bill.
  destruct (process_bill_valid env u sid bill db) as (db1 & Hrun & Happ); try done.
  { by apply (bill_ok_single db sid _ p); simpl; [..|lia]. }
  { intros item Hin. apply list_elem_of_singleton in Hin as ->. done. }
  rewrite Hrun. simpl. split; [done|].
  destruct Happ as (_ & Hlow & _).
  assert (Hp1 : products db1 !! pid
                = Some (with_stock p (stock_quantity p - q))).
  { rewrite Hlow, Hp. simpl. rewrite decide_True by done. do 2 f_equal. lia. }
  rewrite update_stock_run.
  rewrite decide_False by (intros H; by apply H).
  rewrite (Hsel 0%nat) by lia.
  assert (find_product pid (user_store_id u) db1
          = Some (with_stock p (stock_quantity p - q))) as ->.
  { rewrite Hu. apply find_product_Some. by rewrite Hp1. }
  rewrite decide_True by lia. rewrite Hcommit. simpl. split; [done|].
  apply map_eq. intros id. rewrite lookup_alter.
  destruct (decide (pid = id)) as [<-|Hne].
  - rewrite Hp1, Hp. simpl. f_equal. unfold with_stock. simpl.
    replace (stock_quantity p - q + q) with (stock_quantity p) by lia. by destruct p.
  - rewrite Hlow. destruct (products db !! id) as [p0|]; [|done]. simpl.
    rewrite decide_False by done. f_equal.
    replace (stock_quantity p0 - (0 + 0)) with (stock_quantity p0) by lia.
    apply with_stock_same.
Qed.

(** X18: [update_stock] only adds stock, and only to the product it
    names: the stores, sales and sale items are as before, no product is
    added or removed, no stock is lowered, every other product is as it
    was; and for a product that is not a product of the store of the user,
    a store user is answered 404 and nothing changes. *)
Theorem update_stock_only_adds env u pid n db :
  let r := run (update_stock env u pid n) db in
  stores r.2 = stores db ∧ sales r.2 = sales db ∧ sale_items r.2 = sale_items db ∧
  (∀ id, id ≠ pid → products r.2 !! id = products db !! id) ∧
  (products db !! pid = None → products r.2 !! pid = None) ∧
  (∀ p, products db !! pid = Some p →
     ∃ p', products r.2 !! pid = Some p' ∧ same_but_stock p p' ∧
           stock_quantity p ≤ stock_quantity p') ∧
  (role u = "store" → select_fault env 0 = None →
   (∀ p, products db !! pid = Some p → Some (product_store_id p) ≠ user_store_id u) →
   r = (Abort 404, db)).
Proof.
  intros r. subst r. rewrite update_stock_run.
  assert (Hsame : ∀ resp : Response,
    stores (resp, db).2 = stores db ∧ sales (resp, db).2 = sales db ∧
    sale_items (resp, db).2 = sale_items db ∧
    (∀ id, id ≠ pid → products (resp, db).2 !! id = products db !! id) ∧
    (products db !! pid = None → products (resp, db).2 !! pid = None) ∧
    (∀ p, products db !! pid = Some p →
       ∃ p', products (resp, db).2 !! pid = Some p' ∧ same_but_stock p p' ∧
             stock_quantity p ≤ stock_quantity p')).
  { intros resp. simpl. split_and!; try done.
    intros p Hp. exists p. split_and!; [done|apply same_but_stock_refl|lia]. }
  destruct (decide (role u ≠ "store")) as [Hr|Hr];
    [destruct (Hsame (Abort 403)) as (?&?&?&?&?&?); by split_and!|].
  destruct (select_fault env 0) as [e|];
    [destruct (Hsame (Abort 500)) as (?&?&?&?&?&?); by split_and!|].
  destruct (find_product pid (user_store_id u) db) as [p|] eqn:Hfind.
  - pose proof (find_product_lookup _ _ _ _ Hfind) as Hp.
    assert (Hown : Some (product_store_id p) = user_store_id u).
    { unfold find_product in Hfind. rewrite Hp in Hfind. by destruct (decide _). }
    destruct (decide (n > 0)) as [Hn|Hn].
    + destruct (commit_fault env) as [e|].
      * destruct (Hsame (Abort 500)) as (?&?&?&?&?&?). split_and!; try done.
        intros _ _ Hforeign. by destruct (Hforeign p Hp).
      * simpl. split_and!; try done.
        -- intros id Hid. by rewrite lookup_alter_ne.
        -- intros Hnone. congruence.
        -- intros p0 Hp0. rewrite Hp in Hp0. injection Hp0 as <-.
           eexists. rewrite lookup_alter, Hp. simpl. rewrite decide_True by done.
           split_and!; [done|done|simpl; lia].
        -- intros _ _ Hforeign. by destruct (Hforeign p Hp).
    + destruct (Hsame (Redirect "dashboard")) as (?&?&?&?&?&?). split_and!; try done.
      intros _ _ Hforeign. by destruct (Hforeign p Hp).
  - destruct (Hsame (Abort 404)) as (?&?&?&?&?&?). by split_and!.
Qed.

(** X19: writing needs the role.  A request changes the products, the
    sales or the sale items only for a signed-in user of role [store] who has
    a store, and the stores only for a signed-in superadmin; no request
    changes the users. *)
Theorem writes_need_the_role host req app :
  let db := database app in
  let db' := database (serve host req app).2 in
  users (serve host req app).2 = users app ∧
  (products db' ≠ products db ∨ sales db' ≠ sales db ∨ sale_items db' ≠ sale_items db →
   ∃ id a sid, current_user host app = Done (Some (id, a)) ∧
               role (account_user a) = "store" ∧
               user_store_id (account_user a) = Some sid) ∧
  (stores db' ≠ stores db →
   ∃ id a, current_user host app = Done (Some (id, a)) ∧
           role (account_user a) = "superadmin").
Proof.
  intros db db'. subst db db'.
  destruct (serve_effect host req app) as [Husers [Hsame|(id & a & Hcur & _ & Heff)]].
  { rewrite Hsame. split; [done|]. split; [intros [?|[?|?]]; done|done]. }
  split; [done|].
  destruct Heff as [->| pid p n Hr Hu _ _ -> | form sid Hr Hu -> | sid st d Hr _ ->
                   | env sid items new_sale Hr Hu _ _ Happ].
  - split; [intros [?|[?|?]]; done|done].
  - split; [intros _; by exists id, a, (product_store_id p)|done].
  - split; [intros _; by exists id, a, sid|done].
  - split; [intros [?|[?|?]]; done|intros _; by exists id, a].
  - split; [intros _; by exists id, a, sid|].
    destruct Happ as (Hst & _). intros Hne. by destruct Hne.
Qed.

(** ** Licence dates *)

Lemma bill_loop_stores env sid new_sale t items :
  ∀ k total s,
    bill_loop env (Some sid) new_sale k items total (session_with_stores s t)
    = ((bill_loop env (Some sid) new_sale k items total s).1,
       session_with_stores (bill_loop env (Some sid) new_sale k items total s).2 t).
Proof.
  induction items as [|item items IH]; intros k total s; [done|].
  simpl. unfold mbind, M_bind. rewrite !bill_line_eq.
  destruct (select_fault env k); [done|].
  change (find_product (item_id item) (Some sid) (pending (session_with_stores s t)))
    with (find_product (item_id item) (Some sid) (pending s)).
  destruct (find_product (item_id item) (Some sid) (pending s)) as [p|]; [|done].
  destruct (decide (stock_quantity p < item_quantity item)).
  - destruct (select_fault env (S k)); [done|].
    change (products (persisted (session_with_stores s t))) with (products (persisted s)).
    by destruct (name <$> products (persisted s) !! item_id item).
  - destruct (float_of_int (item_quantity item)); [|done].
    apply (IH (S k) _ {| persisted := persisted s;
                         pending := line_effect new_sale item p (pending s) |}).
Qed.

Lemma process_bill_stores env u items db t :
  run (process_bill env u items) (set_stores db t)
  = ((run (process_bill env u items) db).1,
     set_stores (run (process_bill env u items) db).2 t).
Proof.
  destruct (decide (role u = "store")) as [Hr|Hr]; cycle 1.
  { unfold run, process_bill. by rewrite !decide_True by done. }
  destruct items as [|item items].
  { unfold run, process_bill. by rewrite !decide_False by (intros H; by apply H). }
  destruct (user_store_id u) as [sid|] eqn:Hu; cycle 1.
  { unfold run, process_bill. rewrite !decide_False by (intros H; by apply H).
    unfold try_except, bill_transaction, add_sale. by rewrite Hu. }
  rewrite !(process_bill_run env u sid) by done. cbn zeta.
  change (sales (set_stores db t)) with (sales db).
  set (s0 := {| persisted := db; pending := _ |}).
  change {| persisted := set_stores db t; pending := _ |} with (session_with_stores s0 t).
  rewrite bill_loop_stores.
  destruct (bill_loop env (Some sid) (next_id (sales db)) 0 (item :: items) float_zero s0)
    as [[[r|total]|e] s']; try done.
  cbn [fst snd].
  destruct (commit_fault env); [done|].
  change (sales (pending (session_with_stores s' t))) with (sales (pending s')).
  by destruct (select_fault env _).
Qed.

Lemma update_stock_stores env u pid n db t :
  run (update_stock env u pid n) (set_stores db t)
  = ((run (update_stock env u pid n) db).1,
     set_stores (run (update_stock env u pid n) db).2 t).
Proof.
  rewrite !update_stock_run.
  destruct (decide (role u ≠ "store")); [done|].
  destruct (select_fault env 0); [done|].
  change (find_product pid (user_store_id u) (set_stores db t))
    with (find_product pid (user_store_id u) db).
  destruct (find_product pid (user_store_id u) db); [|done].
  destruct (decide (n > 0)); [|done].
  by destruct (commit_fault env).
Qed.

Lemma dashboard_stores env u m form db t :
  run (dashboard env u m form) (set_stores db t)
  = ((run (dashboard env u m form) db).1,
     set_stores (run (dashboard env u m form) db).2 t).
Proof.
  unfold run, dashboard.
  destruct (decide (role u = "superadmin")); [done|].
  destruct m.
  - unfold select. by destruct (select_fault env 0).
  - destruct (decide (role u ≠ "store")); [done|].
    unfold add_product. destruct (user_store_id u); [|done].
    unfold mbind, M_bind, get_pending, set_pending, commit. simpl.
    by destruct (commit_fault env).
Qed.

Lemma get_products_stores env u db t :
  run (get_products env u) (set_stores db t)
  = ((run (get_products env u) db).1, set_stores (run (get_products env u) db).2 t).
Proof.
  unfold run, get_products. destruct (decide _); [done|].
  unfold select. by destruct (select_fault env 0).
Qed.

Lemma sales_stores env u db t :
  stores_kept db (set_stores db t) →
  run (sales_handler env u) (set_stores db t)
  = ((run (sales_handler env u) db).1, set_stores (run (sales_handler env u) db).2 t).
Proof.
  intros Hkept. unfold run, sales_handler. destruct (decide _); [done|].
  unfold select. destruct (select_fault env 0); [done|].
  unfold mbind, M_bind, get_pending, mret, M_ret. simpl.
  destruct (select_fault env 1); [done|]. simpl.
  destruct (user_store_id u) as [sid|]; [|done]. simpl.
  pose proof (Hkept sid) as Hsid. simpl in Hsid.
  destruct (t !! sid) as [st'|], (stores db !! sid) as [st|]; try done.
  simpl in Hsid. by injection Hsid as -> _.
Qed.

(** X20: the licence date of a store is shown, not enforced.  For a
    signed-in user who is not a superadmin, no request reads a licence date:
    with other licence dates on the stores, every request gets the same
    answer and does the same to the database. *)
Theorem licence_is_not_enforced host req app id a t :
  current_user host app = Done (Some (id, a)) →
  role (account_user a) ≠ "superadmin" →
  stores_kept (database app) (set_stores (database app) t) →
  serve host req (with_stores app t)
  = ((serve host req app).1, with_stores (serve host req app).2 t).
Proof.
  intros Hcur Hr Hkept.
  assert (Hcur' : current_user host (with_stores app t) = Done (Some (id, a))) by done.
  destruct req; unfold serve, login, login_required, logout, on_database;
    rewrite Hcur, Hcur'; try done.
  - unfold run_page, superadmin_dashboard. by rewrite decide_True by done.
  - rewrite !run_page_answer. unfold run, update_license.
    by rewrite decide_True by done.
  - rewrite !run_page_answer.
    change (database (with_stores app t)) with (set_stores (database app) t).
    by rewrite dashboard_stores.
  - rewrite !run_page_answer.
    change (database (with_stores app t)) with (set_stores (database app) t).
    by rewrite update_stock_stores.
  - by rewrite !billing_run.
  - rewrite !run_page_answer.
    change (database (with_stores app t)) with (set_stores (database app) t).
    by rewrite sales_stores.
  - rewrite !run_page_answer.
    change (database (with_stores app t)) with (set_stores (database app) t).
    by rewrite get_products_stores.
  - rewrite !run_page_answer.
    change (database (with_stores app t)) with (set_stores (database app) t).
    by rewrite process_bill_stores.
Qed.

(** ** Sessions *)

Lemma serve_session host req app :
  req ≠ Logout → current_user host app ≠ Done None →
  session_user_id (serve host req app).2 = session_user_id app.
Proof.
  intros Hreq Hcur.
  destruct req; unfold serve, login, login_required;
    destruct (current_user host app) as [[[id a]|]|e]; done.
Qed.

Lemma step_session he app id a :
  he.2 ≠ Web Logout →
  (∃ s, session_user_id app = Some s ∧ py_int s = Some id) ∧ users app !! id = Some a →
  (∃ s, session_user_id (step he app) = Some s ∧ py_int s = Some id) ∧
  users (step he app) !! id = Some a.
Proof.
  intros Hhe [(s & Hs & Hid) Ha]. split.
  - exists s. split; [|done].
    destruct he as [host [req|[n l v|uname password role_ store_id]]];
      unfold step; simpl; try done.
    rewrite serve_session; [done|by intros ->|].
    unfold current_user, load_user. rewrite Hs, Hid, Ha.
    by destruct (load_fault host).
  - destruct (step_users he app)
      as [->|(host & uname & pw & r & sid & _ & _ & _ & _ & ->)]; [done|].
    rewrite lookup_insert_ne; [done|]. intros <-. by rewrite next_id_fresh in Ha.
Qed.

(** X21: nothing but [logout] ends a session: on every run of requests
    and commands without a logout, whatever fails on the way, the user who
    is signed in stays the current user. *)
Theorem session_survives host l app id a :
  current_user host app = Done (Some (id, a)) →
  Forall (λ he, he.2 ≠ Web Logout) l →
  current_user host (steps l app) = Done (Some (id, a)).
Proof.
  intros Hcur Hl.
  assert (Hinv : (∃ s, session_user_id app = Some s ∧ py_int s = Some id) ∧
                 users app !! id = Some a ∧ load_fault host = None).
  { unfold current_user, load_user in Hcur.
    destruct (session_user_id app) as [s|]; [|done].
    destruct (py_int s) as [j|] eqn:Hj; [|done].
    destruct (load_fault host); [done|].
    destruct (users app !! j) as [b|] eqn:Hb; [|done].
    injection Hcur as -> ->. split_and!; [by exists s|done..]. }
  clear Hcur. revert app Hinv.
  induction Hl as [|he l Hhe Hl IH]; intros app (Hs & Ha & Hload).
  - destruct Hs as (s & Hs & Hid). unfold current_user, load_user. simpl.
    by rewrite Hs, Hid, Hload, Ha.
  - simpl. apply IH.
    destruct (step_session he app id a Hhe (conj Hs Ha)) as [Hs' Ha']. by split_and!.
Qed.

End More.

(** ** The properties on the example database *)

Import Binary64 AsciiStrptime Example.

(** [round(x, 2)] of the example runtime on 2.675 (the float nearest to it
    is below the tie, so 2.67), 0.125 (a tie, to the even 0.12) and 30.0. *)
Example round_2_675 : round_2 (lit 6023564501608038 (-51)) = lit 6012305502539612 (-51).
Proof. reflexivity. Qed.

Example round_0_125 : round_2 (lit 1 (-3)) = lit 8646911284551352 (-56).
Proof. reflexivity. Qed.

Example round_30 : round_2 (lit 30 0) = lit 30 0.
Proof. reflexivity. Qed.

(** The example of the specification: a stock of 5 at 10.00, a bill of 3:
    the sale is recorded with total 30.00 and the stock is 2; the same bill
    again is refused and the stock stays 2. *)
Example bill_of_three :
  let r := run (process_bill env0 clerk [line 1 3]) db0 in
  r.1 = Json (BillOk 1) 200 ∧
  stock_quantity <$> products r.2 !! 1 = Some 2 ∧
  total_amount <$> sales r.2 !! 1 = Some (lit 30 0) ∧
  let r' := run (process_bill env0 clerk [line 1 3]) r.2 in
  r'.1 = Json (BillError "Not enough stock for Whisky") 400 ∧
  stock_quantity <$> products r'.2 !! 1 = Some 2.
Proof. cbv zeta. split_and!; reflexivity. Qed.

(** When the query that reads [new_sale.id] after the commit fails, the
    answer is the failure of that query, and the bill is recorded. *)
Example answer_lost_after_commit :
  let r := run (process_bill env_lost clerk [line 1 3]) db0 in
  r.1 = Json (BillError "Lost connection") 500 ∧
  stock_quantity <$> products r.2 !! 1 = Some 2 ∧
  total_amount <$> sales r.2 !! 1 = Some (lit 30 0).
Proof. cbv zeta. split_and!; reflexivity. Qed.

Lemma process_bill_records_sale_witness :
  ∃ db' new_sale sis total,
    run (process_bill env0 clerk [line 1 3]) db0 = (Json (BillOk new_sale) 200, db') ∧
    stock_lowered [line 1 3] (products db0) (products db') ∧
    total_stock (products db0) - total_stock (products db') = total_requested [line 1 3] ∧
    Forall2 (sale_item_of db0 new_sale) [line 1 3] sis ∧
    rows_appended sis (sale_items db0) (sale_items db') ∧
    sum_lines float_zero sis = Some total ∧
    sales db0 !! new_sale = None ∧
    sales db' = <[new_sale := {| total_amount := round2 total; sale_date := now env0;
                                 sale_store_id := 1 |}]> (sales db0).
Proof.
  apply (process_bill_records_sale env0 clerk 1 [line 1 3] db0).
  - reflexivity.
  - reflexivity.
  - discriminate.
  - apply (bill_ok_single db0 1 (line 1 3) whisky); [reflexivity|reflexivity|simpl; lia].
  - intros it Hit. apply list_elem_of_singleton in Hit as ->. by eexists.
  - intros k _. reflexivity.
  - reflexivity.
Defined.

Lemma process_bill_empty_witness :
  (∀ s, process_bill env0 clerk [] s = (Done (Json (BillError "Empty bill") 400), s)) ∧
  (∀ db, run (process_bill env0 clerk []) db = (Json (BillError "Empty bill") 400, db)).
Proof. apply (process_bill_empty env0 clerk). reflexivity. Defined.

Lemma db0_whisky : products db0 !! 1 = Some whisky.
Proof. reflexivity. Qed.

Lemma db0_decoy : products db0 !! 3 = Some decoy.
Proof. reflexivity. Qed.

Lemma db0_stock_nonneg : stock_nonneg db0.
Proof.
  apply (bool_decide_unpack (map_Forall (λ _ p, 0 ≤ stock_quantity p) (products db0))).
  vm_compute. exact I.
Qed.

Lemma env0_selects_ok n : selects_ok env0 n.
Proof. intros k _. reflexivity. Qed.

Lemma convertible_line id q rest :
  is_Some (float_of_int q) → convertible rest → convertible (line id q :: rest).
Proof. intros Hq Hrest. by apply convertible_cons. Qed.

Lemma convertible_nil : convertible [].
Proof. intros it Hit. by apply elem_of_nil in Hit. Qed.

Lemma whisky_short : ¬ line_accepted db0 1 [line 1 3] (line 1 3).
Proof.
  intros (p & Hp & _ & Hq). change (Some whisky = Some p) in Hp.
  injection Hp as <-. vm_compute in Hq. by apply Hq.
Qed.

Lemma whisky_once : bill_ok db0 1 [line 1 3].
Proof.
  apply (bill_ok_single db0 1 (line 1 3) whisky); [reflexivity|reflexivity|].
  simpl. lia.
Qed.

Lemma process_bill_running_stock_witness :
  (is_success (run (process_bill env0 clerk [line 1 3; line 1 3]) db0).1
   ↔ bill_ok db0 1 [line 1 3; line 1 3]) ∧
  run (process_bill env0 clerk [line 1 3; line 1 3]) db0
  = (not_enough_stock (rejected_what db0 1 (line 1 3)), db0) ∧
  (is_failure (run (process_bill env0 clerk [line 1 3; line 1 3]) db0).1 ∧
   (run (process_bill env0 clerk [line 1 3; line 1 3]) db0).2 = db0).
Proof.
  destruct (process_bill_running_stock env0 clerk 1 [line 1 3; line 1 3] db0)
    as (Hiff & Hfirst & Htotal).
  - reflexivity.
  - reflexivity.
  - discriminate.
  - split; [|split].
    + apply Hiff.
      * apply convertible_line; [by eexists|].
        apply convertible_line; [by eexists|]. apply convertible_nil.
      * apply env0_selects_ok.
      * reflexivity.
    + apply (Hfirst [line 1 3] (line 1 3) []).
      * reflexivity.
      * apply whisky_once.
      * apply convertible_line; [by eexists|]. apply convertible_nil.
      * apply env0_selects_ok.
      * apply whisky_short.
    + apply (Htotal 1 whisky).
      * reflexivity.
      * exists (line 1 3). split; [left|reflexivity].
      * vm_compute. reflexivity.
Defined.

(** C3 as the specification states it does not hold: a line on a product
    that does not exist (identifier 7) and a line on a product of the store
    that is sold out (and is called [ID 7]) get the same answer, so the
    answer does not tell a product that is not found from a stock that is
    too low. *)
Lemma not_found_not_distinct :
  find_product 7 (Some 1) db0 = None ∧
  (∃ p, find_product 3 (Some 1) db0 = Some p ∧ stock_quantity p < 1) ∧
  run (process_bill env0 clerk [line 7 1]) db0
  = run (process_bill env0 clerk [line 3 1]) db0.
Proof.
  split; [reflexivity|]. split; [|reflexivity].
  exists decoy. split; [reflexivity|]. simpl. lia.
Qed.

Lemma process_bill_unresolved_witness :
  (is_failure (run (process_bill env0 clerk [line 1 3; line 7 1]) db0).1 ∧
   (run (process_bill env0 clerk [line 1 3; line 7 1]) db0).2 = db0) ∧
  run (process_bill env0 clerk ([line 1 3] ++ line 7 1 :: [])) db0
  = (Json (BillError ("Not enough stock for ID " +:+ py_str 7)) 400, db0) ∧
  run (process_bill env0 clerk ([line 1 3] ++ line 3 1 :: [])) db0
  = (Json (BillError ("Not enough stock for " +:+ name decoy)) 400, db0).
Proof.
  destruct (process_bill_unresolved env0 clerk 1 db0) as (Hany & Hid & Hname).
  - reflexivity.
  - reflexivity.
  - split; [|split].
    + apply (Hany [line 1 3; line 7 1] (line 7 1)); [|reflexivity].
      right. left.
    + apply (Hid [line 1 3] (line 7 1) []).
      * apply whisky_once.
      * apply convertible_line; [by eexists|]. apply convertible_nil.
      * apply env0_selects_ok.
      * reflexivity.
    + apply (Hname [line 1 3] (line 3 1) [] decoy).
      * apply whisky_once.
      * apply convertible_line; [by eexists|]. apply convertible_nil.
      * apply env0_selects_ok.
      * reflexivity.
      * simpl. lia.
Defined.

(** C4 as the specification states it does not hold: a new product is
    stored with the stock the form gives, and the form may give -1. *)
Lemma new_product_negative_stock :
  stock_nonneg db0 ∧
  ¬ stock_nonneg (run (dashboard env0 clerk POST (form0 (-1))) db0).2.
Proof.
  split; [apply db0_stock_nonneg|].
  intros Hnonneg.
  specialize (Hnonneg 4 (new_product (form0 (-1)) 1) eq_refl).
  vm_compute in Hnonneg. by apply Hnonneg.
Qed.

Lemma stock_nonneg_preserved_witness :
  (∀ pid n, stock_nonneg (run (update_stock env0 clerk pid n) db0).2) ∧
  (∀ items, stock_nonneg (run (process_bill env0 clerk items) db0).2) ∧
  (∀ sid v, stock_nonneg (run (update_license env0 clerk sid v) db0).2) ∧
  (∀ m form, 0 ≤ form_stock_quantity form →
             stock_nonneg (run (dashboard env0 clerk m form) db0).2) ∧
  (∀ form sid, role clerk = "store" → user_store_id clerk = Some sid →
               commit_fault env0 = None →
               products (run (dashboard env0 clerk POST form) db0).2
                 !! next_id (products db0)
               = Some (new_product form sid)).
Proof. apply (stock_nonneg_preserved env0 clerk db0). apply db0_stock_nonneg. Defined.

Lemma store_isolation_witness :
  (∃ r, run (get_products env0 clerk) db0 = (r, db0) ∧
        ∀ l d, r = Json (ProductList l) 200 → d ∈ l →
          ∃ p, products db0 !! d_id d = Some p ∧ d = to_dict (d_id d) p ∧
               product_store_id p = 1) ∧
  (∃ r, run (sales_handler env0 clerk) db0 = (r, db0) ∧
        ∀ rows nm id s, r = RenderSales rows nm → (id, s) ∈ rows →
          sales db0 !! id = Some s ∧ sale_store_id s = 1) ∧
  (∀ form, ∃ r, run (dashboard env0 clerk GET form) db0 = (r, db0) ∧
        ∀ rows id p, r = RenderDashboard rows → (id, p) ∈ rows →
          products db0 !! id = Some p ∧ product_store_id p = 1) ∧
  (∀ form, same_rows_of 2 db0 (run (dashboard env0 clerk POST form) db0).2) ∧
  (∀ pid n, same_rows_of 2 db0 (run (update_stock env0 clerk pid n) db0).2) ∧
  (∀ items, same_rows_of 2 db0 (run (process_bill env0 clerk items) db0).2).
Proof. apply (store_isolation env0 clerk 1 2 db0); [reflexivity|lia]. Defined.

Lemma update_stock_adds_witness :
  (run (update_stock env0 clerk 1 4) db0
   = (Redirect "dashboard",
      set_products db0 (<[1 := with_stock whisky (stock_quantity whisky + 4)]> (products db0))) ∧
   (∃ p', products (run (update_stock env0 clerk 1 4) db0).2 !! 1 = Some p' ∧
          stock_quantity p' = stock_quantity whisky + 4 ∧
          barcode p' = barcode whisky ∧ name p' = name whisky ∧ brand p' = brand whisky ∧
          category p' = category whisky ∧ size_ml p' = size_ml whisky ∧
          price p' = price whisky ∧ product_store_id p' = product_store_id whisky) ∧
   (∀ j, j ≠ 1 →
      products (run (update_stock env0 clerk 1 4) db0).2 !! j = products db0 !! j) ∧
   stores (run (update_stock env0 clerk 1 4) db0).2 = stores db0 ∧
   sales (run (update_stock env0 clerk 1 4) db0).2 = sales db0 ∧
   sale_items (run (update_stock env0 clerk 1 4) db0).2 = sale_items db0) ∧
  run (update_stock env0 clerk 1 (-4)) db0 = (Redirect "dashboard", db0).
Proof.
  split.
  - apply (update_stock_adds env0 clerk 1 1 whisky 4 db0);
      [reflexivity|reflexivity|reflexivity|reflexivity|reflexivity|lia|reflexivity].
  - apply (update_stock_adds env0 clerk 1 1 whisky (-4) db0);
      [reflexivity|reflexivity|reflexivity|reflexivity|reflexivity|lia].
Defined.

Lemma update_license_sets_witness :
  (run (update_license env0 root 1 (Some "2031-12-31")) db0
   = (Redirect "superadmin_dashboard",
      set_stores db0 (<[1 := with_license (shop "North") (Date 2031 12 31)]> (stores db0))) ∧
   (∃ st', stores (run (update_license env0 root 1 (Some "2031-12-31")) db0).2 !! 1
           = Some st' ∧
           license_validity st' = Date 2031 12 31 ∧
           store_name st' = store_name (shop "North") ∧
           location st' = location (shop "North")) ∧
   (∀ j, j ≠ 1 →
      stores (run (update_license env0 root 1 (Some "2031-12-31")) db0).2 !! j
      = stores db0 !! j) ∧
   products (run (update_license env0 root 1 (Some "2031-12-31")) db0).2 = products db0 ∧
   sales (run (update_license env0 root 1 (Some "2031-12-31")) db0).2 = sales db0 ∧
   sale_items (run (update_license env0 root 1 (Some "2031-12-31")) db0).2
   = sale_items db0) ∧
  run (update_license env0 root 1 (Some "31/12/2031")) db0
  = (Redirect "superadmin_dashboard", db0).
Proof.
  split.
  - apply (update_license_sets env0 root 1 (shop "North") "2031-12-31" db0);
      reflexivity.
  - apply (update_license_sets env0 root 1 (shop "North") "31/12/2031" db0);
      reflexivity.
Defined.

Lemma process_bill_any_sign_witness :
  ∃ db',
    run (process_bill env0 clerk [line 1 (-2)]) db0 = (Json (BillOk 1) 200, db') ∧
    products db' !! 1 = Some (with_stock whisky 7) ∧
    (∃ p', products db' !! 1 = Some p' ∧
           stock_quantity p' = 7 ∧ stock_quantity whisky < stock_quantity p' ∧
           barcode p' = barcode whisky ∧ name p' = name whisky ∧
           brand p' = brand whisky ∧ category p' = category whisky ∧
           size_ml p' = size_ml whisky ∧ price p' = price whisky ∧
           product_store_id p' = product_store_id whisky) ∧
    sale_items db' !! 1
    = Some {| sale_id := 1; product_id := 1; quantity := -2;
              price_at_sale := lit 10 0 |} ∧
    sales db' !! 1
    = Some {| total_amount := round2 (float_add float_zero (float_mul (lit 10 0) (lit (-2) 0)));
              sale_date := now env0; sale_store_id := 1 |}.
Proof.
  destruct (process_bill_any_sign env0 1 (line 1 (-2)) whisky (lit (-2) 0))
    as [_ Hbill]; [reflexivity|].
  apply (Hbill clerk db0);
    [reflexivity|reflexivity|apply env0_selects_ok|reflexivity|reflexivity
    |reflexivity|simpl; lia|simpl; lia].
Defined.

(** ** The further properties on the example application *)

Import Binary64 AsciiStrptime ClearHash DecimalInt Example ExampleApp.

(** The example application with the clerk signed in, and with the
    manager. *)
Example clerk_signs_in :
  serve host0 (Login POST "clerk" "till") app0
  = (Answer (Redirect "billing"), login_user 1 app0) ∧
  serve host0 (Login POST "clerk" "ledger") app0
  = (LoginPage (Some "Invalid username or password."), app0) ∧
  serve host0 Billing (login_user 1 app0) = (BillingPage, login_user 1 app0) ∧
  serve host0 Sales (login_user 1 app0) = (Answer (Abort 403), login_user 1 app0).
Proof. split_and!; reflexivity. Qed.

(** The commands on the example: a store with a date that is none, a
    store with a name that is taken, a user with a role that is none. *)
Example commands_refused :
  execute host0 (CreateStore "East" "Quay 4" "2031-02-30") app0
  = (Print "❌ Error creating store: time data does not match format: 2031-02-30", app0) ∧
  execute host0 (CreateStore "North" "Quay 4" "2031-02-01") app0
  = (Print "❌ Error creating store: UNIQUE constraint failed", app0) ∧
  execute host0 (CreateUser "ann" "pw" "owner" 1) app0
  = (Print "❌ Error: Role must be 'superadmin', 'admin', or 'store'.", app0) ∧
  execute host0 (CreateUser "ann" "pw" "admin" 0) app0
  = (Print "❌ Error: A store_id must be provided for admin and store roles.", app0) ∧
  execute host0 (CreateUser "ann" "pw" "superadmin" 1) app0
  = (Print "❌ Error: Superadmin cannot be assigned to a store.", app0) ∧
  execute host0 (CreateUser "clerk" "pw" "store" 1) app0
  = (Traceback "UNIQUE constraint failed", app0).
Proof. split_and!; reflexivity. Qed.

Lemma app0_users i a :
  users app0 !! i = Some a →
  (i = 1 ∧ a = acct clerk "till") ∨ (i = 2 ∧ a = acct manager "ledger")
  ∨ (i = 3 ∧ a = acct root "toor").
Proof.
  unfold app0. simpl. rewrite !lookup_insert, lookup_singleton.
  destruct (decide (1 = i)) as [<-|_]; [intros [= <-]; by left|].
  destruct (decide (2 = i)) as [<-|_]; [intros [= <-]; right; by left|].
  destruct (decide (3 = i)) as [<-|_]; [intros [= <-]; right; by right|].
  done.
Qed.

Lemma app0_usernames_unique : usernames_unique (users app0).
Proof.
  intros i j a b Ha Hb.
  destruct (app0_users i a Ha) as [[-> ->]|[[-> ->]|[-> ->]]],
           (app0_users j b Hb) as [[-> ->]|[[-> ->]|[-> ->]]]; done.
Qed.

Lemma app0_accounts_wf : accounts_wf (users app0).
Proof.
  intros i a Ha.
  destruct (app0_users i a Ha) as [[-> ->]|[[-> ->]|[-> ->]]].
  - right. split; [by right|]. by exists 1.
  - right. split; [by left|]. by exists 1.
  - by left.
Qed.

Lemma db0_stores i st :
  stores db0 !! i = Some st → (i = 1 ∧ st = shop "North") ∨ (i = 2 ∧ st = shop "South").
Proof.
  unfold db0. simpl. rewrite !lookup_insert, lookup_singleton.
  destruct (decide (1 = i)) as [<-|_]; [intros [= <-]; by left|].
  destruct (decide (2 = i)) as [<-|_]; [intros [= <-]; by right|].
  done.
Qed.

Lemma db0_store_names_unique : store_names_unique (stores db0).
Proof.
  intros i j a b Ha Hb.
  destruct (db0_stores i a Ha) as [[-> ->]|[-> ->]],
           (db0_stores j b Hb) as [[-> ->]|[-> ->]]; done.
Qed.

Lemma db0_ledger_wf : ledger_wf db0.
Proof. intros id si Hsi. unfold db0 in Hsi. simpl in Hsi. by rewrite lookup_empty in Hsi. Qed.

Lemma db0_sales_have_items : sales_have_items db0.
Proof. intros id s Hs. unfold db0 in Hs. simpl in Hs. by rewrite lookup_empty in Hs. Qed.

(** The stores of the example with licences that have run out. *)
Lemma db0_expired :
  stores_kept db0
    (set_stores db0 ((λ st, with_license st (Date 2020 1 1)) <$> stores db0)).
Proof.
  intros id. unfold set_stores. cbn [stores]. rewrite lookup_fmap.
  by destruct (stores db0 !! id).
Qed.

Lemma anonymous_sent_to_login_witness :
  serve host0 (ProcessBill [line 1 3]) app0 = (Answer (Redirect "login"), app0).
Proof.
  apply (anonymous_sent_to_login host0 (ProcessBill [line 1 3]) app0);
    [reflexivity|discriminate].
Defined.

Lemma login_signs_in_witness :
  serve host0 (Login POST (username (account_user (acct clerk "till"))) "till") app0
  = (Answer (landing (role (account_user (acct clerk "till")))), login_user 1 app0) ∧
  current_user host0 (login_user 1 app0) = Done (Some (1, acct clerk "till")).
Proof.
  apply (login_signs_in host0 1 (acct clerk "till") "till" app0);
    [apply app0_usernames_unique|reflexivity..].
Defined.

Lemma logout_ends_session_witness :
  serve host0 Logout (login_user 1 app0)
  = (Answer (Redirect "login"), logout_user (login_user 1 app0)) ∧
  database (logout_user (login_user 1 app0)) = database (login_user 1 app0) ∧
  users (logout_user (login_user 1 app0)) = users (login_user 1 app0) ∧
  ∀ host' req, (∀ m uname password, req ≠ Login m uname password) →
    serve host' req (logout_user (login_user 1 app0))
    = (Answer (Redirect "login"), logout_user (login_user 1 app0)).
Proof.
  apply (logout_ends_session host0 (login_user 1 app0) 1 (acct clerk "till")).
  reflexivity.
Defined.

Lemma landing_page_accepts_witness :
  ∃ endpoint req,
    landing (role (account_user (acct manager "ledger"))) = Redirect endpoint ∧
    follow endpoint = Some req ∧
    ((serve host0 req (login_user 2 app0)).1 = Answer (Abort 403) ↔
     role (account_user (acct manager "ledger")) ≠ "superadmin" ∧
     role (account_user (acct manager "ledger")) ≠ "admin" ∧
     role (account_user (acct manager "ledger")) ≠ "store").
Proof.
  apply (landing_page_accepts host0 (login_user 2 app0) 2 (acct manager "ledger")).
  reflexivity.
Defined.

Lemma accounts_stay_well_formed_witness :
  let l := [(host0, Cli (CreateUser "ann" "pw" "admin" 2));
            (host0, Web (Login POST "ann" "pw"));
            (host0, Cli (CreateUser "ann" "other" "store" 1))] in
  accounts_wf (users (steps l app0)) ∧ usernames_unique (users (steps l app0)) ∧
  (Forall (λ he, ∀ uname password role_ store_id,
                   he.2 ≠ Cli (CreateUser uname password role_ store_id)) l →
   users (steps l app0) = users app0) ∧
  ∀ he,
    users (step he (steps l app0)) = users (steps l app0) ∨
    ∃ uname password role_ store_id,
      he.2 = Cli (CreateUser uname password role_ store_id) ∧
      users (steps l app0) !! next_id (users (steps l app0)) = None ∧
      (∀ id a, users (steps l app0) !! id = Some a →
               username (account_user a) ≠ uname) ∧
      users (step he (steps l app0)) =
      <[next_id (users (steps l app0)) :=
          {| account_user :=
               {| username := uname; role := role_;
                  user_store_id :=
                    if decide (store_id ≠ 0) then Some store_id else None |};
             password_hash := generate_password_hash (salt he.1) password |}]>
        (users (steps l app0)).
Proof.
  intros l. apply (accounts_stay_well_formed l app0);
    [apply app0_accounts_wf|apply app0_usernames_unique].
Defined.

(** On that run the first [create_user] adds ann as user 4, and the second
    is refused: the username is taken. *)
Example ann_is_added_once :
  let l := [(host0, Cli (CreateUser "ann" "pw" "admin" 2));
            (host0, Web (Login POST "ann" "pw"));
            (host0, Cli (CreateUser "ann" "other" "store" 1))] in
  users (steps l app0) = <[4 := acct {| username := "ann"; role := "admin";
                                        user_store_id := Some 2 |} "pw"]> (users app0) ∧
  session_user_id (steps l app0) = Some "4".
Proof. split; reflexivity. Qed.

Lemma created_user_signs_in_witness :
  let app' := (execute host0 (CreateUser "ann" "pw" "admin" 2) app0).2 in
  serve host0 (Login POST "ann" "pw") app'
  = (Answer (landing "admin"), login_user (next_id (users app0)) app').
Proof.
  apply (created_user_signs_in host0 host0 "ann" "pw" "admin" 2 app0);
    [|reflexivity|reflexivity].
  intros Heq.
  assert (Hnew : users (execute host0 (CreateUser "ann" "pw" "admin" 2) app0).2 !! 4
                 = users app0 !! 4) by by rewrite Heq.
  discriminate Hnew.
Defined.

Lemma store_names_stay_unique_witness :
  let l := [(host0, Cli (CreateStore "East" "Quay 4" "2031-02-01"));
            (host0, Cli (CreateStore "East" "Quay 5" "2031-03-01"));
            (host0, Web (Login POST "root" "toor"));
            (host0, Web (UpdateLicense 3 (Some "2032-01-01")))] in
  store_names_unique (stores (database (steps l app0))).
Proof.
  intros l. apply (store_names_stay_unique l app0). apply db0_store_names_unique.
Defined.

Lemma superadmin_page_lists_stores_witness :
  ∃ rows,
    run_page (superadmin_dashboard host0 root) db0
    = (SuperadminPage rows (today host0), db0) ∧
    StronglySorted license_order rows ∧ NoDup rows.*1 ∧
    ∀ id st, (id, st) ∈ rows ↔ stores db0 !! id = Some st.
Proof.
  apply (superadmin_page_lists_stores host0 root db0); reflexivity.
Defined.

Lemma get_products_lists_stock_witness :
  ∃ l,
    run (get_products env0 manager) db0 = (Json (ProductList l) 200, db0) ∧
    NoDup (d_id <$> l) ∧
    ∀ d, d ∈ l ↔
      ∃ p, products db0 !! d_id d = Some p ∧ d = to_dict (d_id d) p ∧
           Some (product_store_id p) = user_store_id manager ∧ 0 < stock_quantity p.
Proof.
  apply (get_products_lists_stock env0 manager db0); [by right|reflexivity].
Defined.

Lemma sales_lists_store_sales_witness :
  let db1 := (run (process_bill env0 clerk [line 1 3]) db0).2 in
  ∃ rows,
    run (sales_handler env0 manager) db1 = (RenderSales rows (store_name (shop "North")), db1) ∧
    StronglySorted date_desc rows ∧ NoDup rows.*1 ∧
    ∀ id s, (id, s) ∈ rows ↔ sales db1 !! id = Some s ∧ sale_store_id s = 1.
Proof.
  intros db1.
  apply (sales_lists_store_sales env0 manager db1 1 (shop "North"));
    [reflexivity|reflexivity|reflexivity|apply env0_selects_ok].
Defined.

Lemma dashboard_lists_products_witness :
  ∃ rows,
    run (dashboard env0 clerk GET (form0 0)) db0 = (RenderDashboard rows, db0) ∧
    Sorted name_le rows ∧ NoDup rows.*1 ∧
    ∀ id p, (id, p) ∈ rows ↔
      products db0 !! id = Some p ∧ Some (product_store_id p) = user_store_id clerk.
Proof.
  apply (dashboard_lists_products env0 clerk (form0 0) db0); [discriminate|reflexivity].
Defined.

Lemma ledger_stays_consistent_witness :
  let l := [(host0, Web (Login POST "clerk" "till"));
            (host0, Web (ProcessBill [line 1 3; line 1 2]));
            (host0, Web (UpdateStock 1 6))] in
  ledger_wf (database (steps l app0)) ∧ sales_have_items (database (steps l app0)).
Proof.
  intros l. apply (ledger_stays_consistent l app0);
    [apply db0_ledger_wf|apply db0_sales_have_items].
Defined.

Lemma billing_conserves_units_witness :
  ∃ p', products (run (process_bill env0 clerk [line 1 3; line 1 2]) db0).2 !! 1 = Some p' ∧
        stock_quantity p'
        + sold 1 (sale_items (run (process_bill env0 clerk [line 1 3; line 1 2]) db0).2)
        = stock_quantity whisky + sold 1 (sale_items db0).
Proof.
  apply (billing_conserves_units env0 clerk [line 1 3; line 1 2] db0 1 whisky).
  reflexivity.
Defined.

Lemma restock_undoes_bill_witness :
  let bill := [{| item_id := 1; item_quantity := 3 |}] in
  (run (process_bill env0 clerk bill) db0).1 = Json (BillOk (next_id (sales db0))) 200 ∧
  (run (update_stock env0 clerk 1 3) (run (process_bill env0 clerk bill) db0).2).1
  = Redirect "dashboard" ∧
  products (run (update_stock env0 clerk 1 3) (run (process_bill env0 clerk bill) db0).2).2
  = products db0.
Proof.
  apply (restock_undoes_bill env0 clerk 1 1 3 whisky db0);
    [reflexivity|reflexivity|reflexivity|reflexivity|simpl; lia|by eexists
    |apply env0_selects_ok|reflexivity].
Defined.

Lemma licence_is_not_enforced_witness :
  let t := (λ st, with_license st (Date 2020 1 1)) <$> stores db0 in
  serve host0 (ProcessBill [line 1 3]) (with_stores (login_user 1 app0) t)
  = ((serve host0 (ProcessBill [line 1 3]) (login_user 1 app0)).1,
     with_stores (serve host0 (ProcessBill [line 1 3]) (login_user 1 app0)).2 t).
Proof.
  intros t.
  apply (licence_is_not_enforced host0 (ProcessBill [line 1 3]) (login_user 1 app0)
           1 (acct clerk "till") t);
    [reflexivity|discriminate|apply db0_expired].
Defined.

Lemma session_survives_witness :
  let l := [(host0, Web (Login POST "root" "toor"));
            (host0, Cli (CreateUser "ann" "pw" "admin" 2));
            (host0, Web (ProcessBill [line 1 3]))] in
  current_user host0 (steps l (login_user 1 app0)) = Done (Some (1, acct clerk "till")).
Proof.
  intros l.
  apply (session_survives host0 l (login_user 1 app0) 1 (acct clerk "till"));
    [reflexivity|].
  repeat constructor; discriminate.
Defined.
